(** * Embedding-based kNN phishing classifier: chunking, voting, aggregation

    A shallow embedding of [classify_knn.py] (the chunking script working on
    markdown files) and of the [PhishingClassifier] of [classifier.py] (the
    singleton working on [.eml] files), with the properties their
    specification states about them.

    Conventions.
    - Python [int] is [Z]; a Python [str] holding message text is a
      [list ascii]; identifiers and category labels are [string].
    - Similarity scores are Python/numpy floats in the source.  They are
      modelled as exact rationals [Q]: rounding, infinities and NaN are not
      modelled.  Every concrete value used below is a small dyadic rational,
      which binary floating point represents exactly.
    - The sentence-transformer model and the cosine that scikit-learn's
      [cosine_similarity] computes live outside the repository: they are
      Section variables.  The library's refusal of an example array without
      rows is part of the model, since a run of [classify_knn.py] can meet
      it.
    - A Python exception is [None] in an [option] result. *)

From Stdlib Require Import List ZArith QArith String Ascii Lia Bool.
From Stdlib Require Import Sorted Permutation Lqa.
Import ListNotations.

Set Implicit Arguments.

Open Scope string_scope.
Open Scope list_scope.

(** ** Python primitives *)

Module Py.

Definition text := list ascii.

(** [len(l)] *)
Definition len {A} (l : list A) : Z := Z.of_nat (List.length l).

(** How a slice bound is resolved against a sequence: a negative bound counts
    from the end, and every bound is clamped to [0 .. len]. *)
Definition slice_index {A} (l : list A) (i : Z) : Z :=
  if (i <? 0)%Z then Z.max 0 (i + len l) else Z.min i (len l).

(** [l[start:stop]] *)
Definition slice {A} (l : list A) (start stop : Z) : list A :=
  let a := slice_index l start in
  let b := slice_index l stop in
  firstn (Z.to_nat (b - a)) (skipn (Z.to_nat a) l).

(** [l[start:]] *)
Definition slice_from {A} (l : list A) (start : Z) : list A :=
  skipn (Z.to_nat (slice_index l start)) l.

(** [l[:stop]] *)
Definition slice_to {A} (l : list A) (stop : Z) : list A :=
  firstn (Z.to_nat (slice_index l stop)) l.

(** [l[idx]] for an index that numpy's [argsort] produced (never negative);
    out of range raises [IndexError]. *)
Definition getitem {A} (l : list A) (idx : nat) : option A := nth_error l idx.

(** [a > b] on scores *)
Definition gt (a b : Q) : bool := negb (Qle_bool a b).

(** [max(a, b)]: the first argument unless the second is strictly greater. *)
Definition max2 (a b : Q) : Q := if gt b a then b else a.

(** [max(xs, key=key)]: the first element whose key is maximal;
    [ValueError] on an empty sequence. *)
Fixpoint max_from {A} (key : A -> Q) (best : A) (xs : list A) : A :=
  match xs with
  | [] => best
  | x :: xs' => max_from key (if gt (key x) (key best) then x else best) xs'
  end.

Definition max_by {A} (key : A -> Q) (xs : list A) : option A :=
  match xs with
  | [] => None
  | x :: xs' => Some (max_from key x xs')
  end.

(** Truthiness of an optional string argument: [None] and [""] are falsy. *)
Definition truthy (s : option string) : bool :=
  match s with
  | None => false
  | Some EmptyString => false
  | Some _ => true
  end.

End Py.

Import Py.

(** ** numpy primitives *)

Module Np.

(** An embedding vector. *)
Definition Emb := list Q.

(** Insertion of an (index, value) pair in a list sorted by value, in front
    of the first entry whose value is not smaller. *)
Fixpoint insert_by (x : nat * Q) (l : list (nat * Q)) : list (nat * Q) :=
  match l with
  | [] => [x]
  | y :: l' => if Qle_bool (snd x) (snd y) then x :: l else y :: insert_by x l'
  end.

(** [np.argsort(a)]: the indices of [a] by ascending value.  numpy's default
    sort promises no order among equal values; the model takes their index
    order, the stable choice the specification names.  Only the order among
    tied entries depends on this choice: the facts used below about the
    selection are [argsort_perm] and [argsort_sorted], which hold of any
    sort. *)
Definition argsort (a : list Q) : list nat :=
  map fst (fold_right insert_by [] (combine (seq 0 (List.length a)) a)).

(** [np.dot(u, v)] on two vectors *)
Definition dot (u v : Emb) : Q :=
  fold_left Qplus (map (fun p => fst p * snd p) (combine u v)) 0.

(** [np.dot(m, v)] on a matrix (one embedding per row) and a vector *)
Definition matvec (m : list Emb) (v : Emb) : list Q :=
  map (fun row => dot row v) m.

(** [a[mask]] with a boolean mask; [IndexError] when the lengths differ. *)
Fixpoint mask_select {A} (a : list A) (mask : list bool) : option (list A) :=
  match a, mask with
  | [], [] => Some []
  | x :: a', m :: mask' =>
      match mask_select a' mask' with
      | Some r => Some (if m then x :: r else r)
      | None => None
      end
  | _, _ => None
  end.

End Np.

Import Np.

(** ** Data shared by the two scripts *)

(** The value side of a [LABELED_EXAMPLES] entry. *)
Record Info := mkInfo { info_is_phishing : bool; info_label : string }.

(** An entry of [example_labels]. *)
Record Label := mkLabel {
  lbl_file : string;
  lbl_is_phishing : bool;
  lbl_label : string
}.

(** An entry of [neighbors]. *)
Record Neighbor := mkNeighbor {
  nb_file : string;
  nb_label : string;
  nb_similarity : Q;
  nb_is_phishing : bool
}.

(** The same string in both files. *)
Definition TASK_INSTRUCTION : string :=
  "Classify this email as phishing or legitimate based on its content, sender patterns, and suspicious indicators".

Definition newline : string := String "010"%char EmptyString.

(** [f"Instruct: {TASK_INSTRUCTION}\nQuery: {text}"] *)
Definition format_query (t : text) : text :=
  list_ascii_of_string ("Instruct: " ++ TASK_INSTRUCTION ++ newline ++ "Query: ")
  ++ t.

(** [f"passage: {text}"] *)
Definition format_passage (t : text) : text :=
  list_ascii_of_string "passage: " ++ t.

(** [np.argsort(similarities)[-k:][::-1]] *)
Definition top_k (similarities : list Q) (k : Z) : list nat :=
  rev (slice_from (argsort similarities) (- k)).

(** The voting loop, the same in [classify_knn] ([classify_knn.py], lines
    96-112) and in [PhishingClassifier.classify] ([classifier.py], lines
    206-222): each selected index appends a neighbour and adds its similarity
    to the accumulator of its label. *)
Fixpoint vote_loop (similarities : list Q) (labels : list Label)
    (idxs : list nat) (phishing_score legit_score : Q)
    (neighbors : list Neighbor) : option (Q * Q * list Neighbor) :=
  match idxs with
  | [] => Some (phishing_score, legit_score, neighbors)
  | idx :: rest =>
      match getitem labels idx, getitem similarities idx with
      | Some lab, Some sim =>
          let neighbors :=
            neighbors ++ [mkNeighbor (lbl_file lab) (lbl_label lab) sim
                                     (lbl_is_phishing lab)] in
          if lbl_is_phishing lab
          then vote_loop similarities labels rest (phishing_score + sim)
                         legit_score neighbors
          else vote_loop similarities labels rest phishing_score
                         (legit_score + sim) neighbors
      | _, _ => None
      end
  end.

(** [max(p, l) / (p + l) if (p + l) > 0 else 0] *)
Definition confidence_of (phishing_score legit_score : Q) : Q :=
  if gt (phishing_score + legit_score) 0
  then max2 phishing_score legit_score / (phishing_score + legit_score)
  else 0.

(** The two accumulators, read back from a neighbour list. *)
Definition phishing_score_of (ns : list Neighbor) : Q :=
  fold_left (fun acc n => if nb_is_phishing n then acc + nb_similarity n else acc)
            ns 0.

Definition legit_score_of (ns : list Neighbor) : Q :=
  fold_left (fun acc n => if nb_is_phishing n then acc else acc + nb_similarity n)
            ns 0.

(** ** [classify_knn.py] *)

Module ClassifyKnn.

(** Lines 17-35, in the order of the dictionary literal. *)
Definition LABELED_EXAMPLES : list (string * Info) :=
  [ ("email/sample-1.md", mkInfo true "Banking points scam (Bradesco)");
    ("email/sample-2.md", mkInfo true "Bank verification scam (Mashreq)");
    ("email/sample-5.md", mkInfo true "Account blocked scam (Chase)");
    ("email/sample-3.md", mkInfo true "Advance fee fraud (419 scam)");
    ("email/sample-8.md", mkInfo true "FTX crypto recovery scam");
    ("email/sample-9.md", mkInfo true "Fake Coinbase transaction");
    ("email/sample-12.md", mkInfo true "Fake Binance verification (Cyrillic)");
    ("email/sample-15.md", mkInfo true "MetaMask seed phrase theft");
    ("email/sample-10.md", mkInfo true "Fake Microsoft sign-in alert");
    ("email/sample-6.md", mkInfo true "Coca Cola prize scam");
    ("email/sample-4.md", mkInfo false "Newsletter unsubscribe (legitimate)") ].

(** *** Chunker (lines 37-39 and 61-75) *)

Definition CHUNK_SIZE : Z := 1000.
Definition CHUNK_OVERLAP : Z := 200.

(** The [while] loop of [chunk_text].  [fuel] bounds the number of
    iterations; [None] stands for a loop that does not stop. *)
Fixpoint chunk_loop (fuel : nat) (txt : text) (chunk_size overlap : Z)
    (start : Z) (chunks : list text) : option (list text) :=
  match fuel with
  | O => None
  | S fuel' =>
      if (start <? len txt)%Z then
        let end_ := (start + chunk_size)%Z in
        let chunk := slice txt start end_ in
        let chunks := chunks ++ [chunk] in
        let start := (end_ - overlap)%Z in
        if (start + overlap >=? len txt)%Z then Some chunks
        else chunk_loop fuel' txt chunk_size overlap start chunks
      else Some chunks
  end.

(** [chunk_text(text, chunk_size, overlap)].  The loop is run with
    [len(text) + 1] units of fuel, which it exhausts exactly when the window
    does not advance ([chunk_size <= overlap], see [chunk_text_diverges] and
    [chunk_text_terminates]). *)
Definition chunk_text (txt : text) (chunk_size overlap : Z) : option (list text) :=
  if (len txt <=? chunk_size)%Z then Some [txt]
  else chunk_loop (S (List.length txt)) txt chunk_size overlap 0 [].

(** The windows the loop emits: [n] slices of width [chunk_size], the first at
    [start], each [step] further than the previous one. *)
Fixpoint windows (txt : text) (chunk_size step start : Z) (n : nat) : list text :=
  match n with
  | O => []
  | S n' => slice txt start (start + chunk_size)
            :: windows txt chunk_size step (start + step) n'
  end.

(** *** Similarity voter and chunk aggregator (lines 78-173) *)

(** The dictionary [classify_knn] returns. *)
Record Verdict := mkVerdict {
  is_phishing : bool;
  confidence : Q;
  neighbors : list Neighbor
}.

(** The same dictionary once [classify_with_chunking] has added
    ["chunk_index"] and ["chunk_preview"] to it. *)
Record ChunkResult := mkChunkResult {
  cr_is_phishing : bool;
  cr_confidence : Q;
  cr_neighbors : list Neighbor;
  chunk_index : Z;
  chunk_preview : text
}.

(** The dictionary [classify_with_chunking] returns. *)
Record EmailVerdict := mkEmailVerdict {
  ev_is_phishing : bool;
  ev_confidence : Q;
  ev_neighbors : list Neighbor;
  num_chunks : Z;
  phishing_chunks : Z;
  chunk_results : list ChunkResult
}.

(** The loop of lines 136-139: the examples whose file is not
    [exclude_file], embeddings and labels filtered side by side. *)
Fixpoint filter_loop (exclude_file : string) (example_embeddings : list Emb)
    (labels : list Label) (i : nat)
    (filtered_embeddings : list Emb) (filtered_labels : list Label)
    : option (list Emb * list Label) :=
  match labels with
  | [] => Some (filtered_embeddings, filtered_labels)
  | lab :: rest =>
      if negb (String.eqb (lbl_file lab) exclude_file) then
        match getitem example_embeddings i with
        | Some e =>
            filter_loop exclude_file example_embeddings rest (S i)
                        (filtered_embeddings ++ [e]) (filtered_labels ++ [lab])
        | None => None
        end
      else
        filter_loop exclude_file example_embeddings rest (S i)
                    filtered_embeddings filtered_labels
  end.

(** Lines 133-144: the example set a call works on. *)
Definition use_examples (example_embeddings : list Emb)
    (example_labels : list Label) (exclude_file : option string)
    : option (list Emb * list Label) :=
  match exclude_file with
  | Some f =>
      if truthy exclude_file then
        match filter_loop f example_embeddings example_labels 0 [] [] with
        | Some (filtered_embeddings, filtered_labels) =>
            Some (match filtered_embeddings with
                  | [] => example_embeddings
                  | _ => filtered_embeddings
                  end,
                  match filtered_labels with
                  | [] => example_labels
                  | _ => filtered_labels
                  end)
        | None => None
        end
      else Some (example_embeddings, example_labels)
  | None => Some (example_embeddings, example_labels)
  end.

(** [chunk[:100] + "..." if len(chunk) > 100 else chunk] *)
Definition preview (chunk : text) : text :=
  if (len chunk >? 100)%Z
  then slice_to chunk 100 ++ list_ascii_of_string "..."
  else chunk.

(** Lines 156-173: the any-match rule and the choice of the chunk whose
    confidence and neighbours are reported. *)
Definition aggregate (chunks : list text) (chunk_results : list ChunkResult)
    : option EmailVerdict :=
  let any_phishing := existsb cr_is_phishing chunk_results in
  let best :=
    if any_phishing
    then max_by cr_confidence (filter cr_is_phishing chunk_results)
    else max_by cr_confidence chunk_results in
  match best with
  | None => None
  | Some best_chunk =>
      Some (mkEmailVerdict any_phishing
              (cr_confidence best_chunk)
              (cr_neighbors best_chunk)
              (len chunks)
              (len (filter cr_is_phishing chunk_results))
              chunk_results)
  end.

Section Voter.

(** [model.encode(..., normalize_embeddings=True)] on one formatted string;
    on a batch it is applied to each string in turn. *)
Variable encode : text -> Emb.

(** One entry of scikit-learn's [cosine_similarity] matrix: the cosine of
    two vectors of the model's dimension. *)
Variable cosine : Emb -> Emb -> Q.

(** [cosine_similarity([query_embedding], example_embeddings)[0]] (line 90).
    The library validates its arguments before it computes, and raises
    [ValueError] on an example array without rows, which is what
    [model.encode] returns for an empty list of texts. *)
Definition cosine_similarity_row (query_embedding : Emb)
    (example_embeddings : list Emb) : option (list Q) :=
  match example_embeddings with
  | [] => None
  | _ :: _ => Some (map (cosine query_embedding) example_embeddings)
  end.

(** [embed_texts(model, texts, is_query)] (lines 78-84) *)
Definition embed_texts (texts : list text) (is_query : bool) : list Emb :=
  if is_query then map (fun t => encode (format_query t)) texts
  else map (fun t => encode (format_passage t)) texts.

(** [classify_knn(query_embedding, example_embeddings, example_labels, k)]
    (lines 87-121) *)
Definition classify_knn (query_embedding : Emb) (example_embeddings : list Emb)
    (example_labels : list Label) (k : Z) : option Verdict :=
  match cosine_similarity_row query_embedding example_embeddings with
  | None => None
  | Some similarities =>
      let top_k_indices := top_k similarities k in
      match vote_loop similarities example_labels top_k_indices 0 0 [] with
      | Some (phishing_votes, legit_votes, neighbors) =>
          Some (mkVerdict (gt phishing_votes legit_votes)
                          (confidence_of phishing_votes legit_votes)
                          neighbors)
      | None => None
      end
  end.

(** The loop of lines 149-154. *)
Fixpoint chunk_results_loop (use_embeddings : list Emb)
    (use_labels : list Label) (k : Z) (chunks : list text) (i : Z)
    (chunk_results : list ChunkResult) : option (list ChunkResult) :=
  match chunks with
  | [] => Some chunk_results
  | chunk :: rest =>
      match nth_error (embed_texts [chunk] true) 0 with
      | Some query_embedding =>
          match classify_knn query_embedding use_embeddings use_labels k with
          | Some result =>
              chunk_results_loop use_embeddings use_labels k rest (i + 1)
                (chunk_results ++
                 [mkChunkResult (is_phishing result) (confidence result)
                                (neighbors result) i (preview chunk)])
          | None => None
          end
      | None => None
      end
  end.

(** [classify_with_chunking(model, content, example_embeddings,
    example_labels, k, exclude_file)] (lines 124-173) *)
Definition classify_with_chunking (content : text)
    (example_embeddings : list Emb) (example_labels : list Label) (k : Z)
    (exclude_file : option string) : option EmailVerdict :=
  match use_examples example_embeddings example_labels exclude_file with
  | None => None
  | Some (use_embeddings, use_labels) =>
      match chunk_text content CHUNK_SIZE CHUNK_OVERLAP with
      | None => None
      | Some chunks =>
          match chunk_results_loop use_embeddings use_labels k chunks 0 [] with
          | None => None
          | Some chunk_results => aggregate chunks chunk_results
          end
      end
  end.

(** *** Loading the examples ([main], lines 184-202) *)

(** [fs filepath] is [None] when [Path(filepath).exists()] is false, and
    otherwise the text [path.read_text(encoding="utf-8")] returns. *)
Variable fs : string -> option text.

(** The loop of lines 188-197. *)
Fixpoint load_loop (table : list (string * Info)) (example_texts : list text)
    (example_labels : list Label) : list text * list Label :=
  match table with
  | [] => (example_texts, example_labels)
  | (filepath, info) :: rest =>
      match fs filepath with
      | Some content =>
          load_loop rest (example_texts ++ [content])
            (example_labels ++
             [mkLabel filepath (info_is_phishing info) (info_label info)])
      | None => load_loop rest example_texts example_labels
      end
  end.

(** Lines 185-202 of [main]: the texts, the labels and the embeddings the
    classification calls of the run are given. *)
Definition main_examples : list text * list Label * list Emb :=
  let '(example_texts, example_labels) := load_loop LABELED_EXAMPLES [] [] in
  (example_texts, example_labels, embed_texts example_texts false).

(** *** Classifying the input files ([main], lines 176-260) *)

(** [str(Path(md_file))] *)
Variable path_str : string -> string.

(** The loop of lines 215-219: the identifier of the first loaded example
    that is the path of the input file, normalised or as given. *)
Fixpoint find_exclude (md_path md_file : string) (example_labels : list Label)
    : option string :=
  match example_labels with
  | [] => None
  | label :: rest =>
      if String.eqb md_path (lbl_file label)
         || String.eqb md_file (lbl_file label)
      then Some (lbl_file label)
      else find_exclude md_path md_file rest
  end.

(** The dictionary of an input file, once ["file"] and ["was_excluded"] have
    been added to what [classify_with_chunking] returned. *)
Record FileResult := mkFileResult {
  verdict : EmailVerdict;
  file : string;
  was_excluded : bool
}.

(** Lines 212-225: the body of the loop, for an input file that exists and
    has the text [content]. *)
Definition classify_file (example_embeddings : list Emb)
    (example_labels : list Label) (md_file : string) (content : text)
    : option FileResult :=
  let md_path := path_str md_file in
  let exclude_file := find_exclude md_path md_file example_labels in
  match classify_with_chunking content example_embeddings example_labels 3
                               exclude_file with
  | Some result =>
      Some (mkFileResult result md_path
              (match exclude_file with Some _ => true | None => false end))
  | None => None
  end.

(** The loop of lines 206-225: a file that does not exist is reported and
    skipped. *)
Fixpoint classify_files (example_embeddings : list Emb)
    (example_labels : list Label) (md_files : list string)
    (results : list FileResult) : option (list FileResult) :=
  match md_files with
  | [] => Some results
  | md_file :: rest =>
      match fs md_file with
      | None => classify_files example_embeddings example_labels rest results
      | Some content =>
          match classify_file example_embeddings example_labels md_file
                              content with
          | Some result =>
              classify_files example_embeddings example_labels rest
                             (results ++ [result])
          | None => None
          end
      end
  end.

(** An entry of [json_results] (lines 246-255). *)
Record JsonResult := mkJsonResult {
  json_file : string;
  json_is_phishing : bool;
  json_confidence : Q;
  json_neighbors : list Neighbor;
  json_num_chunks : Z;
  json_phishing_chunks : Z
}.

Definition json_of (r : FileResult) : JsonResult :=
  mkJsonResult (file r) (ev_is_phishing (verdict r))
               (ev_confidence (verdict r)) (ev_neighbors (verdict r))
               (num_chunks (verdict r)) (phishing_chunks (verdict r)).

(** How a run ends: [sys.exit(code)], an exception, or the end of [main]
    with the counts of the summary line and the list dumped to
    [knn_results.json]. *)
Inductive Outcome :=
  | SysExit (code : Z)
  | Raised
  | Completed (total phishing_count legitimate : Z)
              (json_results : list JsonResult).

(** [main()] with [sys.argv = argv] (lines 176-260); what it prints is not
    modelled. *)
Definition main (argv : list string) : Outcome :=
  if (len argv <? 2)%Z then SysExit 1
  else
    let '(example_texts, example_labels, example_embeddings) :=
      main_examples in
    match classify_files example_embeddings example_labels (slice_from argv 1)
                         [] with
    | None => Raised
    | Some results =>
        let phishing_count :=
          len (filter (fun r => ev_is_phishing (verdict r)) results) in
        Completed (len results) phishing_count (len results - phishing_count)
                  (map json_of results)
    end.

End Voter.

End ClassifyKnn.

(** ** [classifier.py] *)

Module Classifier.

(** Lines 27-38, in the order of the dictionary literal. *)
Definition LABELED_EXAMPLES : list (string * Info) :=
  [ ("email/sample-1.eml", mkInfo true "Banking points scam");
    ("email/sample-3.eml", mkInfo true "Advance fee fraud (419 scam)");
    ("email/sample-10.eml", mkInfo true "Fake sign-in alert");
    ("email/sample-15.eml", mkInfo true "Seed phrase theft");
    ("email/sample-4.eml", mkInfo false "Newsletter unsubscribe");
    ("email/sample-njtransit.eml", mkInfo false "NJ Transit alert");
    ("email/sample-deepgram.eml", mkInfo false "Deepgram product update");
    ("email/sample-chess.eml", mkInfo false "Chess.com notification") ].

(** The attributes of the [PhishingClassifier] singleton that hold the
    Example Store; [None] is Python's [None]. *)
Record State := mkState {
  _example_embeddings : option (list Emb);
  _example_labels : option (list Label)
}.

(** The instance [__new__] creates on its first call (lines 125-131). *)
Definition new_instance : State := mkState None None.

Section Singleton.

(** [self.model.encode(..., normalize_embeddings=True)] on one formatted
    string; on a batch it is applied to each string in turn. *)
Variable encode : text -> Emb.

(** [fs filepath] is [None] when [Path(filepath).exists()] is false, and
    otherwise the text [get_email_text(filepath)] extracts from the file. *)
Variable fs : string -> option text.

(** [self._embed(texts, is_query)] (lines 140-146) *)
Definition _embed (texts : list text) (is_query : bool) : list Emb :=
  if is_query then map (fun t => encode (format_query t)) texts
  else map (fun t => encode (format_passage t)) texts.

(** The loop of lines 156-166. *)
Fixpoint load_loop (table : list (string * Info)) (texts : list text)
    (labels : list Label) : list text * list Label :=
  match table with
  | [] => (texts, labels)
  | (filepath, info) :: rest =>
      match fs filepath with
      | Some content =>
          match content with
          | [] => load_loop rest texts labels
          | _ =>
              load_loop rest (texts ++ [slice_to content 4000])
                (labels ++
                 [mkLabel filepath (info_is_phishing info) (info_label info)])
          end
      | None => load_loop rest texts labels
      end
  end.

(** [self._load_examples()] (lines 148-174) *)
Definition _load_examples (self : State) : State :=
  match _example_embeddings self with
  | Some _ => self
  | None =>
      let '(texts, labels) := load_loop LABELED_EXAMPLES [] [] in
      match texts with
      | [] => mkState (Some []) (Some [])
      | _ => mkState (Some (_embed texts false)) (Some labels)
      end
  end.

(** Lines 186-193: the example set a call works on. *)
Definition filter_examples (example_embeddings : list Emb)
    (example_labels : list Label) (exclude_file : option string)
    : option (list Emb * list Label) :=
  match exclude_file with
  | Some f =>
      if truthy exclude_file then
        let mask :=
          map (fun l => negb (String.eqb (lbl_file l) f)) example_labels in
        match mask_select example_embeddings mask with
        | Some embeddings =>
            Some (embeddings,
                  map fst (filter snd (combine example_labels mask)))
        | None => None
        end
      else Some (example_embeddings, example_labels)
  | None => Some (example_embeddings, example_labels)
  end.

(** [self.classify(text, k, exclude_file)] (lines 176-228): the instance
    after the call, and the returned tuple. *)
Definition classify (self : State) (txt : text) (k : Z)
    (exclude_file : option string)
    : State * option (bool * Q * list Neighbor) :=
  let self := _load_examples self in
  (self,
   match _example_labels self, _example_embeddings self with
   | Some example_labels, Some example_embeddings =>
       if (len example_labels =? 0)%Z then Some (false, 0, [])
       else
         match filter_examples example_embeddings example_labels
                               exclude_file with
         | None => None
         | Some (embeddings, labels) =>
             if (len labels =? 0)%Z then Some (false, 0, [])
             else
               match nth_error (_embed [slice_to txt 4000] true) 0 with
               | Some query_emb =>
                   let similarities := matvec embeddings query_emb in
                   let top_k_idx := top_k similarities k in
                   match vote_loop similarities labels top_k_idx 0 0 [] with
                   | Some (phishing_score, legit_score, neighbors) =>
                       Some (gt phishing_score legit_score,
                             confidence_of phishing_score legit_score,
                             neighbors)
                   | None => None
                   end
               | None => None
               end
         end
   | _, _ => None
   end).

End Singleton.

(** *** Parsing, the URL rule and the command line (lines 41-118, 231-281) *)

(** What [parse_eml] reads of a part: [part.get_content_type()] and, for a
    text part, [part.get_content()]. *)
Record EmlPart := mkEmlPart {
  part_type : string;
  part_content : text
}.

(** What [parse_eml] reads of a parsed message: [msg.is_multipart()], the
    message as a part, and the parts [msg.walk()] yields. *)
Record Eml := mkEml {
  eml_is_multipart : bool;
  eml_top : EmlPart;
  eml_walk : list EmlPart
}.

(** The dictionary [classify_email] returns, with the ["file"] key [main]
    adds to it. *)
Record Signals := mkSignals {
  url_mismatch : Z;
  is_phishing : Z;
  confidence : Q;
  neighbors : list Neighbor;
  file : string
}.

(** What [main] prints: a line for an email, the closing count, or the JSON
    dump of one dictionary or of a list of them. *)
Inductive Printed :=
  | Usage
  | Line (status name nearest : string)
  | Count (phishing_count files : Z)
  | JsonOne (result : Signals)
  | JsonList (results : list Signals).

(** How [main] ends. *)
Inductive Ending :=
  | Returns
  | SysExit (code : Z)
  | Raises.

(** [s.replace("www.", "")] *)
Fixpoint remove_www (s : text) : text :=
  match s with
  | "w"%char :: "w"%char :: "w"%char :: "."%char :: rest => remove_www rest
  | c :: rest => c :: remove_www rest
  | [] => []
  end.

Section Email.

Variable encode : text -> Emb.

(** [email.message_from_binary_file] on the file at a path; [None] when no
    file is there ([open] raises, [Path(p).exists()] is false).  Opening and
    parsing a file that exists is taken to succeed. *)
Variable read_eml : string -> option Eml.

(** [BeautifulSoup(html, "html.parser").get_text(separator=" ", strip=True)]
    and [BeautifulSoup(html, "html.parser").get_text()] *)
Variable soup_text_stripped : text -> text.
Variable soup_text : text -> text.

(** For the anchors [soup.find_all("a", href=True)] of an HTML body, in
    order: [a.get("href", "")] and [a.get_text()]. *)
Variable find_links : text -> list (text * text).

(** [s.strip()] *)
Variable strip : text -> text.

(** Whether [re.match(pattern, s, re.I)] finds a match, for the URL pattern
    of line 95 and for the scheme pattern [r"^https?://"] of line 84. *)
Variable url_pattern : text -> bool.
Variable has_scheme : text -> bool.

(** [urlparse(s).hostname]: [None] when it raises, [Some None] when the URL
    has no host name. *)
Variable hostname : text -> option (option text).

(** [s.lower()] *)
Variable lower : text -> text.

(** [Path(p).name] *)
Variable path_name : string -> string.

(** The loop of lines 51-56. *)
Fixpoint parts_loop (parts : list EmlPart) (text_body html_body : text)
    : text * text :=
  match parts with
  | [] => (text_body, html_body)
  | part :: rest =>
      if String.eqb (part_type part) "text/plain"
      then parts_loop rest (text_body ++ part_content part) html_body
      else if String.eqb (part_type part) "text/html"
      then parts_loop rest text_body (html_body ++ part_content part)
      else parts_loop rest text_body html_body
  end.

(** Lines 47-64 of [parse_eml], on the parsed message:
    [(text_body, html_body)] *)
Definition bodies (msg : Eml) : text * text :=
  if eml_is_multipart msg then parts_loop (eml_walk msg) [] []
  else if String.eqb (part_type (eml_top msg)) "text/plain"
  then (part_content (eml_top msg), [])
  else if String.eqb (part_type (eml_top msg)) "text/html"
  then ([], part_content (eml_top msg))
  else ([], []).

(** [parse_eml(eml_path)] (lines 42-64); [None] when [open] raises. *)
Definition parse_eml (eml_path : string) : option (text * text) :=
  match read_eml eml_path with
  | Some msg => Some (bodies msg)
  | None => None
  end.

(** [get_email_text(eml_path)] (lines 67-77) *)
Definition get_email_text (eml_path : string) : option text :=
  match parse_eml eml_path with
  | Some (text_body, html_body) =>
      Some (match text_body with
            | _ :: _ => text_body
            | [] =>
                match html_body with
                | _ :: _ => soup_text_stripped html_body
                | [] => []
                end
            end)
  | None => None
  end.

(** [extract_domain(url_string)] (lines 81-89) *)
Definition extract_domain (url_string : text) : option text :=
  let url_string :=
    if has_scheme url_string then url_string
    else list_ascii_of_string "http://" ++ url_string in
  match hostname url_string with
  | Some (Some (c :: host)) => Some (remove_www (lower (c :: host)))
  | Some (Some []) => None
  | Some None => None
  | None => None
  end.

(** [looks_like_url(text)] (lines 92-95) *)
Definition looks_like_url (t : text) : bool := url_pattern (strip t).

(** The loop of lines 105-116; [true] when it returns [1]. *)
Fixpoint links_loop (links : list (text * text)) : bool :=
  match links with
  | [] => false
  | (href, anchor_text) :: rest =>
      let display_text := strip anchor_text in
      match display_text with
      | [] => links_loop rest
      | _ =>
          if negb (looks_like_url display_text) then links_loop rest
          else
            match extract_domain href, extract_domain display_text with
            | Some (a :: href_domain), Some (b :: display_domain) =>
                if list_eq_dec Ascii.ascii_dec (a :: href_domain)
                               (b :: display_domain)
                then links_loop rest
                else true
            | _, _ => links_loop rest
            end
      end
  end.

(** [classify_url_mismatch(html_body)] (lines 98-118) *)
Definition classify_url_mismatch (html_body : text) : Z :=
  match html_body with
  | [] => 0
  | _ => if links_loop (find_links html_body) then 1 else 0
  end.

(** The files of the store, as [_load_examples] reads them: a path that
    exists gives [get_email_text] of it. *)
Definition store_fs (filepath : string) : option text :=
  get_email_text filepath.

(** [classify_email(eml_path)] (lines 232-247), with the ["file"] key of
    line 263: the singleton after the call, and the dictionary; [None] when
    the call raises. *)
Definition classify_email (self : State) (eml_path : string)
    : State * option Signals :=
  match parse_eml eml_path with
  | None => (self, None)
  | Some (text_body, html_body) =>
      let txt :=
        match text_body with
        | _ :: _ => text_body
        | [] =>
            match html_body with
            | _ :: _ => soup_text html_body
            | [] => []
            end
        end in
      match classify encode store_fs self txt 3 None with
      | (self, Some (phishing, conf, ns)) =>
          (self,
           Some (mkSignals (classify_url_mismatch html_body)
                           (if phishing then 1 else 0) conf ns eml_path))
      | (self, None) => (self, None)
      end
  end.

(** The loop of lines 261-275: the singleton, the results, the count and
    the lines printed so far; [None] for the results when a call raised. *)
Fixpoint emails_loop (files : list string) (json_mode : bool) (self : State)
    (all_results : list Signals) (phishing_count : Z) (printed : list Printed)
    : State * option (list Signals) * Z * list Printed :=
  match files with
  | [] => (self, Some all_results, phishing_count, printed)
  | eml_path :: rest =>
      match classify_email self eml_path with
      | (self, None) => (self, None, phishing_count, printed)
      | (self, Some results) =>
          let phishing_count :=
            if (is_phishing results =? 0)%Z then phishing_count
            else (phishing_count + 1)%Z in
          let printed :=
            if json_mode then printed
            else
              printed ++
              [Line (if (is_phishing results =? 0)%Z then "LEGIT" else "PHISH")
                    (path_name eml_path)
                    (match neighbors results with
                     | n :: _ => nb_label n
                     | [] => "?"
                     end)] in
          emails_loop rest json_mode self (all_results ++ [results])
                      phishing_count printed
      end
  end.

(** [main()] with [sys.argv = argv] (lines 250-281), in a fresh process:
    what it prints and how it ends. *)
Definition main (argv : list string) : list Printed * Ending :=
  if (len argv <? 2)%Z then ([Usage], SysExit 1)
  else
    let json_mode := existsb (String.eqb "--json") argv in
    let files :=
      filter (fun f => negb (String.prefix "--" f)) (slice_from argv 1) in
    match emails_loop files json_mode new_instance [] 0 [] with
    | (_, None, _, printed) => (printed, Raises)
    | (_, Some all_results, phishing_count, printed) =>
        if json_mode then
          if (len all_results >? 1)%Z
          then (printed ++ [JsonList all_results], Returns)
          else
            match all_results with
            | first :: _ => (printed ++ [JsonOne first], Returns)
            | [] => (printed, Raises)
            end
        else if (len files >? 1)%Z
        then (printed ++ [Count phishing_count (len files)], Returns)
        else (printed, Returns)
    end.

End Email.

End Classifier.

(** ** [parse_email.py] *)

Module ParseEmail.

Definition bytes := list Byte.byte.

(** What [part.get_payload(decode=False)] gives for a part that is not a
    container: bytes, a string, or [None]. *)
Inductive Payload :=
  | PayloadBytes (b : bytes)
  | PayloadStr (s : text)
  | PayloadNone.

(** What [extract_content] reads of a part: [part.get_content_type()],
    [part.get("Content-Transfer-Encoding", "")] and the payload. *)
Record Part := mkPart {
  content_type : string;
  transfer_encoding : string;
  payload : Payload
}.

(** What the script reads of a parsed message: [msg.is_multipart()], the
    message as a part, the parts [msg.walk()] yields, and
    [msg.get(header, "")]. *)
Record Message := mkMessage {
  is_multipart : bool;
  top : Part;
  walk : list Part;
  get : string -> text
}.

(** How a run ends: the files written, in order, and the status given to
    [sys.exit]. *)
Record Run := mkRun {
  written : list (string * text);
  status : Z
}.

Section Script.

(** [base64.b64decode] and [quopri.decodestring]; [None] when they raise. *)
Variable b64decode : bytes -> option bytes.
Variable quopri_decodestring : bytes -> option bytes.

(** [b.decode("utf-8", errors="replace")] and [s.encode()] *)
Variable utf8_decode : bytes -> text.
Variable utf8_encode : text -> bytes.

(** [s.lower()] on a header value *)
Variable lower : string -> string.

(** [html2text.HTML2Text().handle(html)] with the settings of lines 74-77 *)
Variable html2text : text -> text.

(** [email.message_from_binary_file] on the file at a path,
    [Path(p).exists()] and [Path(p).with_suffix(".md")] *)
Variable read_message : string -> Message.
Variable path_exists : string -> bool.
Variable with_suffix_md : string -> string.

(** [decode_payload(payload, encoding)] (lines 14-29), on the bytes
    [extract_content] always gives it. *)
Definition decode_payload (payload : bytes) (encoding : string) : text :=
  if String.eqb encoding "base64" then
    match b64decode payload with
    | Some decoded => utf8_decode decoded
    | None => utf8_decode payload
    end
  else if String.eqb encoding "quoted-printable" then
    match quopri_decodestring payload with
    | Some decoded => utf8_decode decoded
    | None => utf8_decode payload
    end
  else utf8_decode payload.

(** The argument lines 44-47 (and 50-53, 59-62) give to [decode_payload]:
    [payload] when it is bytes, otherwise
    [payload.encode() if payload else b""]. *)
Definition payload_bytes (p : Payload) : bytes :=
  match p with
  | PayloadBytes b => b
  | PayloadStr [] => []
  | PayloadStr s => utf8_encode s
  | PayloadNone => []
  end.

Definition decode_part (part : Part) : text :=
  decode_payload (payload_bytes (payload part))
                 (lower (transfer_encoding part)).

(** The loop of lines 38-53. *)
Fixpoint walk_loop (parts : list Part) (html_content text_content : option text)
    : option text * option text :=
  match parts with
  | [] => (html_content, text_content)
  | part :: rest =>
      if String.eqb (content_type part) "text/html" then
        walk_loop rest (Some (decode_part part)) text_content
      else if String.eqb (content_type part) "text/plain"
              && match text_content with None => true | Some _ => false end
      then walk_loop rest html_content (Some (decode_part part))
      else walk_loop rest html_content text_content
  end.

(** [extract_content(msg)] (lines 32-69): [(html_content, text_content)] *)
Definition extract_content (msg : Message) : option text * option text :=
  if is_multipart msg then walk_loop (walk msg) None None
  else
    let decoded := decode_part (top msg) in
    if String.eqb (content_type (top msg)) "text/html"
    then (Some decoded, None)
    else (None, Some decoded).

(** The loop of lines 87-91. *)
Fixpoint headers_loop (names : list string) (msg : Message)
    (headers : list text) : list text :=
  match names with
  | [] => headers
  | header :: rest =>
      match get msg header with
      | [] => headers_loop rest msg headers
      | value =>
          headers_loop rest msg
            (headers ++ [list_ascii_of_string ("**" ++ header ++ ":** ")
                         ++ value])
      end
  end.

(** ["\n".join(headers)] *)
Fixpoint join_lines (lines : list text) : text :=
  match lines with
  | [] => []
  | [l] => l
  | l :: rest => l ++ list_ascii_of_string newline ++ join_lines rest
  end.

Definition title : text :=
  list_ascii_of_string ("# Email Content" ++ newline ++ newline).

Definition rule : text :=
  list_ascii_of_string (newline ++ newline ++ "---" ++ newline ++ newline).

(** Lines 86-105 of [parse_email_to_markdown], on the parsed message;
    [None] is Python's [None]. *)
Definition markdown_of (msg : Message) : option text :=
  let headers := headers_loop ["From"; "To"; "Subject"; "Date"] msg [] in
  let header_section := join_lines headers in
  let '(html_content, text_content) := extract_content msg in
  let body :=
    match html_content with
    | Some (c :: html) => Some (html2text (c :: html))
    | _ =>
        match text_content with
        | Some (c :: t) => Some (c :: t)
        | _ => None
        end
    end in
  match body with
  | Some body => Some (title ++ header_section ++ rule ++ body)
  | None => None
  end.

(** [parse_email_to_markdown(eml_path)] (lines 81-105) *)
Definition parse_email_to_markdown (eml_path : string) : option text :=
  markdown_of (read_message eml_path).

(** The loop of lines 114-130. *)
Fixpoint main_loop (eml_files : list string) (failed : bool)
    (written : list (string * text)) : bool * list (string * text) :=
  match eml_files with
  | [] => (failed, written)
  | eml_file :: rest =>
      if negb (path_exists eml_file) then main_loop rest true written
      else
        match parse_email_to_markdown eml_file with
        | None => main_loop rest true written
        | Some markdown =>
            main_loop rest failed
                      (written ++ [(with_suffix_md eml_file, markdown)])
        end
  end.

(** [main()] with [sys.argv = argv] (lines 108-132); what it prints is not
    modelled. *)
Definition main (argv : list string) : Run :=
  if (len argv <? 2)%Z then mkRun [] 1
  else
    let '(failed, written) := main_loop (slice_from argv 1) false [] in
    mkRun written (if failed then 1 else 0).

End Script.

End ParseEmail.

(** ** Vocabulary of the statements *)

(** The number of windows [chunk_text] cuts a text of [l] characters into,
    when the text is longer than one chunk. *)
Definition window_count (l chunk_size overlap : Z) : nat :=
  S (Z.to_nat ((l - overlap - 1) / (chunk_size - overlap))).

(** The order [insert_by] maintains. *)
Definition by_value (x y : nat * Q) : Prop := snd x <= snd y.

(** The neighbour the voting loop appends for index [idx]. *)
Definition neighbor_of (similarities : list Q) (labels : list Label)
    (idx : nat) : Neighbor :=
  let lab := nth idx labels (mkLabel "" false "") in
  mkNeighbor (lbl_file lab) (lbl_label lab) (nth idx similarities 0)
             (lbl_is_phishing lab).

(** A neighbour list in the order the specification asks for: no entry is
    more similar than an entry before it. *)
Definition descending (ns : list Neighbor) : Prop :=
  StronglySorted (fun a b => nb_similarity b <= nb_similarity a) ns.

(** A cache the singleton can hold: nothing loaded yet, or as many
    embeddings as labels. *)
Definition store_wf (st : Classifier.State) : Prop :=
  match Classifier._example_embeddings st with
  | None => True
  | Some embeddings =>
      match Classifier._example_labels st with
      | Some labels => List.length embeddings = List.length labels
      | None => False
      end
  end.

(** [lab] and its text [t] were loaded by [classifier.py] from an entry of
    [table] whose file exists and has text. *)
Definition loaded_from (fs : string -> option text)
    (table : list (string * Info)) (t : text) (lab : Label) : Prop :=
  exists info content,
    In (lbl_file lab, info) table /\
    lbl_is_phishing lab = info_is_phishing info /\
    lbl_label lab = info_label info /\
    fs (lbl_file lab) = Some content /\
    content <> [] /\
    t = slice_to content 4000.

(** The labels that survive the exclusion of [f]. *)
Definition keep (f : string) (lab : Label) : bool :=
  negb (String.eqb (lbl_file lab) f).

(** [cr] is the verdict of the voter on [chunk], with the preview
    [classify_with_chunking] adds to it. *)
Definition verdict_of_chunk (encode : text -> Emb) (cosine : Emb -> Emb -> Q)
    (use_embeddings : list Emb) (use_labels : list Label) (k : Z)
    (chunk : text) (cr : ClassifyKnn.ChunkResult) : Prop :=
  exists v,
    ClassifyKnn.classify_knn cosine (encode (format_query chunk))
                             use_embeddings use_labels k = Some v /\
    ClassifyKnn.cr_is_phishing cr = ClassifyKnn.is_phishing v /\
    ClassifyKnn.cr_confidence cr = ClassifyKnn.confidence v /\
    ClassifyKnn.cr_neighbors cr = ClassifyKnn.neighbors v /\
    ClassifyKnn.chunk_preview cr = ClassifyKnn.preview chunk.

(** [chunks[0] + "".join(c[overlap:] for c in chunks[1:])]: the chunks put
    back together, each chunk after the first without the characters it
    repeats. *)
Definition reassemble (overlap : Z) (chunks : list text) : text :=
  match chunks with
  | [] => []
  | c :: rest => c ++ List.concat (map (fun c' => slice_from c' overlap) rest)
  end.

(** The label both loaders build from an entry of [LABELED_EXAMPLES]. *)
Definition label_of_entry (entry : string * Info) : Label :=
  mkLabel (fst entry) (info_is_phishing (snd entry)) (info_label (snd entry)).

(** An entry whose file exists; an entry whose file exists and has text;
    the text of an entry's file. *)
Definition exists_file (fs : string -> option text) (entry : string * Info)
    : bool :=
  match fs (fst entry) with Some _ => true | None => false end.

Definition has_text (fs : string -> option text) (entry : string * Info)
    : bool :=
  match fs (fst entry) with Some (_ :: _) => true | _ => false end.

Definition text_of (fs : string -> option text) (entry : string * Info)
    : text :=
  match fs (fst entry) with Some content => content | None => [] end.

(** The last element of a list, if any. *)
Definition last_error {A} (l : list A) : option A := hd_error (rev l).

(** Python's truth value of an optional string: [None] and [""] are false. *)
Definition nonempty (t : option text) : bool :=
  match t with Some (_ :: _) => true | _ => false end.

(** The parts [extract_content] takes for HTML and for plain text. *)
Definition is_html (part : ParseEmail.Part) : bool :=
  String.eqb (ParseEmail.content_type part) "text/html".

Definition is_plain (part : ParseEmail.Part) : bool :=
  String.eqb (ParseEmail.content_type part) "text/plain".

(** The line [headers_loop] adds for a header that has a value. *)
Definition header_line (msg : ParseEmail.Message) (header : string) : text :=
  list_ascii_of_string ("**" ++ header ++ ":** ") ++ ParseEmail.get msg header.

(** The input files [parse_email.py] converts: those that exist and have
    HTML or text content. *)
Definition converts (path_exists : string -> bool)
    (parse : string -> option text) (eml_file : string) : bool :=
  path_exists eml_file
  && match parse eml_file with Some _ => true | None => false end.

(** A link [classify_url_mismatch] counts as deceptive: its text, stripped,
    is not empty and looks like a URL, both domains are found and not empty,
    and they differ. *)
Definition deceptive (strip : text -> text) (looks_like_url : text -> bool)
    (extract_domain : text -> option text) (link : text * text) : Prop :=
  strip (snd link) <> [] /\
  looks_like_url (strip (snd link)) = true /\
  exists href_domain display_domain,
    extract_domain (fst link) = Some href_domain /\
    extract_domain (strip (snd link)) = Some display_domain /\
    href_domain <> [] /\ display_domain <> [] /\
    href_domain <> display_domain.

(** The parts [parse_eml] takes for plain text and for HTML. *)
Definition eml_plain (part : Classifier.EmlPart) : bool :=
  String.eqb (Classifier.part_type part) "text/plain".

Definition eml_html (part : Classifier.EmlPart) : bool :=
  String.eqb (Classifier.part_type part) "text/html".

(** The input files of [classifier.py]: the arguments after the program name
    that do not start with ["--"]. *)
Definition eml_files (argv : list string) : list string :=
  filter (fun f => negb (String.prefix "--" f)) (tl argv).

(** The line [main] of [classifier.py] prints for a result. *)
Definition line_of (path_name : string -> string) (r : Classifier.Signals)
    : Classifier.Printed :=
  Classifier.Line
    (if (Classifier.is_phishing r =? 0)%Z then "LEGIT" else "PHISH")
    (path_name (Classifier.file r))
    (match Classifier.neighbors r with n :: _ => nb_label n | [] => "?" end).

(** ** Concrete inputs *)

Module Samples.

(** Unit vectors of dimension two. *)
Definition east : Emb := [1; 0].
Definition west : Emb := [-1; 0].

(** An encoder that sends a text ending in ["-"] to [west] and every other
    text to [east]. *)
Definition encode_sign (t : text) : Emb :=
  match rev t with
  | "-"%char :: _ => west
  | _ => east
  end.

(** An encoder that keeps only the length of what it is given. *)
Definition encode_len (t : text) : Emb := [inject_Z (len t)].

Definition label_a : Label := mkLabel "a.md" true "scam A".
Definition label_b : Label := mkLabel "b.md" true "scam B".
Definition label_c : Label := mkLabel "c.md" false "newsletter C".

(** Two phishing examples that point the way of the query, one legitimate
    example that points the opposite way. *)
Definition embeddings_abc : list Emb := [east; east; west].
Definition labels_abc : list Label := [label_a; label_b; label_c].

(** One phishing example and one legitimate example, opposite to each
    other. *)
Definition embeddings_ac : list Emb := [east; west].
Definition labels_ac : list Label := [label_a; label_c].

(** Examples that all have a non-negative similarity to [east]: a phishing
    example at [east], a legitimate one orthogonal to it.  On unit vectors
    the cosine is the dot product, so [dot] stands for the library's
    [cosine_similarity] on the samples below. *)
Definition embeddings_pos : list Emb := [east; [0; 1]].
Definition labels_pos : list Label := [label_a; label_c].

(** Three examples whose similarities to [east] are [1], [0] and [-1]. *)
Definition embeddings_enw : list Emb := [east; [0; 1]; west].

Definition hello : text := list_ascii_of_string "hello".

(** Files for [classifier.py]: two phishing examples with ordinary text, one
    legitimate example whose text ends in ["-"]; nothing else exists. *)
Definition fs_eml (filepath : string) : option text :=
  if String.eqb filepath "email/sample-1.eml"
  then Some (list_ascii_of_string "points")
  else if String.eqb filepath "email/sample-3.eml"
  then Some (list_ascii_of_string "fee")
  else if String.eqb filepath "email/sample-4.eml"
  then Some (list_ascii_of_string "news-")
  else None.

(** Files for [classifier.py]: a phishing example with ordinary text and the
    legitimate example, whose text ends in ["-"]; nothing else exists. *)
Definition fs_two_eml (filepath : string) : option text :=
  if String.eqb filepath "email/sample-1.eml"
  then Some (list_ascii_of_string "points")
  else if String.eqb filepath "email/sample-4.eml"
  then Some (list_ascii_of_string "news-")
  else None.

(** Files for [classifier.py]: a single example exists. *)
Definition fs_one (filepath : string) : option text :=
  if String.eqb filepath "email/sample-1.eml"
  then Some (list_ascii_of_string "points")
  else None.

(** No file exists. *)
Definition fs_none (filepath : string) : option text := None.

(** Files for [classify_knn.py]: the input file [mail.md] and nothing else
    (no labelled sample). *)
Definition fs_mail (filepath : string) : option text :=
  if String.eqb filepath "mail.md"
  then Some (list_ascii_of_string "hello") else None.

(** Files for [classify_knn.py]: an empty file and a file of 4001
    characters. *)
Definition fs_md (filepath : string) : option text :=
  if String.eqb filepath "email/sample-1.md" then Some []
  else if String.eqb filepath "email/sample-2.md"
  then Some (repeat "a"%char 4001)
  else None.

Definition text_2500 : text := repeat "a"%char 2500.

(** A unit vector orthogonal to [east], and an encoder that sends a text
    ending in ["-"] to it and every other text to [east]. *)
Definition north : Emb := [0; 1].

Definition encode_turn (t : text) : Emb :=
  match rev t with
  | "-"%char :: _ => north
  | _ => east
  end.

(** A legitimate example at [east] and a phishing example at [north]. *)
Definition embeddings_ca : list Emb := [east; north].
Definition labels_ca : list Label := [label_c; label_a].

(** A text of two chunks: the first ends in ["a"], the second in ["-"]. *)
Definition text_1500 : text := repeat "a"%char 1000 ++ repeat "-"%char 500.

(** Files for [classify_knn.py]: a phishing sample and the legitimate
    sample, whose text ends in ["-"]; nothing else exists. *)
Definition fs_two_md (filepath : string) : option text :=
  if String.eqb filepath "email/sample-1.md"
  then Some (list_ascii_of_string "points")
  else if String.eqb filepath "email/sample-4.md"
  then Some (list_ascii_of_string "news-")
  else None.

(** Paths that [Path] leaves as they are. *)
Definition same_path (p : string) : string := p.

(** Stand-ins for the codecs of [parse_email.py]: base64 that always
    fails, quoted-printable that changes nothing, and one byte per
    character. *)
Definition no_base64 (b : ParseEmail.bytes) : option ParseEmail.bytes := None.
Definition plain_quopri (b : ParseEmail.bytes) : option ParseEmail.bytes :=
  Some b.
Definition latin1_decode (b : ParseEmail.bytes) : text :=
  map ascii_of_byte b.
Definition latin1_encode (t : text) : ParseEmail.bytes :=
  map byte_of_ascii t.
Definition same_text (t : text) : text := t.

Definition part_of (content_type : string) (body : string) : ParseEmail.Part :=
  ParseEmail.mkPart content_type "7bit"
    (ParseEmail.PayloadStr (list_ascii_of_string body)).

(** A multipart message with two HTML parts and two plain-text parts, and
    only a subject. *)
Definition message_4 : ParseEmail.Message :=
  ParseEmail.mkMessage true (part_of "multipart/mixed" "")
    [part_of "multipart/mixed" ""; part_of "text/html" "<b>1</b>";
     part_of "text/plain" "one"; part_of "text/plain" "two";
     part_of "text/html" "<i>2</i>"]
    (fun header => if String.eqb header "Subject"
                   then list_ascii_of_string "Hi" else []).

(** A message without content. *)
Definition message_0 : ParseEmail.Message :=
  ParseEmail.mkMessage true (part_of "multipart/mixed" "")
    [part_of "multipart/mixed" ""] (fun header => []).

(** Input files for [parse_email.py]: [a.eml] holds [message_4], [b.eml]
    holds [message_0], nothing else exists. *)
Definition read_message_ab (p : string) : ParseEmail.Message :=
  if String.eqb p "a.eml" then message_4 else message_0.
Definition exists_ab (p : string) : bool :=
  String.eqb p "a.eml" || String.eqb p "b.eml".
Definition md_suffix (p : string) : string := p ++ ".md".

(** Input files for [classifier.py]: [x.eml] and [y.eml] hold a plain-text
    message, nothing else exists (no labelled sample either). *)
Definition read_eml_xy (p : string) : option Classifier.Eml :=
  if String.eqb p "x.eml" || String.eqb p "y.eml"
  then Some (Classifier.mkEml false
               (Classifier.mkEmlPart "text/plain" hello) [])
  else None.

(** Stand-ins for the HTML and URL helpers: no link, nothing looks like a
    URL, no host name. *)
Definition no_links (html : text) : list (text * text) := [].
Definition never (t : text) : bool := false.
Definition no_hostname (t : text) : option (option text) := None.

(** A multipart [.eml] message with two plain-text parts around an HTML
    part. *)
Definition eml_3 : Classifier.Eml :=
  Classifier.mkEml true
    (Classifier.mkEmlPart "multipart/alternative" [])
    [Classifier.mkEmlPart "multipart/alternative" [];
     Classifier.mkEmlPart "text/plain" (list_ascii_of_string "one ");
     Classifier.mkEmlPart "text/html" (list_ascii_of_string "<p>two</p>");
     Classifier.mkEmlPart "text/plain" (list_ascii_of_string "three")].

(** Two texts of 4001 characters that differ in the last one only. *)
Definition text_4001_dash : text := repeat "a"%char 4000 ++ ["-"%char].
Definition text_4001_b : text := repeat "a"%char 4000 ++ ["b"%char].

(** Stand-ins for the HTML and URL helpers: a body with one link, whose
    text is a bank's address and whose target is elsewhere; everything looks
    like a URL and has a scheme, and the host name is the whole string. *)
Definition one_link (html : text) : list (text * text) :=
  [(list_ascii_of_string "http://evil.example",
    list_ascii_of_string "http://bank.example")].
Definition always (t : text) : bool := true.
Definition whole_hostname (t : text) : option (option text) := Some (Some t).

End Samples.

Import Samples.

(** * Properties *)

Import ClassifyKnn.

(** ** Python slices *)

Section PySlices.
Context {A : Type}.

Lemma len_nonneg (l : list A) : (0 <= len l)%Z.
Proof. unfold len; lia. Qed.

Lemma slice_index_inside (l : list A) (i : Z) :
  (0 <= i <= len l)%Z -> slice_index l i = i.
Proof.
  intros H. unfold slice_index.
  destruct (Z.ltb_spec i 0); lia.
Qed.

Lemma slice_index_beyond (l : list A) (i : Z) :
  (len l <= i)%Z -> slice_index l i = len l.
Proof.
  intros H. unfold slice_index. pose proof (len_nonneg l).
  destruct (Z.ltb_spec i 0); lia.
Qed.

Lemma slice_index_range (l : list A) (i : Z) :
  (0 <= slice_index l i <= len l)%Z.
Proof.
  unfold slice_index. pose proof (len_nonneg l).
  destruct (Z.ltb_spec i 0); lia.
Qed.

Lemma length_slice (l : list A) (a b : Z) :
  (0 <= a <= b)%Z ->
  len (slice l a b) = (Z.min b (len l) - Z.min a (len l))%Z.
Proof.
  intros H. unfold slice, len, slice_index.
  destruct (Z.ltb_spec a 0); [lia|].
  destruct (Z.ltb_spec b 0); [lia|].
  rewrite length_firstn, length_skipn. unfold len. lia.
Qed.

(** Position [i] of the sequence is position [i - a] of a slice [l[a:b]]
    that contains it. *)
Lemma nth_error_slice (l : list A) (a b : Z) (i : nat) :
  (0 <= a <= Z.of_nat i)%Z -> (Z.of_nat i < b)%Z -> (i < List.length l)%nat ->
  nth_error (slice l a b) (i - Z.to_nat a) = nth_error l i.
Proof.
  intros Ha Hb Hi. unfold slice.
  pose proof (slice_index_range l b) as Rb.
  assert (Ea : slice_index l a = a)
    by (apply slice_index_inside; unfold len; lia).
  assert (Eb : (Z.of_nat i < slice_index l b)%Z).
  { unfold slice_index, len. destruct (Z.ltb_spec b 0); lia. }
  rewrite Ea, nth_error_firstn.
  destruct (Nat.ltb_spec (i - Z.to_nat a) (Z.to_nat (slice_index l b - a))); [|lia].
  rewrite nth_error_skipn. f_equal. lia.
Qed.

Lemma slice_whole_from (l : list A) (a b : Z) :
  (0 <= a)%Z -> (len l <= b)%Z -> slice l a b = slice_from l a.
Proof.
  intros Ha Hb. unfold slice, slice_from.
  rewrite (slice_index_beyond l Hb).
  apply firstn_all2. rewrite length_skipn.
  pose proof (slice_index_range l a). unfold len in *. lia.
Qed.

End PySlices.

(** ** The chunker *)

Section ChunkLoop.
Variable txt : text.
Variables chunk_size overlap : Z.

Lemma chunk_loop_step (fuel : nat) (start : Z) (chunks : list text) :
  chunk_loop (S fuel) txt chunk_size overlap start chunks =
  if (start <? len txt)%Z then
    if (start + chunk_size - overlap + overlap >=? len txt)%Z
    then Some (chunks ++ [slice txt start (start + chunk_size)])
    else chunk_loop fuel txt chunk_size overlap (start + chunk_size - overlap)
                    (chunks ++ [slice txt start (start + chunk_size)])
  else Some chunks.
Proof. reflexivity. Qed.

(** With a window that advances, the loop stops before its fuel is used up. *)
Lemma chunk_loop_terminates :
  (overlap < chunk_size)%Z ->
  forall fuel start chunks,
    (0 < fuel)%nat -> (len txt - start < Z.of_nat fuel)%Z ->
    chunk_loop fuel txt chunk_size overlap start chunks <> None.
Proof.
  intros Hstep. induction fuel as [|fuel IH]; intros start chunks Hpos Hfuel.
  - lia.
  - rewrite chunk_loop_step.
    destruct (Z.ltb_spec start (len txt)); [|discriminate].
    destruct (start + chunk_size - overlap + overlap >=? len txt)%Z;
      [discriminate|].
    apply IH; lia.
Qed.

(** With a window that does not advance, no amount of fuel is enough. *)
Lemma chunk_loop_diverges :
  (chunk_size <= overlap)%Z -> (chunk_size < len txt)%Z -> (0 < len txt)%Z ->
  forall fuel start chunks,
    (start <= 0)%Z ->
    chunk_loop fuel txt chunk_size overlap start chunks = None.
Proof.
  intros Hstep Hlong Hpos. induction fuel as [|fuel IH]; intros start chunks Hs.
  - reflexivity.
  - rewrite chunk_loop_step.
    destruct (Z.ltb_spec start (len txt)); [|lia].
    destruct (Z.geb_spec (start + chunk_size - overlap + overlap) (len txt));
      [lia|].
    apply IH. lia.
Qed.

(** The loop emits one window per advance, and stops at the first advance
    after which [start + overlap >= len(text)]. *)
Lemma chunk_loop_windows :
  (0 <= overlap < chunk_size)%Z ->
  forall n fuel start chunks,
    (0 <= start)%Z ->
    (start + Z.of_nat n * (chunk_size - overlap) + overlap < len txt)%Z ->
    (len txt <= start + Z.of_nat (S n) * (chunk_size - overlap) + overlap)%Z ->
    (S n <= fuel)%nat ->
    chunk_loop fuel txt chunk_size overlap start chunks =
    Some (chunks ++ windows txt chunk_size (chunk_size - overlap) start (S n)).
Proof.
  intros Hov. induction n as [|n IH]; intros fuel start chunks H0 Hlt Hge Hfuel;
    (destruct fuel as [|fuel]; [lia|]); rewrite chunk_loop_step.
  - destruct (Z.ltb_spec start (len txt)); [|lia].
    destruct (Z.geb_spec (start + chunk_size - overlap + overlap) (len txt));
      [reflexivity|lia].
  - destruct (Z.ltb_spec start (len txt)); [|nia].
    destruct (Z.geb_spec (start + chunk_size - overlap + overlap) (len txt));
      [nia|].
    replace (start + chunk_size - overlap)%Z
      with (start + (chunk_size - overlap))%Z by lia.
    rewrite IH; try lia; try nia.
    rewrite <- app_assoc. reflexivity.
Qed.

End ChunkLoop.

Lemma chunk_text_short (txt : text) (chunk_size overlap : Z) :
  (len txt <= chunk_size)%Z -> chunk_text txt chunk_size overlap = Some [txt].
Proof.
  intros H. unfold chunk_text. destruct (Z.leb_spec (len txt) chunk_size); [reflexivity|lia].
Qed.

Lemma chunk_text_long (txt : text) (chunk_size overlap : Z) :
  (0 <= overlap < chunk_size)%Z -> (chunk_size < len txt)%Z ->
  chunk_text txt chunk_size overlap =
  Some (windows txt chunk_size (chunk_size - overlap) 0
                (window_count (len txt) chunk_size overlap)).
Proof.
  intros Hov Hlong. unfold chunk_text, window_count.
  destruct (Z.leb_spec (len txt) chunk_size); [lia|].
  set (step := (chunk_size - overlap)%Z).
  set (m := ((len txt - overlap - 1) / step)%Z).
  assert (Hstep : (0 < step)%Z) by (unfold step; lia).
  assert (Hm0 : (0 <= m)%Z) by (apply Z.div_pos; lia).
  assert (Hm1 : (m * step <= len txt - overlap - 1)%Z).
  { unfold m. rewrite Z.mul_comm. apply Z.mul_div_le; lia. }
  assert (Hm2 : (len txt - overlap - 1 < (m + 1) * step)%Z).
  { unfold m. rewrite Z.mul_comm.
    replace ((len txt - overlap - 1) / step + 1)%Z
      with (Z.succ ((len txt - overlap - 1) / step)) by lia.
    apply Z.mul_succ_div_gt; lia. }
  rewrite (@chunk_loop_windows txt chunk_size overlap Hov (Z.to_nat m));
    fold step; try reflexivity; try lia.
  unfold len in *. nia.
Qed.

Lemma chunk_text_terminates (txt : text) (chunk_size overlap : Z) :
  (overlap < chunk_size)%Z -> chunk_text txt chunk_size overlap <> None.
Proof.
  intros H. unfold chunk_text.
  destruct (len txt <=? chunk_size)%Z; [discriminate|].
  apply chunk_loop_terminates; [assumption|lia|]. unfold len. lia.
Qed.

Lemma chunk_text_diverges (txt : text) (chunk_size overlap : Z) :
  (chunk_size <= overlap)%Z -> (chunk_size < len txt)%Z -> (0 < len txt)%Z ->
  chunk_text txt chunk_size overlap = None.
Proof.
  intros H1 H2 H3. unfold chunk_text.
  destruct (Z.leb_spec (len txt) chunk_size); [lia|].
  apply chunk_loop_diverges; try assumption. lia.
Qed.

Lemma nth_error_windows (txt : text) (chunk_size step : Z) :
  forall n start j,
    (j < n)%nat ->
    nth_error (windows txt chunk_size step start n) j =
    Some (slice txt (start + Z.of_nat j * step)
                    (start + Z.of_nat j * step + chunk_size)).
Proof.
  induction n as [|n IH]; intros start j Hj; [lia|].
  destruct j as [|j]; simpl windows; simpl nth_error.
  - do 2 f_equal; lia.
  - rewrite IH by lia. do 2 f_equal; lia.
Qed.

Lemma length_windows (txt : text) (chunk_size step start : Z) (n : nat) :
  List.length (windows txt chunk_size step start n) = n.
Proof.
  revert start. induction n as [|n IH]; intros start; simpl; [reflexivity|].
  now rewrite IH.
Qed.

Lemma chunk_loop_grows (txt : text) (chunk_size overlap : Z) :
  forall fuel start chunks,
    chunks <> [] ->
    chunk_loop fuel txt chunk_size overlap start chunks <> Some [].
Proof.
  induction fuel as [|fuel IH]; intros start chunks Hne; [discriminate|].
  rewrite chunk_loop_step.
  destruct (start <? len txt)%Z.
  - destruct (start + chunk_size - overlap + overlap >=? len txt)%Z.
    + intros H. injection H as H. now destruct chunks.
    + apply IH. now destruct chunks.
  - intros H. injection H as H. contradiction.
Qed.

(** [chunk_text] never returns an empty list of chunks. *)
Lemma chunk_text_nonempty (txt : text) (chunk_size overlap : Z) :
  (0 <= chunk_size)%Z -> chunk_text txt chunk_size overlap <> Some [].
Proof.
  intros Hcs. unfold chunk_text.
  destruct (Z.leb_spec (len txt) chunk_size); [discriminate|].
  rewrite chunk_loop_step.
  destruct (Z.ltb_spec 0 (len txt)); [|lia].
  destruct (0 + chunk_size - overlap + overlap >=? len txt)%Z;
    [discriminate|].
  apply chunk_loop_grows. discriminate.
Qed.


(** Every position of the text lies in the window that starts at the
    largest multiple of the step below it, or in the last window. *)
Lemma chunk_text_covers (txt : text) (chunk_size overlap : Z) :
  (0 <= overlap < chunk_size)%Z ->
  exists chunks,
    chunk_text txt chunk_size overlap = Some chunks /\
    forall i ch,
      nth_error txt i = Some ch ->
      exists j chunk off,
        nth_error chunks j = Some chunk /\
        nth_error chunk off = Some ch /\
        i = (j * Z.to_nat (chunk_size - overlap) + off)%nat.
Proof.
  intros Hov.
  destruct (Z.leb_spec (len txt) chunk_size) as [Hshort|Hlong].
  - exists [txt]. split; [now apply chunk_text_short|].
    intros i ch Hi. exists 0%nat, txt, i.
    split; [reflexivity|split; [assumption|lia]].
  - eexists. split; [now apply chunk_text_long|].
    intros i ch Hi.
    assert (Hlen : (i < List.length txt)%nat)
      by (apply nth_error_Some; congruence).
    unfold window_count.
    set (step := (chunk_size - overlap)%Z).
    set (m := ((len txt - overlap - 1) / step)%Z).
    assert (Hstep : (0 < step)%Z) by (unfold step; lia).
    assert (Hm0 : (0 <= m)%Z) by (apply Z.div_pos; lia).
    assert (Hm2 : (len txt - overlap - 1 < (m + 1) * step)%Z).
    { unfold m. rewrite Z.mul_comm.
      replace ((len txt - overlap - 1) / step + 1)%Z
        with (Z.succ ((len txt - overlap - 1) / step)) by lia.
      apply Z.mul_succ_div_gt; lia. }
    set (q := (Z.of_nat i / step)%Z).
    assert (Hq0 : (0 <= q)%Z) by (apply Z.div_pos; lia).
    assert (Hq1 : (q * step <= Z.of_nat i)%Z).
    { unfold q. rewrite Z.mul_comm. apply Z.mul_div_le; lia. }
    assert (Hq2 : (Z.of_nat i < (q + 1) * step)%Z).
    { unfold q. rewrite Z.mul_comm.
      replace (Z.of_nat i / step + 1)%Z with (Z.succ (Z.of_nat i / step)) by lia.
      apply Z.mul_succ_div_gt; lia. }
    set (j := Z.to_nat (Z.min q m)).
    assert (Hj : Z.of_nat j = Z.min q m) by (unfold j; lia).
    exists j, (slice txt (0 + Z.of_nat j * step) (0 + Z.of_nat j * step + chunk_size)),
           (i - Z.to_nat (0 + Z.of_nat j * step))%nat.
    split; [apply nth_error_windows; lia|].
    assert (Hle : (Z.of_nat j * step <= Z.of_nat i)%Z) by nia.
    split.
    + rewrite nth_error_slice; try assumption; try lia.
      unfold len, step in *. nia.
    + rewrite Z.add_0_l, Z2Nat.inj_mul, Nat2Z.id by lia. 
      assert (Z.to_nat (Z.of_nat j * step) <= i)%nat by lia.
      rewrite Z2Nat.inj_mul, Nat2Z.id in H by lia. lia.
Qed.

(** C6.  Chunking with the script's settings loses no character: whatever
    the input text, [chunk_text] returns chunks, and the character at every
    position [i] of the input is found in one of them, at the offset that
    [i] has from the chunk's start (chunk [j] starts at position [800 * j]). *)
Theorem chunk_text_loses_no_character (txt : text) :
  exists chunks,
    chunk_text txt CHUNK_SIZE CHUNK_OVERLAP = Some chunks /\
    forall i ch,
      nth_error txt i = Some ch ->
      exists j chunk off,
        nth_error chunks j = Some chunk /\
        nth_error chunk off = Some ch /\
        i = (j * 800 + off)%nat.
Proof.
  destruct (@chunk_text_covers txt CHUNK_SIZE CHUNK_OVERLAP)
    as (chunks & Hc & Hcov); [unfold CHUNK_SIZE, CHUNK_OVERLAP; lia|].
  exists chunks. split; [assumption|].
  intros i ch Hi. destruct (Hcov i ch Hi) as (j & chunk & off & H1 & H2 & H3).
  exists j, chunk, off. split; [assumption|split; [assumption|exact H3]].
Qed.

(** C7.  On a text of 2500 characters, with chunks of 1000 characters
    overlapping by 200, [chunk_text] returns exactly three chunks, the slices
    that start at 0, 800 and 1600 (of 1000, 1000 and 900 characters).  The
    loop stops right after the window it has just emitted as soon as the
    advanced start satisfies [start + overlap >= len(text)], and emits
    nothing for what follows that start; otherwise it goes on from the
    advanced start. *)
Theorem chunk_text_2500 (txt : text) :
  len txt = 2500%Z ->
  chunk_text txt 1000 200 =
    Some [slice txt 0 1000; slice txt 800 1800; slice txt 1600 2600] /\
  map len [slice txt 0 1000; slice txt 800 1800; slice txt 1600 2600] =
    [1000; 1000; 900]%Z /\
  forall fuel start chunks,
    (0 <= start < len txt)%Z ->
    chunk_loop (S fuel) txt 1000 200 start chunks =
    if (start + 800 + 200 >=? len txt)%Z
    then Some (chunks ++ [slice txt start (start + 1000)])
    else chunk_loop fuel txt 1000 200 (start + 800)
                    (chunks ++ [slice txt start (start + 1000)]).
Proof.
  intros Hlen. split; [|split].
  - rewrite chunk_text_long by lia. rewrite Hlen. reflexivity.
  - simpl map. rewrite !length_slice by lia. rewrite Hlen. reflexivity.
  - intros fuel start chunks Hs. rewrite chunk_loop_step.
    destruct (Z.ltb_spec start (len txt)); [|lia].
    replace (start + 1000 - 200 + 200)%Z with (start + 800 + 200)%Z by lia.
    replace (start + 1000 - 200)%Z with (start + 800)%Z by lia.
    reflexivity.
Qed.

Lemma chunk_text_2500_witness :
  len text_2500 = 2500%Z /\
  chunk_text text_2500 1000 200 =
    Some [slice text_2500 0 1000; slice text_2500 800 1800;
          slice text_2500 1600 2600].
Proof.
  split; [reflexivity|].
  exact (proj1 (@chunk_text_2500 text_2500 eq_refl)).
Defined.


(** ** Scores and confidence *)

Lemma gt_true_iff (a b : Q) : gt a b = true <-> b < a.
Proof.
  unfold gt. rewrite negb_true_iff. split.
  - intros H. apply Qnot_le_lt. intros Hle.
    apply Qle_bool_iff in Hle. congruence.
  - intros H. destruct (Qle_bool a b) eqn:E; [|reflexivity].
    apply Qle_bool_iff in E. exfalso. exact (Qlt_not_le _ _ H E).
Qed.

Lemma gt_false_iff (a b : Q) : gt a b = false <-> a <= b.
Proof.
  unfold gt. rewrite negb_false_iff. apply Qle_bool_iff.
Qed.

Lemma max2_cases (a b : Q) :
  (max2 a b = a /\ b <= a) \/ (max2 a b = b /\ a < b).
Proof.
  unfold max2. destruct (gt b a) eqn:E.
  - right. split; [reflexivity|]. now apply gt_true_iff.
  - left. split; [reflexivity|]. now apply gt_false_iff.
Qed.

(** The guard of the confidence expression: the quotient is taken exactly when
    the two accumulators have a positive sum. *)
Lemma confidence_of_positive (p l : Q) :
  0 < p + l -> confidence_of p l = max2 p l / (p + l).
Proof.
  intros H. unfold confidence_of.
  destruct (gt (p + l) 0) eqn:E; [reflexivity|].
  apply gt_false_iff in E. exfalso. exact (Qlt_not_le _ _ H E).
Qed.

Lemma confidence_of_nonpositive (p l : Q) :
  p + l <= 0 -> confidence_of p l = 0.
Proof.
  intros H. unfold confidence_of.
  destruct (gt (p + l) 0) eqn:E; [|reflexivity].
  apply gt_true_iff in E. exfalso. exact (Qlt_not_le _ _ E H).
Qed.

Lemma confidence_of_range (p l : Q) :
  0 <= p -> 0 <= l -> 0 <= confidence_of p l <= 1.
Proof.
  intros Hp Hl. destruct (Qlt_le_dec 0 (p + l)) as [Hpos|Hnp].
  - rewrite confidence_of_positive by assumption.
    destruct (max2_cases p l) as [[-> _]|[-> _]]; split;
      try (apply Qle_shift_div_l; [assumption|lra]);
      try (apply Qle_shift_div_r; [assumption|lra]).
  - rewrite confidence_of_nonpositive by assumption. split; lra.
Qed.

Lemma confidence_of_zero (p l : Q) :
  0 <= p -> 0 <= l -> confidence_of p l == 0 -> p == 0 /\ l == 0.
Proof.
  intros Hp Hl. destruct (Qlt_le_dec 0 (p + l)) as [Hpos|Hnp].
  - rewrite confidence_of_positive by assumption. intros Hz.
    assert (Hm : max2 p l == 0).
    { rewrite <- (Qmult_div_r (max2 p l) (p + l)) by lra.
      unfold Qdiv in Hz |- *. rewrite Hz. ring. }
    destruct (max2_cases p l) as [[E H]|[E H]]; rewrite E in Hm; split; lra.
  - intros _. split; lra.
Qed.

(** Whatever the signs, the confidence is zero exactly when the guard fails. *)
Lemma confidence_of_zero_iff (p l : Q) :
  confidence_of p l == 0 <-> p + l <= 0.
Proof.
  split.
  - intros Hz. destruct (Qlt_le_dec 0 (p + l)) as [Hpos|Hnp]; [|assumption].
    rewrite confidence_of_positive in Hz by assumption.
    assert (Hm : max2 p l == 0).
    { rewrite <- (Qmult_div_r (max2 p l) (p + l)) by lra.
      unfold Qdiv in Hz |- *. rewrite Hz. ring. }
    destruct (max2_cases p l) as [[E H]|[E H]]; rewrite E in Hm; lra.
  - intros H. rewrite confidence_of_nonpositive by assumption. reflexivity.
Qed.


(** ** Sorting facts *)

Section SortedFacts.
Context {A B : Type}.

Lemma StronglySorted_weaken (R R' : A -> A -> Prop) (l : list A) :
  (forall x y, In x l -> In y l -> R x y -> R' x y) ->
  StronglySorted R l -> StronglySorted R' l.
Proof.
  intros Himp Hs. induction Hs as [|x l Hs IH Hall]; constructor.
  - apply IH. intros a b Ha Hb. apply Himp; now right.
  - rewrite Forall_forall in *. intros y Hy.
    apply Himp; [now left|now right|now apply Hall].
Qed.

Lemma StronglySorted_map (f : A -> B) (R : B -> B -> Prop) (l : list A) :
  StronglySorted (fun x y => R (f x) (f y)) l -> StronglySorted R (map f l).
Proof.
  induction 1 as [|x l Hs IH Hall]; simpl; constructor; [assumption|].
  rewrite Forall_forall in *. intros y Hy.
  apply in_map_iff in Hy. destruct Hy as (z & <- & Hz). now apply Hall.
Qed.

Lemma StronglySorted_app_one (R : A -> A -> Prop) (l : list A) (x : A) :
  StronglySorted R l -> Forall (fun y => R y x) l -> StronglySorted R (l ++ [x]).
Proof.
  induction 1 as [|y l Hs IH Hall]; intros Hx; simpl.
  - constructor; constructor.
  - inversion Hx as [|? ? Hyx Hlx]; subst. constructor; [now apply IH|].
    apply Forall_app. split; [assumption|]. constructor; [assumption|constructor].
Qed.

Lemma StronglySorted_rev (R : A -> A -> Prop) (l : list A) :
  StronglySorted R l -> StronglySorted (fun x y => R y x) (rev l).
Proof.
  induction 1 as [|x l Hs IH Hall]; simpl; [constructor|].
  apply StronglySorted_app_one; [assumption|].
  apply Forall_rev. exact Hall.
Qed.

Lemma StronglySorted_skipn (R : A -> A -> Prop) (n : nat) (l : list A) :
  StronglySorted R l -> StronglySorted R (skipn n l).
Proof.
  revert l. induction n as [|n IH]; intros l Hs; [assumption|].
  destruct l as [|x l]; [constructor|]. simpl. apply IH. now inversion Hs.
Qed.

Lemma In_skipn (n : nat) (l : list A) (x : A) : In x (skipn n l) -> In x l.
Proof.
  intros H. rewrite <- (firstn_skipn n l). apply in_or_app. now right.
Qed.

Lemma Forall2_In_r (R : A -> B -> Prop) (l1 : list A) (l2 : list B) (y : B) :
  Forall2 R l1 l2 -> In y l2 -> exists x, In x l1 /\ R x y.
Proof.
  induction 1 as [|a b l1 l2 Hab HF IH]; intros Hy; [contradiction|].
  destruct Hy as [<-|Hy].
  - exists a. split; [now left|assumption].
  - destruct (IH Hy) as (x & Hx & Hr). exists x. split; [now right|assumption].
Qed.

End SortedFacts.

(** ** [np.argsort] *)

Lemma insert_by_perm (x : nat * Q) (l : list (nat * Q)) :
  Permutation (insert_by x l) (x :: l).
Proof.
  induction l as [|y l IH]; simpl; [reflexivity|].
  destruct (Qle_bool (snd x) (snd y)); [reflexivity|].
  rewrite IH. apply perm_swap.
Qed.

Lemma insert_by_sorted (x : nat * Q) (l : list (nat * Q)) :
  StronglySorted by_value l -> StronglySorted by_value (insert_by x l).
Proof.
  induction 1 as [|y l Hs IH Hall]; simpl.
  - constructor; constructor.
  - destruct (Qle_bool (snd x) (snd y)) eqn:E.
    + apply Qle_bool_iff in E. constructor; [now constructor|].
      constructor; [exact E|].
      rewrite Forall_forall in *. intros z Hz.
      unfold by_value in *. apply Qle_trans with (snd y); [exact E|now apply Hall].
    + assert (Hyx : by_value y x).
      { unfold by_value. apply Qlt_le_weak, Qnot_le_lt. intros Hle.
        apply Qle_bool_iff in Hle. congruence. }
      constructor; [assumption|].
      apply (Permutation_Forall (Permutation_sym (insert_by_perm x l))).
      now constructor.
Qed.

Lemma insertion_sort_perm (l : list (nat * Q)) :
  Permutation (fold_right insert_by [] l) l.
Proof.
  induction l as [|x l IH]; simpl; [reflexivity|].
  rewrite insert_by_perm. now constructor.
Qed.

Lemma insertion_sort_sorted (l : list (nat * Q)) :
  StronglySorted by_value (fold_right insert_by [] l).
Proof.
  induction l as [|x l IH]; simpl; [constructor|].
  now apply insert_by_sorted.
Qed.

Lemma in_combine_seq (a : list Q) (s i : nat) (v : Q) :
  In (i, v) (combine (seq s (List.length a)) a) ->
  (s <= i)%nat /\ nth_error a (i - s) = Some v.
Proof.
  revert s. induction a as [|x a IH]; intros s H; simpl in H; [contradiction|].
  destruct H as [H|H].
  - inversion H; subst. rewrite Nat.sub_diag. split; [lia|reflexivity].
  - apply IH in H. destruct H as [Hs Hn]. split; [lia|].
    replace (i - s)%nat with (S (i - S s)) by lia. exact Hn.
Qed.

Lemma argsort_perm (a : list Q) :
  Permutation (argsort a) (seq 0 (List.length a)).
Proof.
  unfold argsort. rewrite insertion_sort_perm.
  replace (map fst (combine (seq 0 (List.length a)) a))
    with (seq 0 (List.length a)); [reflexivity|].
  generalize 0%nat. induction a as [|x a IH]; intros s; simpl; [reflexivity|].
  f_equal. apply IH.
Qed.

Lemma argsort_in (a : list Q) (i : nat) :
  In i (argsort a) -> (i < List.length a)%nat.
Proof.
  intros H. apply (Permutation_in _ (argsort_perm a)) in H.
  apply in_seq in H. lia.
Qed.

(** The indices come by ascending value. *)
Lemma argsort_sorted (a : list Q) :
  StronglySorted (fun i j => nth i a 0 <= nth j a 0) (argsort a).
Proof.
  unfold argsort. apply StronglySorted_map.
  apply StronglySorted_weaken with (R := by_value);
    [|apply insertion_sort_sorted].
  assert (Hval : forall x,
    In x (fold_right insert_by [] (combine (seq 0 (List.length a)) a)) ->
    nth (fst x) a 0 = snd x).
  { intros [i v] Hx. apply (Permutation_in _ (insertion_sort_perm _)) in Hx.
    apply in_combine_seq in Hx. destruct Hx as [_ Hn].
    rewrite Nat.sub_0_r in Hn. simpl. now apply nth_error_nth. }
  intros x y Hx Hy Hxy. rewrite (Hval x Hx), (Hval y Hy). exact Hxy.
Qed.

(** ** The selected indices and the voting loop *)

Lemma top_k_in (similarities : list Q) (k : Z) (i : nat) :
  In i (top_k similarities k) -> (i < List.length similarities)%nat.
Proof.
  unfold top_k, slice_from. intros H. apply in_rev in H.
  apply In_skipn in H. now apply argsort_in.
Qed.

Lemma top_k_sorted (similarities : list Q) (k : Z) :
  StronglySorted (fun i j => nth j similarities 0 <= nth i similarities 0)
                 (top_k similarities k).
Proof.
  unfold top_k, slice_from.
  apply (StronglySorted_rev (R := fun i j => nth i similarities 0 <= nth j similarities 0)).
  apply StronglySorted_skipn, argsort_sorted.
Qed.

Lemma length_argsort (a : list Q) : List.length (argsort a) = List.length a.
Proof.
  rewrite (Permutation_length (argsort_perm a)). apply length_seq.
Qed.

Lemma NoDup_argsort (a : list Q) : NoDup (argsort a).
Proof.
  apply (Permutation_NoDup (Permutation_sym (argsort_perm a))), seq_NoDup.
Qed.

Lemma length_top_k (similarities : list Q) (k : Z) :
  len (top_k similarities k) =
  if (0 <? k)%Z then Z.min k (len similarities)
  else Z.max 0 (len similarities + k).
Proof.
  unfold top_k, slice_from, len. rewrite length_rev, length_skipn.
  unfold slice_index, len. rewrite length_argsort.
  destruct (Z.ltb_spec (- k) 0); destruct (Z.ltb_spec 0 k); lia.
Qed.

Lemma StronglySorted_app_inv {A} (R : A -> A -> Prop) (l1 l2 : list A) :
  StronglySorted R (l1 ++ l2) ->
  forall x y, In x l1 -> In y l2 -> R x y.
Proof.
  induction l1 as [|a l1 IH]; intros Hs x y Hx Hy; [contradiction|].
  simpl in Hs. inversion Hs as [|? ? Hs' Hall]; subst.
  destruct Hx as [<-|Hx].
  - rewrite Forall_forall in Hall. apply Hall, in_or_app. now right.
  - now apply IH.
Qed.

Lemma suffix_NoDup {A} (l : list A) :
  NoDup l -> forall n, NoDup (skipn n l).
Proof.
  intros H n. rewrite <- (firstn_skipn n l) in H.
  now apply NoDup_app_remove_l in H.
Qed.

(** The selection [np.argsort(similarities)[-k:][::-1]]: indices of the
    array, each at most once, and no index left out is more similar than a
    selected one. *)
Lemma top_k_selects_most_similar (similarities : list Q) (k : Z) :
  NoDup (top_k similarities k) /\
  (forall i, In i (top_k similarities k) ->
             (i < List.length similarities)%nat) /\
  (forall i j,
     (i < List.length similarities)%nat ->
     ~ In i (top_k similarities k) ->
     In j (top_k similarities k) ->
     nth i similarities 0 <= nth j similarities 0).
Proof.
  split; [|split].
  - unfold top_k, slice_from. apply NoDup_rev, suffix_NoDup, NoDup_argsort.
  - apply top_k_in.
  - unfold top_k, slice_from. intros i j Hi Hni Hj.
    set (m := Z.to_nat (slice_index (argsort similarities) (- k))) in *.
    rewrite <- in_rev in Hni, Hj.
    assert (Hia : In i (argsort similarities)).
    { apply (Permutation_in _ (Permutation_sym (argsort_perm similarities))).
      apply in_seq. lia. }
    rewrite <- (firstn_skipn m (argsort similarities)) in Hia.
    apply in_app_or in Hia. destruct Hia as [Hia|Hia]; [|contradiction].
    pose proof (argsort_sorted similarities) as Hs.
    rewrite <- (firstn_skipn m (argsort similarities)) in Hs.
    exact (@StronglySorted_app_inv _ _ _ _ Hs i j Hia Hj).
Qed.

(** With a non-negative [k] and a non-empty array the selection starts with
    an index of highest value. *)
Lemma top_k_head (similarities : list Q) (k : Z) :
  similarities <> [] -> (0 <= k)%Z ->
  exists first rest,
    top_k similarities k = first :: rest /\
    forall i, (i < List.length similarities)%nat ->
              nth i similarities 0 <= nth first similarities 0.
Proof.
  intros Hne Hk.
  destruct (top_k similarities k) as [|first rest] eqn:E.
  - exfalso. pose proof (length_top_k similarities k) as HL.
    rewrite E in HL. unfold len in HL.
    destruct similarities as [|x similarities]; [now apply Hne|].
    cbn [List.length] in HL. rewrite Nat2Z.inj_succ in HL.
    revert HL. destruct (Z.ltb_spec 0 k); intros HL; lia.
  - exists first, rest. split; [reflexivity|]. intros i Hi.
    destruct (top_k_selects_most_similar similarities k) as (_ & _ & Hopt).
    pose proof (top_k_sorted similarities k) as Hs.
    rewrite E in Hopt, Hs.
    destruct (in_dec Nat.eq_dec i (first :: rest)) as [[<-|Hin]|Hout].
    + apply Qle_refl.
    + inversion Hs as [|? ? _ Hall]; subst.
      rewrite Forall_forall in Hall. now apply Hall.
    + apply Hopt; [exact Hi|exact Hout|now left].
Qed.

Lemma vote_loop_total (similarities : list Q) (labels : list Label) :
  forall idxs p l ns,
    (forall i, In i idxs ->
       (i < List.length labels)%nat /\ (i < List.length similarities)%nat) ->
    vote_loop similarities labels idxs p l ns =
    Some (fold_left (fun acc n => if nb_is_phishing n
                                  then acc + nb_similarity n else acc)
                    (map (neighbor_of similarities labels) idxs) p,
          fold_left (fun acc n => if nb_is_phishing n
                                  then acc else acc + nb_similarity n)
                    (map (neighbor_of similarities labels) idxs) l,
          ns ++ map (neighbor_of similarities labels) idxs).
Proof.
  induction idxs as [|idx rest IH]; intros p l ns Hin.
  - simpl. now rewrite app_nil_r.
  - destruct (Hin idx (or_introl eq_refl)) as [Hl Hs].
    assert (Hrest : forall i, In i rest ->
      (i < List.length labels)%nat /\ (i < List.length similarities)%nat)
      by (intros i Hi; apply Hin; now right).
    cbn [vote_loop map fold_left]. unfold getitem.
    rewrite (nth_error_nth' labels (mkLabel "" false "") Hl).
    rewrite (nth_error_nth' similarities 0 Hs).
    change (mkNeighbor (lbl_file (nth idx labels (mkLabel "" false "")))
                       (lbl_label (nth idx labels (mkLabel "" false "")))
                       (nth idx similarities 0)
                       (lbl_is_phishing (nth idx labels (mkLabel "" false ""))))
      with (neighbor_of similarities labels idx).
    change (nb_is_phishing (neighbor_of similarities labels idx))
      with (lbl_is_phishing (nth idx labels (mkLabel "" false ""))).
    change (nb_similarity (neighbor_of similarities labels idx))
      with (nth idx similarities 0).
    destruct (lbl_is_phishing (nth idx labels (mkLabel "" false "")));
      rewrite IH by assumption; rewrite <- app_assoc; reflexivity.
Qed.

(** What the vote returns when every similarity has its label: the
    neighbours of the selected indices, and their two scores. *)
Lemma vote_result (similarities : list Q) (labels : list Label) (k : Z) :
  List.length similarities = List.length labels ->
  vote_loop similarities labels (top_k similarities k) 0 0 [] =
  let ns := map (neighbor_of similarities labels) (top_k similarities k) in
  Some (phishing_score_of ns, legit_score_of ns, ns).
Proof.
  intros Hlen. rewrite vote_loop_total.
  - reflexivity.
  - intros i Hi. apply top_k_in in Hi. lia.
Qed.

Lemma neighbors_descending (similarities : list Q) (labels : list Label) (k : Z) :
  descending (map (neighbor_of similarities labels) (top_k similarities k)).
Proof.
  unfold descending. apply StronglySorted_map. simpl. apply top_k_sorted.
Qed.

Lemma neighbors_from_labels (similarities : list Q) (labels : list Label)
    (k : Z) (n : Neighbor) :
  List.length similarities = List.length labels ->
  In n (map (neighbor_of similarities labels) (top_k similarities k)) ->
  exists lab, In lab labels /\ nb_file n = lbl_file lab /\
              nb_label n = lbl_label lab /\
              nb_is_phishing n = lbl_is_phishing lab.
Proof.
  intros Hlen Hn. apply in_map_iff in Hn. destruct Hn as (i & <- & Hi).
  apply top_k_in in Hi.
  exists (nth i labels (mkLabel "" false "")). split.
  - apply nth_In. lia.
  - repeat split.
Qed.


(** ** [classify_knn] *)

Lemma classify_knn_result (cosine : Emb -> Emb -> Q) (query_embedding : Emb)
    (example_embeddings : list Emb) (example_labels : list Label) (k : Z) :
  example_embeddings <> [] ->
  List.length example_embeddings = List.length example_labels ->
  classify_knn cosine query_embedding example_embeddings example_labels k =
  let similarities := map (cosine query_embedding) example_embeddings in
  let ns := map (neighbor_of similarities example_labels)
                (top_k similarities k) in
  Some (mkVerdict (gt (phishing_score_of ns) (legit_score_of ns))
                  (confidence_of (phishing_score_of ns) (legit_score_of ns))
                  ns).
Proof.
  intros Hne Hlen. unfold classify_knn, cosine_similarity_row.
  destruct example_embeddings as [|e rest]; [now contradiction Hne|].
  rewrite vote_result by (rewrite length_map; exact Hlen). reflexivity.
Qed.

(** Without an example the call raises, whatever the query and [k]. *)
Lemma classify_knn_no_example (cosine : Emb -> Emb -> Q)
    (query_embedding : Emb) (example_labels : list Label) (k : Z) :
  classify_knn cosine query_embedding [] example_labels k = None.
Proof. reflexivity. Qed.

(** ** The store of [classifier.py] *)

Section StoreFacts.
Variable encode : text -> Emb.
Variable fs : string -> option text.

Lemma slice_to_bound {A} (l : list A) (n : Z) :
  (0 <= n)%Z -> (len (slice_to l n) <= n)%Z.
Proof.
  intros Hn. unfold slice_to, len. rewrite length_firstn.
  pose proof (slice_index_range l n) as R. unfold slice_index, len in *.
  destruct (Z.ltb_spec n 0); lia.
Qed.

Lemma slice_to_nonempty {A} (l : list A) (n : Z) :
  (0 < n)%Z -> l <> [] -> slice_to l n <> [].
Proof.
  intros Hn Hl. destruct l as [|x l]; [congruence|].
  unfold slice_to, slice_index. destruct (Z.ltb_spec n 0); [lia|].
  unfold len. simpl List.length.
  destruct (Z.to_nat (Z.min n (Z.of_nat (S (List.length l))))) eqn:E; [lia|].
  simpl. discriminate.
Qed.

Lemma load_loop_spec (full : list (string * Info)) :
  forall table texts labels,
    incl table full ->
    exists T L,
      Classifier.load_loop fs table texts labels = (texts ++ T, labels ++ L) /\
      Forall2 (loaded_from fs full) T L.
Proof.
  induction table as [|[filepath info] rest IH]; intros texts labels Hincl.
  - exists [], []. simpl. rewrite !app_nil_r. split; [reflexivity|constructor].
  - assert (Hrest : incl rest full) by (intros x Hx; apply Hincl; now right).
    simpl. destruct (fs filepath) as [content|] eqn:Efs.
    + destruct content as [|c content'] eqn:Ec.
      * apply IH, Hrest.
      * destruct (IH (texts ++ [slice_to (c :: content') 4000])
                     (labels ++ [mkLabel filepath (info_is_phishing info)
                                         (info_label info)]) Hrest)
          as (T & L & HL & HF).
        exists (slice_to (c :: content') 4000 :: T),
               (mkLabel filepath (info_is_phishing info) (info_label info) :: L).
        split.
        -- rewrite HL, <- !app_assoc. reflexivity.
        -- constructor; [|assumption].
           exists info, (c :: content'). simpl.
           repeat split; try assumption; try discriminate.
           apply Hincl. now left.
    + apply IH, Hrest.
Qed.

Lemma load_examples_loaded (st : Classifier.State) :
  store_wf st ->
  exists embeddings labels,
    Classifier._load_examples encode fs st =
      Classifier.mkState (Some embeddings) (Some labels) /\
    List.length embeddings = List.length labels.
Proof.
  unfold store_wf, Classifier._load_examples. destruct st as [[e|] l];
    cbn [Classifier._example_embeddings Classifier._example_labels].
  - destruct l as [l|]; [|contradiction]. intros H. now exists e, l.
  - intros _.
    destruct (@load_loop_spec Classifier.LABELED_EXAMPLES
                Classifier.LABELED_EXAMPLES [] [] (incl_refl _))
      as (T & L & HL & HF).
    rewrite HL. cbn [app]. destruct T as [|t T].
    + now exists [], [].
    + eexists _, _. split; [reflexivity|].
      unfold Classifier._embed. rewrite length_map.
      exact (Forall2_length HF).
Qed.

Lemma mask_select_keep {A} (f : string) :
  forall (a : list A) (labels : list Label),
    List.length a = List.length labels ->
    exists r,
      mask_select a (map (keep f) labels) = Some r /\
      List.length r = List.length (filter (keep f) labels).
Proof.
  induction a as [|x a IH]; intros [|lab labels] Hlen; simpl in Hlen;
    try discriminate.
  - now exists [].
  - destruct (IH labels) as (r & Hr & Hl); [lia|].
    simpl. rewrite Hr. destruct (keep f lab); eexists; split;
      try reflexivity; simpl; now rewrite ?Hl.
Qed.

Lemma filter_by_mask (f : string) (labels : list Label) :
  map fst (filter snd (combine labels (map (keep f) labels))) =
  filter (keep f) labels.
Proof.
  induction labels as [|lab labels IH]; simpl; [reflexivity|].
  destruct (keep f lab); simpl; now rewrite IH.
Qed.

(** The example set a call of [classify] votes on. *)
Lemma filter_examples_result (embeddings : list Emb) (labels : list Label)
    (exclude_file : option string) :
  List.length embeddings = List.length labels ->
  exists fe fl,
    Classifier.filter_examples embeddings labels exclude_file = Some (fe, fl) /\
    List.length fe = List.length fl /\
    fl = match exclude_file with
         | Some f => if truthy exclude_file then filter (keep f) labels
                     else labels
         | None => labels
         end.
Proof.
  intros Hlen. unfold Classifier.filter_examples.
  destruct exclude_file as [f|]; [|now exists embeddings, labels].
  destruct (truthy (Some f)); [|now exists embeddings, labels].
  destruct (mask_select_keep f embeddings labels Hlen) as (r & Hr & Hl).
  change (fun l : Label => negb (String.eqb (lbl_file l) f)) with (keep f).
  rewrite Hr, filter_by_mask. now exists r, (filter (keep f) labels).
Qed.

Lemma len_zero_iff {A} (l : list A) : (len l =? 0)%Z = true <-> l = [].
Proof.
  unfold len. destruct l; simpl; split; intros H; try reflexivity;
    try discriminate.
Qed.

(** What a call of [classify] returns, on any cache the singleton can hold:
    the verdict, confidence and neighbours of a vote whose neighbours all
    come from the labels left after the exclusion. *)
Lemma classify_result (st : Classifier.State) (txt : text) (k : Z)
    (exclude_file : option string) :
  store_wf st ->
  exists embeddings labels fe fl ns,
    Classifier._load_examples encode fs st =
      Classifier.mkState (Some embeddings) (Some labels) /\
    Classifier.filter_examples embeddings labels exclude_file = Some (fe, fl) /\
    Classifier.classify encode fs st txt k exclude_file =
      (Classifier.mkState (Some embeddings) (Some labels),
       Some (gt (phishing_score_of ns) (legit_score_of ns),
             confidence_of (phishing_score_of ns) (legit_score_of ns),
             ns)) /\
    descending ns /\
    (forall n, In n ns -> exists lab, In lab fl /\ nb_file n = lbl_file lab) /\
    (fl = [] -> ns = []).
Proof.
  intros Hwf.
  destruct (load_examples_loaded st Hwf) as (embeddings & labels & Hload & Hlen).
  destruct (filter_examples_result embeddings labels exclude_file Hlen)
    as (fe & fl & Hfilter & Hflen & Hfl).
  unfold Classifier.classify. rewrite Hload. simpl.
  exists embeddings, labels, fe, fl.
  destruct (len labels =? 0)%Z eqn:E0.
  - exists []. apply len_zero_iff in E0. subst labels.
    repeat split; try assumption; try constructor.
    intros n [].
  - rewrite Hfilter. destruct (len fl =? 0)%Z eqn:E1.
    + exists []. repeat split; try assumption; try constructor.
      intros n [].
    + set (q := encode (format_query (slice_to txt 4000))).
      set (sims := matvec fe q).
      exists (map (neighbor_of sims fl) (top_k sims k)).
      assert (Hs : List.length sims = List.length fl)
        by (unfold sims, matvec; now rewrite length_map).
      rewrite vote_result by exact Hs. simpl.
      repeat split; try assumption.
      * apply neighbors_descending.
      * intros n Hn.
        destruct (neighbors_from_labels sims fl k n Hs Hn) as (lab & ? & ? & _).
        now exists lab.
      * intros ->. simpl in E1. discriminate.
Qed.

(** The vote of [classify] when the exclusion leaves a candidate: the
    neighbours of the indices selected among the similarities of the
    candidates to the query. *)
Lemma classify_votes (st : Classifier.State) (txt : text) (k : Z)
    (exclude_file : option string) :
  store_wf st ->
  exists embeddings labels fe fl,
    Classifier._load_examples encode fs st =
      Classifier.mkState (Some embeddings) (Some labels) /\
    Classifier.filter_examples embeddings labels exclude_file = Some (fe, fl) /\
    List.length fe = List.length fl /\
    (fl <> [] ->
     let sims := matvec fe (encode (format_query (slice_to txt 4000))) in
     let ns := map (neighbor_of sims fl) (top_k sims k) in
     snd (Classifier.classify encode fs st txt k exclude_file) =
       Some (gt (phishing_score_of ns) (legit_score_of ns),
             confidence_of (phishing_score_of ns) (legit_score_of ns),
             ns)).
Proof.
  intros Hwf.
  destruct (load_examples_loaded st Hwf) as (embeddings & labels & Hload & Hlen).
  destruct (filter_examples_result embeddings labels exclude_file Hlen)
    as (fe & fl & Hfilter & Hflen & Hfl).
  exists embeddings, labels, fe, fl.
  split; [exact Hload|]. split; [exact Hfilter|]. split; [exact Hflen|].
  intros Hne sims ns.
  unfold Classifier.classify. rewrite Hload. cbn [snd].
  cbn [Classifier._example_labels Classifier._example_embeddings].
  assert (Hl : (len labels =? 0)%Z = false).
  { destruct (len labels =? 0)%Z eqn:E0; [|reflexivity].
    apply len_zero_iff in E0. subst labels. exfalso. apply Hne.
    rewrite Hfl.
    destruct exclude_file as [f|]; [destruct (truthy (Some f))|];
      reflexivity. }
  rewrite Hl, Hfilter.
  assert (Hf : (len fl =? 0)%Z = false).
  { destruct (len fl =? 0)%Z eqn:E1; [|reflexivity].
    apply len_zero_iff in E1. contradiction. }
  rewrite Hf. cbn [Classifier._embed map nth_error].
  fold sims.
  rewrite vote_result
    by (unfold sims, matvec; rewrite length_map; exact Hflen).
  reflexivity.
Qed.

End StoreFacts.


(** ** The similarity voter *)

(** The range violation the specification overlooks: a legitimate neighbour
    with a negative similarity makes the quotient exceed one, in the voter of
    either file; and with scores [1] and [-1] the confidence is zero although
    neither accumulator is. *)
Lemma confidence_out_of_range :
  (exists v,
     ClassifyKnn.classify_knn dot east embeddings_abc labels_abc 3 = Some v /\
     phishing_score_of (ClassifyKnn.neighbors v) == 2 /\
     legit_score_of (ClassifyKnn.neighbors v) == -1 /\
     ClassifyKnn.confidence v == 2 /\
     ~ (0 <= ClassifyKnn.confidence v <= 1)) /\
  (exists b c ns,
     snd (Classifier.classify encode_sign fs_eml Classifier.new_instance
                              hello 3 None) = Some (b, c, ns) /\
     c == 2 /\ ~ (0 <= c <= 1)) /\
  (exists v,
     ClassifyKnn.classify_knn dot east embeddings_ac labels_ac 3 = Some v /\
     ClassifyKnn.confidence v == 0 /\
     ~ (phishing_score_of (ClassifyKnn.neighbors v) == 0 /\
        legit_score_of (ClassifyKnn.neighbors v) == 0)).
Proof.
  split; [|split].
  - eexists. split; [vm_compute; reflexivity|]. cbn [ClassifyKnn.neighbors ClassifyKnn.confidence].
    repeat split; try (vm_compute; reflexivity).
    intros [_ H]. vm_compute in H. now apply H.
  - eexists _, _, _. split; [vm_compute; reflexivity|].
    split; [reflexivity|]. intros [_ H]. vm_compute in H. now apply H.
  - eexists. split; [vm_compute; reflexivity|]. cbn [ClassifyKnn.neighbors ClassifyKnn.confidence].
    split; [reflexivity|]. intros [H _]. vm_compute in H. discriminate H.
Qed.

(** C1 (amended).  In the voter of either file, when neither score
    accumulator is negative the returned confidence lies in [0, 1], and it is
    0 only when both accumulators are 0.  (The accumulators are the two sums
    of the returned neighbours' similarities, by label.  [classify_knn] is
    called on at least one example, with one label per example; without an
    example it raises.) *)
Theorem confidence_in_unit_interval :
  (forall cosine query_embedding example_embeddings example_labels k,
     example_embeddings <> [] ->
     List.length example_embeddings = List.length example_labels ->
     exists v,
       ClassifyKnn.classify_knn cosine query_embedding example_embeddings
                                example_labels k = Some v /\
       (0 <= phishing_score_of (ClassifyKnn.neighbors v) ->
        0 <= legit_score_of (ClassifyKnn.neighbors v) ->
        0 <= ClassifyKnn.confidence v <= 1 /\
        (ClassifyKnn.confidence v == 0 ->
         phishing_score_of (ClassifyKnn.neighbors v) == 0 /\
         legit_score_of (ClassifyKnn.neighbors v) == 0))) /\
  (forall encode fs st txt k exclude_file,
     store_wf st ->
     exists b c ns,
       snd (Classifier.classify encode fs st txt k exclude_file)
         = Some (b, c, ns) /\
       (0 <= phishing_score_of ns -> 0 <= legit_score_of ns ->
        0 <= c <= 1 /\
        (c == 0 -> phishing_score_of ns == 0 /\ legit_score_of ns == 0))).
Proof.
  split.
  - intros cosine q embs labels k Hsome Hlen.
    rewrite classify_knn_result by assumption. cbv zeta.
    eexists. split; [reflexivity|].
    cbn [ClassifyKnn.neighbors ClassifyKnn.confidence]. intros Hp Hl.
    split; [now apply confidence_of_range|now apply confidence_of_zero].
  - intros encode fs st txt k excl Hwf.
    destruct (classify_result encode fs st txt k excl Hwf)
      as (embs & labels & fe & fl & ns & _ & _ & Hc & _).
    rewrite Hc. eexists _, _, ns. split; [reflexivity|].
    intros Hp Hl.
    split; [now apply confidence_of_range|now apply confidence_of_zero].
Qed.

Lemma confidence_in_unit_interval_witness :
  (embeddings_pos <> [] /\
   List.length embeddings_pos = List.length labels_pos /\
   exists v,
     ClassifyKnn.classify_knn dot east embeddings_pos labels_pos 3 = Some v /\
     phishing_score_of (ClassifyKnn.neighbors v) == 1 /\
     legit_score_of (ClassifyKnn.neighbors v) == 0 /\
     0 <= ClassifyKnn.confidence v <= 1) /\
  (store_wf Classifier.new_instance /\
   exists b c ns,
     snd (Classifier.classify encode_sign fs_one Classifier.new_instance
                              hello 3 None) = Some (b, c, ns) /\
     0 <= c <= 1).
Proof.
  split.
  - split; [discriminate|]. split; [reflexivity|].
    destruct (proj1 confidence_in_unit_interval dot east embeddings_pos
                    labels_pos 3%Z ltac:(discriminate) eq_refl)
      as (v & Hv & H).
    exists v. split; [exact Hv|].
    vm_compute in Hv. injection Hv as <-.
    split; [reflexivity|]. split; [reflexivity|].
    apply H; vm_compute; discriminate.
  - split; [exact I|].
    destruct (proj2 confidence_in_unit_interval encode_sign fs_one
                    Classifier.new_instance hello 3%Z None I)
      as (b & c & ns & Hv & H).
    exists b, c, ns. split; [exact Hv|].
    vm_compute in Hv. injection Hv as <- <- <-.
    apply H; vm_compute; discriminate.
Defined.

(** C5.  In the voter of either file the verdict is phishing exactly when the
    phishing score is strictly greater than the legitimate score; on a tie
    the verdict is legitimate.  (A vote of [classify_knn] is a call on at
    least one example, with one label per example.) *)
Theorem verdict_is_strict_majority :
  (forall cosine query_embedding example_embeddings example_labels k,
     example_embeddings <> [] ->
     List.length example_embeddings = List.length example_labels ->
     exists v,
       ClassifyKnn.classify_knn cosine query_embedding example_embeddings
                                example_labels k = Some v /\
       (ClassifyKnn.is_phishing v = true <->
        legit_score_of (ClassifyKnn.neighbors v)
          < phishing_score_of (ClassifyKnn.neighbors v)) /\
       (phishing_score_of (ClassifyKnn.neighbors v)
          == legit_score_of (ClassifyKnn.neighbors v) ->
        ClassifyKnn.is_phishing v = false)) /\
  (forall encode fs st txt k exclude_file,
     store_wf st ->
     exists b c ns,
       snd (Classifier.classify encode fs st txt k exclude_file)
         = Some (b, c, ns) /\
       (b = true <-> legit_score_of ns < phishing_score_of ns) /\
       (phishing_score_of ns == legit_score_of ns -> b = false)).
Proof.
  assert (Htie : forall p l : Q, p == l -> gt p l = false).
  { intros p l H. apply gt_false_iff. rewrite H. apply Qle_refl. }
  split.
  - intros cosine q embs labels k Hsome Hlen.
    rewrite classify_knn_result by assumption. cbv zeta.
    eexists. split; [reflexivity|].
    cbn [ClassifyKnn.neighbors ClassifyKnn.is_phishing].
    split; [apply gt_true_iff|apply Htie].
  - intros encode fs st txt k excl Hwf.
    destruct (classify_result encode fs st txt k excl Hwf)
      as (embs & labels & fe & fl & ns & _ & _ & Hc & _).
    rewrite Hc. eexists _, _, ns. split; [reflexivity|].
    split; [apply gt_true_iff|apply Htie].
Qed.

Lemma verdict_is_strict_majority_witness :
  (embeddings_pos <> [] /\
   List.length embeddings_pos = List.length labels_pos /\
   exists v,
     ClassifyKnn.classify_knn dot east embeddings_pos labels_pos 3 = Some v /\
     ClassifyKnn.is_phishing v = true /\
     legit_score_of (ClassifyKnn.neighbors v)
       < phishing_score_of (ClassifyKnn.neighbors v)) /\
  ([east; east] <> [] /\
   List.length [east; east] = List.length labels_ac /\
   exists v,
     ClassifyKnn.classify_knn dot east [east; east] labels_ac 3 = Some v /\
     phishing_score_of (ClassifyKnn.neighbors v)
       == legit_score_of (ClassifyKnn.neighbors v) /\
     ClassifyKnn.is_phishing v = false) /\
  (store_wf Classifier.new_instance /\
   exists b c ns,
     snd (Classifier.classify encode_sign fs_one Classifier.new_instance
                              hello 3 None) = Some (b, c, ns) /\
     b = true /\ legit_score_of ns < phishing_score_of ns).
Proof.
  split; [|split].
  - split; [discriminate|]. split; [reflexivity|].
    destruct (proj1 verdict_is_strict_majority dot east embeddings_pos
                    labels_pos 3%Z ltac:(discriminate) eq_refl)
      as (v & Hv & Hiff & _).
    exists v. split; [exact Hv|].
    assert (Hb : ClassifyKnn.is_phishing v = true)
      by (vm_compute in Hv; injection Hv as <-; reflexivity).
    split; [exact Hb|]. apply Hiff, Hb.
  - split; [discriminate|]. split; [reflexivity|].
    destruct (proj1 verdict_is_strict_majority dot east [east; east]
                    labels_ac 3%Z ltac:(discriminate) eq_refl)
      as (v & Hv & _ & Htie).
    exists v. split; [exact Hv|].
    assert (Hs : phishing_score_of (ClassifyKnn.neighbors v)
                 == legit_score_of (ClassifyKnn.neighbors v))
      by (vm_compute in Hv; injection Hv as <-; reflexivity).
    split; [exact Hs|]. exact (Htie Hs).
  - split; [exact I|].
    destruct (proj2 verdict_is_strict_majority encode_sign fs_one
                    Classifier.new_instance hello 3%Z None I)
      as (b & c & ns & Hv & Hiff & _).
    exists b, c, ns. split; [exact Hv|].
    assert (Hb : b = true)
      by (vm_compute in Hv; injection Hv as <- _ _; reflexivity).
    split; [exact Hb|]. apply Hiff, Hb.
Defined.

(** C10.  With a non-empty candidate set, the neighbours the voter of either
    file returns come by non-increasing similarity: every entry is at least as
    similar as all the entries after it.  The list is the selection of the
    voter: it has [min(k, n)] entries for a positive [k] and [n] candidates
    (all [n] for [k = 0], the slice [[-0:]] being the whole array), and for a
    non-negative [k] its first entry is at least as similar to the query as
    every candidate, selected or not. *)
Theorem neighbors_by_descending_similarity :
  (forall cosine query_embedding example_embeddings example_labels k,
     example_embeddings <> [] ->
     List.length example_embeddings = List.length example_labels ->
     exists v,
       ClassifyKnn.classify_knn cosine query_embedding example_embeddings
                                example_labels k = Some v /\
       descending (ClassifyKnn.neighbors v) /\
       len (ClassifyKnn.neighbors v) =
         (if (0 <? k)%Z then Z.min k (len example_embeddings)
          else Z.max 0 (len example_embeddings + k)) /\
       ((0 <= k)%Z ->
        exists first rest,
          ClassifyKnn.neighbors v = first :: rest /\
          (forall n, In n rest -> nb_similarity n <= nb_similarity first) /\
          (forall e, In e example_embeddings ->
                     cosine query_embedding e <= nb_similarity first))) /\
  (forall encode fs st txt k exclude_file,
     store_wf st ->
     exists b c ns embeddings labels fe fl,
       snd (Classifier.classify encode fs st txt k exclude_file)
         = Some (b, c, ns) /\
       descending ns /\
       Classifier._load_examples encode fs st =
         Classifier.mkState (Some embeddings) (Some labels) /\
       Classifier.filter_examples embeddings labels exclude_file
         = Some (fe, fl) /\
       (fl <> [] ->
        len ns = (if (0 <? k)%Z then Z.min k (len fl)
                  else Z.max 0 (len fl + k)) /\
        ((0 <= k)%Z ->
         exists first rest,
           ns = first :: rest /\
           (forall n, In n rest -> nb_similarity n <= nb_similarity first) /\
           (forall e, In e fe ->
              dot e (encode (format_query (slice_to txt 4000)))
                <= nb_similarity first)))).
Proof.
  assert (Hcount : forall sims labels k,
    len (map (neighbor_of sims labels) (top_k sims k)) =
    (if (0 <? k)%Z then Z.min k (len sims) else Z.max 0 (len sims + k))).
  { intros sims labels k. rewrite <- length_top_k. unfold len.
    now rewrite length_map. }
  assert (Hhead : forall sims labels k,
    sims <> [] -> (0 <= k)%Z ->
    exists first rest,
      map (neighbor_of sims labels) (top_k sims k) = first :: rest /\
      (forall n, In n rest -> nb_similarity n <= nb_similarity first) /\
      (forall x, In x sims -> x <= nb_similarity first)).
  { intros sims labels k Hne Hk.
    destruct (top_k_head Hne Hk) as (i0 & idxs & Htop & Hmax).
    pose proof (neighbors_descending sims labels k) as Hd.
    rewrite Htop in Hd |- *. cbn [map] in Hd |- *.
    exists (neighbor_of sims labels i0), (map (neighbor_of sims labels) idxs).
    split; [reflexivity|]. split.
    - inversion Hd as [|? ? _ Hall]; subst.
      rewrite Forall_forall in Hall. exact Hall.
    - intros x Hx. apply (In_nth _ _ 0) in Hx.
      destruct Hx as (i & Hi & <-). now apply Hmax. }
  split.
  - intros cosine q embs labels k Hsome Hlen.
    rewrite classify_knn_result by assumption. cbv zeta.
    eexists. split; [reflexivity|]. cbn [ClassifyKnn.neighbors].
    split; [apply neighbors_descending|]. split.
    + rewrite Hcount. unfold len. now rewrite length_map.
    + intros Hk.
      destruct (Hhead (map (cosine q) embs) labels k) as (first & rest & E & Hr & Hm);
        [destruct embs; [now contradiction Hsome|discriminate]|exact Hk|].
      exists first, rest. split; [exact E|]. split; [exact Hr|].
      intros x Hx. apply Hm. now apply in_map.
  - intros encode fs st txt k excl Hwf.
    destruct (classify_result encode fs st txt k excl Hwf)
      as (embs & labels & fe & fl & ns & Hload & Hfilter & Hc & Hd & _).
    rewrite Hc. cbn [snd].
    eexists _, _, ns, embs, labels, fe, fl.
    split; [reflexivity|]. split; [exact Hd|]. split; [exact Hload|].
    split; [exact Hfilter|]. intros Hfl.
    destruct (classify_votes encode fs st txt k excl Hwf)
      as (embs' & labels' & fe' & fl' & Hload' & Hfilter' & Hflen & Hv).
    rewrite Hload in Hload'. injection Hload' as <- <-.
    rewrite Hfilter in Hfilter'. injection Hfilter' as <- <-.
    specialize (Hv Hfl). cbv zeta in Hv. rewrite Hc in Hv. cbn [snd] in Hv.
    injection Hv as _ _ Hns.
    assert (Hls : len (matvec fe (encode (format_query (slice_to txt 4000))))
                  = len fl)
      by (unfold len, matvec; now rewrite length_map, Hflen).
    rewrite Hns. split.
    + rewrite Hcount, Hls. reflexivity.
    + intros Hk.
      destruct (Hhead (matvec fe (encode (format_query (slice_to txt 4000))))
                      fl k) as (first & rest & E & Hr & Hm);
        [|exact Hk|].
      * intros Hnil. rewrite Hnil in Hls. unfold len in Hls. simpl in Hls.
        destruct fl; [now apply Hfl|discriminate Hls].
      * exists first, rest. split; [exact E|]. split; [exact Hr|].
        intros x Hx. apply Hm. unfold matvec.
        apply (in_map (fun row => dot row
                         (encode (format_query (slice_to txt 4000))))).
        exact Hx.
Qed.

Lemma neighbors_by_descending_similarity_witness :
  (embeddings_enw <> [] /\
   List.length embeddings_enw = List.length labels_abc /\
   (0 <= 2)%Z /\
   exists v,
     ClassifyKnn.classify_knn dot east embeddings_enw labels_abc 2 = Some v /\
     ClassifyKnn.neighbors v =
       [mkNeighbor "a.md" "scam A" 1 true; mkNeighbor "b.md" "scam B" 0 true] /\
     descending (ClassifyKnn.neighbors v) /\
     forall e, In e embeddings_enw -> dot east e <= 1) /\
  (store_wf Classifier.new_instance /\
   exists b c ns,
     snd (Classifier.classify encode_turn fs_two_eml Classifier.new_instance
                              hello 3 None) = Some (b, c, ns) /\
     ns = [mkNeighbor "email/sample-1.eml" "Banking points scam" 1 true;
           mkNeighbor "email/sample-4.eml" "Newsletter unsubscribe" 0 false] /\
     descending ns /\ len ns = 2%Z).
Proof.
  split.
  - split; [discriminate|]. split; [reflexivity|]. split; [lia|].
    destruct (proj1 neighbors_by_descending_similarity dot east embeddings_enw
                    labels_abc 2%Z ltac:(discriminate) eq_refl)
      as (v & Hv & Hd & _ & Hfirst).
    destruct (Hfirst ltac:(lia)) as (first & rest & E & _ & Hmax).
    exists v. split; [exact Hv|].
    assert (Hn : ClassifyKnn.neighbors v =
                 [mkNeighbor "a.md" "scam A" 1 true;
                  mkNeighbor "b.md" "scam B" 0 true])
      by (vm_compute in Hv; injection Hv as <-; reflexivity).
    split; [exact Hn|]. split; [exact Hd|].
    intros x Hx. rewrite Hn in E. injection E as <- _.
    exact (Hmax x Hx).
  - split; [exact I|].
    destruct (proj2 neighbors_by_descending_similarity encode_turn fs_two_eml
                    Classifier.new_instance hello 3%Z None I)
      as (b & c & ns & embs & labels & fe & fl & Hv & Hd & Hload & Hfilter & Hsel).
    exists b, c, ns. split; [exact Hv|].
    assert (Hn : ns =
       [mkNeighbor "email/sample-1.eml" "Banking points scam" 1 true;
        mkNeighbor "email/sample-4.eml" "Newsletter unsubscribe" 0 false])
      by (vm_compute in Hv; injection Hv as _ _ <-; reflexivity).
    split; [exact Hn|]. split; [exact Hd|].
    vm_compute in Hload. injection Hload as <- <-.
    vm_compute in Hfilter. injection Hfilter as <- <-.
    exact (proj1 (Hsel ltac:(discriminate))).
Defined.


(** ** Loading the examples *)

Lemma load_loop_nothing (fs : string -> option text) :
  forall table texts labels,
    (forall filepath info, In (filepath, info) table ->
       fs filepath = None \/ fs filepath = Some []) ->
    Classifier.load_loop fs table texts labels = (texts, labels).
Proof.
  induction table as [|[filepath info] rest IH]; intros texts labels H;
    [reflexivity|].
  simpl. destruct (H filepath info (or_introl eq_refl)) as [-> | ->];
    apply IH; intros f i Hin; apply (H f i); now right.
Qed.

(** X29.  When no labelled example loads, [PhishingClassifier.classify]
    returns [(False, 0.0, [])] for every text, neighbour count and exclusion:
    on the first call, which finds every configured file missing or without
    text and caches an empty store, and on every call that finds a store
    without labels. *)
Theorem empty_store_safe_default (encode : text -> Emb)
    (fs : string -> option text) (txt : text) (k : Z)
    (exclude_file : option string) :
  ((forall filepath info,
      In (filepath, info) Classifier.LABELED_EXAMPLES ->
      fs filepath = None \/ fs filepath = Some []) ->
   Classifier.classify encode fs Classifier.new_instance txt k exclude_file =
     (Classifier.mkState (Some []) (Some []), Some (false, 0, []))) /\
  (forall st,
     Classifier._example_labels (Classifier._load_examples encode fs st)
       = Some [] ->
     snd (Classifier.classify encode fs st txt k exclude_file)
       = Some (false, 0, [])).
Proof.
  split.
  - intros Hfs. unfold Classifier.classify, Classifier._load_examples.
    cbn [Classifier.new_instance Classifier._example_embeddings].
    rewrite load_loop_nothing by exact Hfs. reflexivity.
  - intros st Hl. unfold Classifier.classify. cbn [snd]. rewrite Hl.
    destruct (Classifier._example_embeddings
                (Classifier._load_examples encode fs st)) as [e|] eqn:E.
    + reflexivity.
    + exfalso. unfold Classifier._load_examples in E.
      destruct (Classifier._example_embeddings st) eqn:E0; [congruence|].
      destruct (Classifier.load_loop fs Classifier.LABELED_EXAMPLES [] [])
        as [texts labels].
      destruct texts; discriminate E.
Qed.

Lemma empty_store_safe_default_witness :
  (forall filepath info,
     In (filepath, info) Classifier.LABELED_EXAMPLES ->
     fs_none filepath = None \/ fs_none filepath = Some []) /\
  Classifier.classify encode_sign fs_none Classifier.new_instance hello 3
                      (Some "email/sample-1.eml") =
    (Classifier.mkState (Some []) (Some []), Some (false, 0, [])) /\
  snd (Classifier.classify encode_sign fs_none
         (Classifier.mkState (Some []) (Some [])) hello 3 None)
    = Some (false, 0, []).
Proof.
  assert (H : forall filepath info,
     In (filepath, info) Classifier.LABELED_EXAMPLES ->
     fs_none filepath = None \/ fs_none filepath = Some [])
    by (intros; left; reflexivity).
  split; [exact H|]. split.
  - exact (proj1 (empty_store_safe_default encode_sign fs_none hello 3
                    (Some "email/sample-1.eml")) H).
  - exact (proj2 (empty_store_safe_default encode_sign fs_none hello 3 None)
             (Classifier.mkState (Some []) (Some [])) eq_refl).
Defined.

(** The loader of [classify_knn.py] keeps an empty file and embeds a text of
    4001 characters whole: the two stored texts have 0 and 4001 characters,
    and the passages given to the encoder have 9 and 4010 (the marker
    ["passage: "] has 9). *)
Lemma main_examples_unchecked :
  exists texts labels embeddings,
    ClassifyKnn.main_examples encode_len fs_md = (texts, labels, embeddings) /\
    map lbl_file labels = ["email/sample-1.md"; "email/sample-2.md"] /\
    fs_md "email/sample-1.md" = Some [] /\
    nth_error texts 0 = Some [] /\
    map len texts = [0; 4001]%Z /\
    embeddings = [[9]; [4010]] /\
    ~ (forall t, In t texts -> t <> [] /\ (len t <= 4000)%Z).
Proof.
  eexists _, _, _. split; [vm_compute; reflexivity|].
  repeat split; try reflexivity.
  intros H. destruct (H [] (or_introl eq_refl)) as [Hne _]. now apply Hne.
Qed.

(** C9 (amended).  Every example [classifier.py] places in its store comes
    from a configured identifier whose file exists and has non-empty text,
    and its text is cut to at most 4000 characters before the store embeds
    the texts as passages, in one batch. *)
Theorem store_examples_resolved_and_truncated (encode : text -> Emb)
    (fs : string -> option text) :
  exists texts labels,
    Classifier.load_loop fs Classifier.LABELED_EXAMPLES [] [] = (texts, labels) /\
    Forall2 (fun t lab =>
               exists info content,
                 In (lbl_file lab, info) Classifier.LABELED_EXAMPLES /\
                 fs (lbl_file lab) = Some content /\
                 content <> [] /\
                 t = slice_to content 4000 /\
                 t <> [] /\
                 (len t <= 4000)%Z)
            texts labels /\
    Classifier._load_examples encode fs Classifier.new_instance =
      Classifier.mkState
        (Some (map (fun t => encode (format_passage t)) texts))
        (Some labels).
Proof.
  destruct (@load_loop_spec fs Classifier.LABELED_EXAMPLES
              Classifier.LABELED_EXAMPLES [] [] (incl_refl _))
    as (T & L & HL & HF).
  cbn [app] in HL. exists T, L. split; [exact HL|]. split.
  - eapply Forall2_impl; [|exact HF].
    intros t lab (info & content & Hin & _ & _ & Hfs & Hne & Ht).
    exists info, content. repeat split; try assumption.
    + rewrite Ht. apply slice_to_nonempty; [lia|assumption].
    + rewrite Ht. apply slice_to_bound. lia.
  - unfold Classifier._load_examples.
    cbn [Classifier.new_instance Classifier._example_embeddings].
    rewrite HL. destruct T as [|t T].
    + inversion HF. reflexivity.
    + reflexivity.
Qed.


(** ** Python's [max] with a key *)

Section MaxBy.
Context {A : Type}.
Variable key : A -> Q.

Lemma max_from_in (xs : list A) :
  forall best, In (max_from key best xs) (best :: xs).
Proof.
  induction xs as [|x xs IH]; intros best; simpl max_from; [now left|].
  destruct (IH (if gt (key x) (key best) then x else best)) as [H|H].
  - destruct (gt (key x) (key best)); rewrite <- H;
      [right; now left|now left].
  - right; now right.
Qed.

Lemma max_from_ge (xs : list A) :
  forall best y, In y (best :: xs) -> key y <= key (max_from key best xs).
Proof.
  induction xs as [|x xs IH]; intros best y Hy; simpl max_from.
  - destruct Hy as [<-|[]]. apply Qle_refl.
  - set (best' := if gt (key x) (key best) then x else best).
    assert (Hb : key best <= key best' /\ key x <= key best').
    { unfold best'. destruct (gt (key x) (key best)) eqn:E.
      - apply gt_true_iff in E. split; [now apply Qlt_le_weak|apply Qle_refl].
      - apply gt_false_iff in E. split; [apply Qle_refl|exact E]. }
    destruct Hy as [<-|[<-|Hy]].
    + apply Qle_trans with (key best'); [apply Hb|]. apply IH. now left.
    + apply Qle_trans with (key best'); [apply Hb|]. apply IH. now left.
    + apply IH. now right.
Qed.

Lemma max_by_spec (xs : list A) :
  xs <> [] ->
  exists best,
    max_by key xs = Some best /\ In best xs /\
    forall y, In y xs -> key y <= key best.
Proof.
  destruct xs as [|x xs]; [congruence|]. intros _.
  exists (max_from key x xs). split; [reflexivity|].
  split; [apply max_from_in|apply max_from_ge].
Qed.

End MaxBy.

(** ** The chunk aggregator *)

(** Lines 156-173 on any non-empty list of chunk verdicts. *)
Lemma aggregate_spec (chunks : list text) (results : list ChunkResult) :
  results <> [] ->
  exists best,
    aggregate chunks results =
      Some (mkEmailVerdict (existsb cr_is_phishing results)
                           (cr_confidence best) (cr_neighbors best)
                           (len chunks)
                           (len (filter cr_is_phishing results)) results) /\
    In best results /\
    (existsb cr_is_phishing results = true ->
     cr_is_phishing best = true /\
     forall c, In c results -> cr_is_phishing c = true ->
               cr_confidence c <= cr_confidence best) /\
    (existsb cr_is_phishing results = false ->
     forall c, In c results -> cr_confidence c <= cr_confidence best).
Proof.
  intros Hne. unfold aggregate.
  destruct (existsb cr_is_phishing results) eqn:E.
  - assert (Hf : filter cr_is_phishing results <> []).
    { apply existsb_exists in E. destruct E as (c & Hc & Hp).
      intros Hnil. assert (Hin : In c (filter cr_is_phishing results))
        by (apply filter_In; now split).
      rewrite Hnil in Hin. exact Hin. }
    destruct (max_by_spec cr_confidence Hf) as (best & -> & Hin & Hmax).
    apply filter_In in Hin. destruct Hin as [Hin Hp].
    exists best. split; [reflexivity|]. split; [assumption|]. split.
    + intros _. split; [assumption|]. intros c Hc Hcp.
      apply Hmax, filter_In. now split.
    + discriminate.
  - destruct (max_by_spec cr_confidence Hne) as (best & -> & Hin & Hmax).
    exists best. split; [reflexivity|]. split; [assumption|]. split.
    + discriminate.
    + intros _. exact Hmax.
Qed.

(** The any-match law of the specification: a legitimate chunk of confidence
    0.9 followed by a phishing chunk of confidence 0.2 gives a phishing email
    with the confidence and the neighbours of the second chunk. *)
Example aggregate_any_match :
  let n := mkNeighbor "a.md" "scam A" (1 # 5) true in
  aggregate [hello; hello]
    [mkChunkResult false (9 # 10) [] 0 hello;
     mkChunkResult true (2 # 10) [n] 1 hello] =
  Some (mkEmailVerdict true (2 # 10) [n] 2 1
          [mkChunkResult false (9 # 10) [] 0 hello;
           mkChunkResult true (2 # 10) [n] 1 hello]).
Proof. reflexivity. Qed.

Section Aggregator.
Variable encode : text -> Emb.
Variable cosine : Emb -> Emb -> Q.

Lemma filter_loop_spec (f : string) (example_embeddings : list Emb) :
  forall rest i fe fl,
    List.length example_embeddings = (i + List.length rest)%nat ->
    exists FE,
      filter_loop f example_embeddings rest i fe fl =
        Some (fe ++ FE, fl ++ filter (keep f) rest) /\
      List.length FE = List.length (filter (keep f) rest) /\
      (filter (keep f) rest = rest -> FE = skipn i example_embeddings).
Proof.
  induction rest as [|lab rest IH]; intros i fe fl Hlen.
  - exists []. simpl. rewrite !app_nil_r. repeat split.
    intros _. symmetry. apply skipn_all2. simpl in Hlen. lia.
  - simpl in Hlen. simpl filter_loop. simpl filter.
    change (negb (String.eqb (lbl_file lab) f)) with (keep f lab).
    destruct (keep f lab) eqn:E.
    + unfold getitem.
      destruct (nth_error example_embeddings i) as [e|] eqn:En.
      * destruct (IH (S i) (fe ++ [e]) (fl ++ [lab])) as (FE & HF & HL & HA);
          [lia|].
        exists (e :: FE). rewrite HF, <- !app_assoc. split; [reflexivity|].
        split; [simpl; now rewrite HL|].
        intros Hall. injection Hall as Hall. rewrite (HA Hall).
        clear - En. revert i En.
        induction example_embeddings as [|x l IHl]; intros [|i] En;
          simpl in *; try discriminate.
        -- now injection En as ->.
        -- now apply IHl.
      * apply nth_error_None in En. lia.
    + destruct (IH (S i) fe fl) as (FE & HF & HL & HA); [lia|].
      exists FE. split; [exact HF|]. split; [exact HL|].
      intros Hall. exfalso.
      assert (Hin : In lab (filter (keep f) rest))
        by (rewrite Hall; now left).
      apply filter_In in Hin. destruct Hin as [Hin _].
      pose proof (filter_length_le (keep f) rest) as Hle.
      rewrite Hall in Hle. simpl in Hle. lia.
Qed.

(** The example set a call of [classify_with_chunking] votes on: the
    examples left after the exclusion, unless none is left. *)
Lemma use_examples_result (example_embeddings : list Emb)
    (example_labels : list Label) (exclude_file : option string) :
  List.length example_embeddings = List.length example_labels ->
  exists ue ul,
    use_examples example_embeddings example_labels exclude_file
      = Some (ue, ul) /\
    List.length ue = List.length ul /\
    match exclude_file with
    | Some f =>
        if truthy exclude_file then
          match filter (keep f) example_labels with
          | [] => ue = example_embeddings /\ ul = example_labels
          | kept => ul = kept
          end
        else ue = example_embeddings /\ ul = example_labels
    | None => ue = example_embeddings /\ ul = example_labels
    end.
Proof.
  intros Hlen. unfold use_examples.
  destruct exclude_file as [f|];
    [|exists example_embeddings, example_labels; now repeat split].
  destruct (truthy (Some f));
    [|exists example_embeddings, example_labels; now repeat split].
  destruct (@filter_loop_spec f example_embeddings example_labels 0 [] [])
    as (FE & HF & HL & _); [simpl; lia|].
  rewrite HF. cbn [app].
  destruct (filter (keep f) example_labels) as [|lab kept] eqn:E.
  - destruct FE; [|discriminate HL].
    exists example_embeddings, example_labels. now repeat split.
  - destruct FE as [|e FE]; [discriminate HL|].
    exists (e :: FE), (lab :: kept). now repeat split.
Qed.

Lemma use_examples_nonempty (example_embeddings : list Emb)
    (example_labels : list Label) (exclude_file : option string)
    (ue : list Emb) (ul : list Label) :
  example_embeddings <> [] ->
  use_examples example_embeddings example_labels exclude_file = Some (ue, ul) ->
  ue <> [].
Proof.
  intros Hne. unfold use_examples.
  destruct exclude_file as [f|]; [|now intros [= <- <-]].
  destruct (truthy (Some f)); [|now intros [= <- <-]].
  destruct (filter_loop f example_embeddings example_labels 0 [] [])
    as [[fe fl]|]; [|discriminate].
  destruct fe; intros [= <- _]; [exact Hne|discriminate].
Qed.

Lemma chunk_results_loop_spec (use_embeddings : list Emb)
    (use_labels : list Label) (k : Z) :
  use_embeddings <> [] ->
  List.length use_embeddings = List.length use_labels ->
  forall chunks i acc,
    exists results,
      chunk_results_loop encode cosine use_embeddings use_labels k chunks i acc
        = Some (acc ++ results) /\
      Forall2 (verdict_of_chunk encode cosine use_embeddings use_labels k)
              chunks results /\
      forall j cr, nth_error results j = Some cr ->
                   chunk_index cr = (i + Z.of_nat j)%Z.
Proof.
  intros Hsome Hlen. induction chunks as [|chunk rest IH]; intros i acc.
  - exists []. simpl. rewrite app_nil_r. repeat split; [constructor|].
    intros [|j] cr H; discriminate H.
  - cbn [chunk_results_loop embed_texts map nth_error].
    pose proof (@classify_knn_result cosine (encode (format_query chunk))
                  use_embeddings use_labels k Hsome Hlen) as Hk.
    cbv zeta in Hk. rewrite Hk.
    cbn [is_phishing confidence neighbors].
    match goal with
    | |- context [chunk_results_loop _ _ _ _ _ rest _ (acc ++ [?c])] =>
        set (cr := c)
    end.
    destruct (IH (i + 1)%Z (acc ++ [cr])) as (results & HR & HF & HI).
    exists (cr :: results). rewrite HR, <- app_assoc. split; [reflexivity|].
    split.
    + constructor; [|exact HF]. eexists. split; [exact Hk|]. now repeat split.
    + intros [|j] c H; simpl in H.
      * injection H as <-. simpl. lia.
      * rewrite (HI j c H). lia.
Qed.

(** What [classify_with_chunking] returns: the aggregate of one verdict per
    chunk, each voted on the same example set. *)
Lemma classify_with_chunking_result (content : text)
    (example_embeddings : list Emb) (example_labels : list Label) (k : Z)
    (exclude_file : option string) :
  example_embeddings <> [] ->
  List.length example_embeddings = List.length example_labels ->
  exists ue ul chunks results,
    use_examples example_embeddings example_labels exclude_file
      = Some (ue, ul) /\
    List.length ue = List.length ul /\
    chunk_text content CHUNK_SIZE CHUNK_OVERLAP = Some chunks /\
    Forall2 (verdict_of_chunk encode cosine ue ul k) chunks results /\
    results <> [] /\
    classify_with_chunking encode cosine content example_embeddings
                           example_labels k exclude_file
      = aggregate chunks results.
Proof.
  intros Hsome Hlen.
  destruct (use_examples_result example_embeddings example_labels
              exclude_file Hlen) as (ue & ul & HU & HUL & _).
  pose proof (use_examples_nonempty _ _ Hsome HU) as Hue.
  destruct (@chunk_text_covers content CHUNK_SIZE CHUNK_OVERLAP)
    as (chunks & HC & _); [unfold CHUNK_SIZE, CHUNK_OVERLAP; lia|].
  destruct (@chunk_results_loop_spec ue ul k Hue HUL chunks 0%Z [])
    as (results & HR & HF & _).
  exists ue, ul, chunks, results.
  unfold classify_with_chunking. rewrite HU, HC, HR. cbn [app].
  repeat split; try assumption.
  intros ->. inversion HF; subst.
  revert HC. apply chunk_text_nonempty. unfold CHUNK_SIZE. lia.
Qed.

Lemma keep_true_iff (f : string) (lab : Label) :
  keep f lab = true <-> lbl_file lab <> f.
Proof.
  unfold keep. rewrite negb_true_iff. apply String.eqb_neq.
Qed.

Lemma filter_keep_none (f : string) (labels : list Label) :
  (forall lab, In lab labels -> lbl_file lab = f) ->
  filter (keep f) labels = [].
Proof.
  intros H. induction labels as [|lab labels IH]; [reflexivity|].
  simpl. destruct (keep f lab) eqn:E.
  - apply keep_true_iff in E. exfalso. apply E, H. now left.
  - apply IH. intros l Hl. apply H. now right.
Qed.

(** The neighbours of every chunk verdict carry the file of a label of the
    example set the chunk was voted on. *)
Lemma verdict_of_chunk_files (use_embeddings : list Emb)
    (use_labels : list Label) (k : Z) (chunk : text) (cr : ChunkResult) :
  List.length use_embeddings = List.length use_labels ->
  verdict_of_chunk encode cosine use_embeddings use_labels k chunk cr ->
  forall n, In n (cr_neighbors cr) ->
            exists lab, In lab use_labels /\ nb_file n = lbl_file lab.
Proof.
  intros Hlen (v & Hv & _ & _ & Hn & _) n Hin.
  assert (Hsome : use_embeddings <> [])
    by (intros ->; rewrite classify_knn_no_example in Hv; discriminate Hv).
  rewrite classify_knn_result in Hv by assumption. cbv zeta in Hv.
  injection Hv as <-. rewrite Hn in Hin. cbn [neighbors] in Hin.
  destruct (@neighbors_from_labels _ use_labels k n
              ltac:(rewrite length_map; exact Hlen) Hin)
    as (lab & Hl & Hf & _).
  now exists lab.
Qed.

End Aggregator.


(** C2.  [classify_with_chunking] returns, for every text and every example
    set of at least one example with one label per embedding (the call
    raises without an example), a verdict built from one voter verdict
    per chunk: the email is phishing exactly when some chunk's verdict is,
    and its confidence and neighbours are those of one chunk [best]: a
    phishing chunk of highest confidence among the phishing chunks when there
    is one, a chunk of highest confidence among all chunks otherwise. *)
Theorem any_chunk_positive (encode : text -> Emb) (cosine : Emb -> Emb -> Q)
    (content : text) (example_embeddings : list Emb)
    (example_labels : list Label) (k : Z) (exclude_file : option string) :
  example_embeddings <> [] ->
  List.length example_embeddings = List.length example_labels ->
  exists r ue ul chunks,
    classify_with_chunking encode cosine content example_embeddings
                           example_labels k exclude_file = Some r /\
    use_examples example_embeddings example_labels exclude_file
      = Some (ue, ul) /\
    chunk_text content CHUNK_SIZE CHUNK_OVERLAP = Some chunks /\
    Forall2 (verdict_of_chunk encode cosine ue ul k) chunks (chunk_results r) /\
    (ev_is_phishing r = true <->
     exists c, In c (chunk_results r) /\ cr_is_phishing c = true) /\
    exists best,
      In best (chunk_results r) /\
      ev_confidence r = cr_confidence best /\
      ev_neighbors r = cr_neighbors best /\
      (ev_is_phishing r = true ->
       cr_is_phishing best = true /\
       forall c, In c (chunk_results r) -> cr_is_phishing c = true ->
                 cr_confidence c <= cr_confidence best) /\
      (ev_is_phishing r = false ->
       forall c, In c (chunk_results r) ->
                 cr_confidence c <= cr_confidence best).
Proof.
  intros Hsome Hlen.
  destruct (@classify_with_chunking_result encode cosine content
              example_embeddings example_labels k exclude_file Hsome Hlen)
    as (ue & ul & chunks & results & HU & _ & HC & HF & Hne & Hagg).
  destruct (aggregate_spec chunks Hne) as (best & Hbest & Hin & Hp & Hl).
  rewrite Hbest in Hagg.
  eexists _, ue, ul, chunks. split; [exact Hagg|].
  cbn [chunk_results ev_is_phishing ev_confidence ev_neighbors].
  split; [exact HU|]. split; [exact HC|]. split; [exact HF|]. split.
  - rewrite existsb_exists. reflexivity.
  - exists best. repeat split; try assumption; try (apply Hp; assumption).
Qed.

Lemma any_chunk_positive_witness :
  embeddings_ca <> [] /\
  List.length embeddings_ca = List.length labels_ca /\
  exists r,
    classify_with_chunking encode_turn dot text_1500 embeddings_ca labels_ca 3
                           None = Some r /\
    ev_is_phishing r = true /\
    map cr_is_phishing (chunk_results r) = [false; true] /\
    exists best,
      In best (chunk_results r) /\ cr_is_phishing best = true /\
      ev_confidence r = cr_confidence best /\
      ev_neighbors r = cr_neighbors best.
Proof.
  split; [discriminate|]. split; [reflexivity|].
  destruct (@any_chunk_positive encode_turn dot text_1500 embeddings_ca
              labels_ca 3%Z None ltac:(discriminate) eq_refl)
    as (r & ue & ul & chunks & Hr & _ & _ & _ & _ & best & Hin & Hc & Hn & Hp & _).
  assert (Hv : ev_is_phishing r = true /\
               map cr_is_phishing (chunk_results r) = [false; true])
    by (vm_compute in Hr; injection Hr as <-; split; reflexivity).
  destruct Hv as [Hv Hm].
  exists r. split; [exact Hr|]. split; [exact Hv|]. split; [exact Hm|].
  exists best. split; [exact Hin|]. split; [exact (proj1 (Hp Hv))|].
  split; [exact Hc|exact Hn].
Defined.

(** ** Leave-one-out exclusion *)

(** [PhishingClassifier.classify] has no fallback: with a store whose only
    example is the excluded file, the call returns the default without a
    vote, whereas the unfiltered set gives a neighbour. *)
Lemma classify_without_fallback :
  Classifier._example_labels
    (Classifier._load_examples encode_sign fs_one Classifier.new_instance)
    = Some [mkLabel "email/sample-1.eml" true "Banking points scam"] /\
  snd (Classifier.classify encode_sign fs_one Classifier.new_instance hello 3
                           (Some "email/sample-1.eml"))
    = Some (false, 0, []) /\
  snd (Classifier.classify encode_sign fs_one Classifier.new_instance hello 3
                           None)
    = Some (true, 1,
            [mkNeighbor "email/sample-1.eml" "Banking points scam" 1 true]) /\
  snd (Classifier.classify encode_sign fs_one Classifier.new_instance hello 3
                           (Some "email/sample-1.eml"))
    <> snd (Classifier.classify encode_sign fs_one Classifier.new_instance
                                hello 3 None).
Proof.
  repeat split; try (vm_compute; reflexivity).
  vm_compute. discriminate.
Qed.

(** C3 (amended).  When the exclusion would remove every example of a
    non-empty example set, [classify_with_chunking] works on the unfiltered
    set: the call returns, and it returns what the call without
    [exclude_file] returns.  [PhishingClassifier.classify] has no such
    fallback: there the call returns [(False, 0.0, [])]. *)
Theorem exclusion_of_every_example :
  (forall encode cosine content example_embeddings example_labels k f,
     example_embeddings <> [] ->
     List.length example_embeddings = List.length example_labels ->
     (forall lab, In lab example_labels -> lbl_file lab = f) ->
     (exists r,
        classify_with_chunking encode cosine content example_embeddings
                               example_labels k (Some f) = Some r) /\
     use_examples example_embeddings example_labels (Some f)
       = Some (example_embeddings, example_labels) /\
     classify_with_chunking encode cosine content example_embeddings
                            example_labels k (Some f) =
     classify_with_chunking encode cosine content example_embeddings
                            example_labels k None) /\
  (forall encode fs st txt k f labels,
     store_wf st ->
     truthy (Some f) = true ->
     Classifier._example_labels (Classifier._load_examples encode fs st)
       = Some labels ->
     (forall lab, In lab labels -> lbl_file lab = f) ->
     snd (Classifier.classify encode fs st txt k (Some f))
       = Some (false, 0, [])).
Proof.
  split.
  - intros encode cosine content embs labels k f Hsome Hlen Hall.
    assert (HU : use_examples embs labels (Some f) = Some (embs, labels)).
    { destruct (use_examples_result embs labels (Some f) Hlen)
        as (ue & ul & HU & _ & Hshape).
      rewrite (@filter_keep_none f labels Hall) in Hshape.
      destruct (truthy (Some f)); destruct Hshape as [-> ->]; exact HU. }
    split; [|split; [exact HU|]].
    + destruct (@classify_with_chunking_result encode cosine content
                  embs labels k (Some f) Hsome Hlen)
        as (ue & ul & chunks & results & _ & _ & _ & _ & Hne & Hagg).
      destruct (aggregate_spec chunks Hne) as (best & Hbest & _).
      rewrite Hbest in Hagg. eexists. exact Hagg.
    + unfold classify_with_chunking. rewrite HU. reflexivity.
  - intros encode fs st txt k f labels Hwf Ht Hl Hall.
    destruct (classify_result encode fs st txt k (Some f) Hwf)
      as (embs & labels' & fe & fl & ns & Hload & Hfilter & Hc & _ & _ & Hnil).
    rewrite Hload in Hl. cbn [Classifier._example_labels] in Hl.
    injection Hl as ->.
    assert (Hlen : List.length embs = List.length labels).
    { destruct (load_examples_loaded encode fs st Hwf) as (e & l & He & Hlen).
      rewrite Hload in He. now injection He as <- <-. }
    destruct (filter_examples_result embs labels (Some f) Hlen)
      as (fe' & fl' & Hfilter' & _ & Hfl).
    rewrite Hfilter in Hfilter'. injection Hfilter' as <- <-.
    rewrite Ht, (@filter_keep_none f labels Hall) in Hfl.
    rewrite Hc, (Hnil Hfl). reflexivity.
Qed.

Lemma exclusion_of_every_example_witness :
  ([east] <> [] /\
   List.length [east] = List.length [label_a] /\
   (forall lab, In lab [label_a] -> lbl_file lab = "a.md") /\
   (exists r,
      classify_with_chunking encode_sign dot hello [east] [label_a] 3
                             (Some "a.md") = Some r) /\
   classify_with_chunking encode_sign dot hello [east] [label_a] 3
                          (Some "a.md") =
   classify_with_chunking encode_sign dot hello [east] [label_a] 3 None) /\
  (store_wf Classifier.new_instance /\
   truthy (Some "email/sample-1.eml") = true /\
   snd (Classifier.classify encode_sign fs_one Classifier.new_instance hello 3
                            (Some "email/sample-1.eml"))
     = Some (false, 0, [])).
Proof.
  assert (Ha : forall lab, In lab [label_a] -> lbl_file lab = "a.md")
    by (intros lab [<-|[]]; reflexivity).
  split.
  - split; [discriminate|]. split; [reflexivity|]. split; [exact Ha|].
    destruct (proj1 exclusion_of_every_example encode_sign dot hello
                [east] [label_a] 3%Z "a.md" ltac:(discriminate) eq_refl Ha)
      as (Hr & _ & Heq).
    split; [exact Hr|exact Heq].
  - split; [exact I|]. split; [reflexivity|].
    apply (proj2 exclusion_of_every_example encode_sign fs_one
             Classifier.new_instance hello 3%Z "email/sample-1.eml"
             [mkLabel "email/sample-1.eml" true "Banking points scam"]);
      [exact I|reflexivity|reflexivity|].
    intros lab [<-|[]]; reflexivity.
Defined.

(** The fallback of [classify_with_chunking] returns the excluded example:
    with a store whose only example is the excluded file, that example is the
    neighbour. *)
Lemma fallback_returns_excluded :
  exists r,
    classify_with_chunking encode_sign dot hello [east] [label_a] 3
                           (Some (lbl_file label_a)) = Some r /\
    ev_neighbors r = [mkNeighbor "a.md" "scam A" 1 true] /\
    ~ (forall n, In n (ev_neighbors r) -> nb_file n <> lbl_file label_a).
Proof.
  eexists. split; [vm_compute; reflexivity|].
  cbn [ev_neighbors]. split; [reflexivity|].
  intros H. apply (H _ (or_introl eq_refl)). reflexivity.
Qed.

(** C4 (amended).  For a non-empty [exclude_file],
    [PhishingClassifier.classify] never returns a neighbour with that
    identifier, and neither does [classify_with_chunking], in the reported
    neighbours or in those of any chunk, as long as some example has another
    identifier. *)
Theorem excluded_example_not_a_neighbor :
  (forall encode fs st txt k f,
     store_wf st ->
     truthy (Some f) = true ->
     exists b c ns,
       snd (Classifier.classify encode fs st txt k (Some f))
         = Some (b, c, ns) /\
       forall n, In n ns -> nb_file n <> f) /\
  (forall encode cosine content example_embeddings example_labels k f,
     List.length example_embeddings = List.length example_labels ->
     truthy (Some f) = true ->
     (exists lab, In lab example_labels /\ lbl_file lab <> f) ->
     exists r,
       classify_with_chunking encode cosine content example_embeddings
                              example_labels k (Some f) = Some r /\
       (forall n, In n (ev_neighbors r) -> nb_file n <> f) /\
       (forall c n, In c (chunk_results r) -> In n (cr_neighbors c) ->
                    nb_file n <> f)).
Proof.
  split.
  - intros encode fs st txt k f Hwf Ht.
    destruct (classify_result encode fs st txt k (Some f) Hwf)
      as (embs & labels & fe & fl & ns & Hload & Hfilter & Hc & _ & Hfrom & _).
    assert (Hlen : List.length embs = List.length labels).
    { destruct (load_examples_loaded encode fs st Hwf) as (e & l & He & Hlen).
      rewrite Hload in He. now injection He as <- <-. }
    destruct (filter_examples_result embs labels (Some f) Hlen)
      as (fe' & fl' & Hfilter' & _ & Hfl).
    rewrite Hfilter in Hfilter'. injection Hfilter' as <- <-.
    rewrite Ht in Hfl.
    rewrite Hc. eexists _, _, ns. split; [reflexivity|].
    intros n Hn. destruct (Hfrom n Hn) as (lab & Hlab & ->).
    rewrite Hfl in Hlab. apply filter_In in Hlab.
    now apply keep_true_iff.
  - intros encode cosine content embs labels k f Hlen Ht (lab0 & Hin0 & Hne0).
    assert (Hsome : embs <> [])
      by (intros ->; destruct labels; [exact Hin0|discriminate Hlen]).
    destruct (@classify_with_chunking_result encode cosine content
                embs labels k (Some f) Hsome Hlen)
      as (ue & ul & chunks & results & HU & HUL & HC & HF & Hne & Hagg).
    assert (Hul : ul = filter (keep f) labels).
    { destruct (use_examples_result embs labels (Some f) Hlen)
        as (ue' & ul' & HU' & _ & Hshape).
      rewrite HU in HU'. injection HU' as <- <-.
      rewrite Ht in Hshape.
      destruct (filter (keep f) labels) as [|x kept] eqn:E; [|exact Hshape].
      exfalso. assert (Hk : In lab0 (filter (keep f) labels))
        by (apply filter_In; split; [exact Hin0|now apply keep_true_iff]).
      rewrite E in Hk. exact Hk. }
    assert (Hchunks : forall c n, In c results -> In n (cr_neighbors c) ->
                                  nb_file n <> f).
    { intros c n Hc Hn.
      destruct (@Forall2_In_r _ _ _ _ _ c HF Hc) as (chunk & _ & Hv).
      destruct (verdict_of_chunk_files HUL Hv n Hn) as (lab & Hlab & ->).
      rewrite Hul in Hlab. apply filter_In in Hlab.
      now apply keep_true_iff. }
    destruct (aggregate_spec chunks Hne) as (best & Hbest & Hin & _).
    rewrite Hbest in Hagg. eexists. split; [exact Hagg|].
    cbn [ev_neighbors chunk_results]. split; [|exact Hchunks].
    intros n Hn. exact (Hchunks best n Hin Hn).
Qed.

Lemma excluded_example_not_a_neighbor_witness :
  (store_wf Classifier.new_instance /\
   truthy (Some "email/sample-4.eml") = true /\
   exists b c ns,
     snd (Classifier.classify encode_sign fs_eml Classifier.new_instance
                              hello 3 (Some "email/sample-4.eml"))
       = Some (b, c, ns) /\
     forall n, In n ns -> nb_file n <> "email/sample-4.eml") /\
  (List.length embeddings_abc = List.length labels_abc /\
   truthy (Some "a.md") = true /\
   (exists lab, In lab labels_abc /\ lbl_file lab <> "a.md") /\
   exists r,
     classify_with_chunking encode_sign dot hello embeddings_abc labels_abc 3
                            (Some "a.md") = Some r /\
     forall n, In n (ev_neighbors r) -> nb_file n <> "a.md").
Proof.
  assert (Hb : exists lab, In lab labels_abc /\ lbl_file lab <> "a.md")
    by (exists label_b; split; [right; left; reflexivity|discriminate]).
  split.
  - split; [exact I|]. split; [reflexivity|].
    exact (proj1 excluded_example_not_a_neighbor encode_sign fs_eml
             Classifier.new_instance hello 3%Z "email/sample-4.eml" I eq_refl).
  - split; [reflexivity|]. split; [reflexivity|]. split; [exact Hb|].
    destruct (proj2 excluded_example_not_a_neighbor encode_sign dot hello
                embeddings_abc labels_abc 3%Z "a.md" eq_refl eq_refl Hb)
      as (r & Hr & Hn & _).
    now exists r.
Defined.

(** * Further properties *)

(** ** A calculus of slices *)

Section SliceCalculus.
Context {A : Type}.

Lemma nth_error_slice_nonneg (l : list A) (a b : Z) (i : nat) :
  (0 <= a)%Z -> (0 <= b)%Z ->
  nth_error (slice l a b) i =
  if (a + Z.of_nat i <? b)%Z then nth_error l (Z.to_nat a + i) else None.
Proof.
  intros Ha Hb. unfold slice, slice_index.
  destruct (Z.ltb_spec a 0); [lia|]. destruct (Z.ltb_spec b 0); [lia|].
  rewrite nth_error_firstn, nth_error_skipn. unfold len.
  destruct (Z.ltb_spec (a + Z.of_nat i) b);
    destruct (Nat.ltb_spec i
      (Z.to_nat (Z.min b (Z.of_nat (List.length l))
                 - Z.min a (Z.of_nat (List.length l)))));
    try reflexivity.
  - destruct (Z.le_gt_cases (Z.of_nat (List.length l)) a).
    + lia.
    + f_equal. lia.
  - symmetry. apply nth_error_None. lia.
  - lia.
Qed.

Lemma nth_error_slice_from (l : list A) (a : Z) (i : nat) :
  (0 <= a)%Z -> nth_error (slice_from l a) i = nth_error l (Z.to_nat a + i).
Proof.
  intros Ha. unfold slice_from, slice_index.
  destruct (Z.ltb_spec a 0); [lia|]. rewrite nth_error_skipn. unfold len.
  destruct (Z.le_gt_cases (Z.of_nat (List.length l)) a).
  - transitivity (@None A); [|symmetry]; apply nth_error_None; lia.
  - f_equal. lia.
Qed.

Lemma nth_error_slice_to (l : list A) (b : Z) (i : nat) :
  (0 <= b)%Z ->
  nth_error (slice_to l b) i =
  if (Z.of_nat i <? b)%Z then nth_error l i else None.
Proof.
  intros Hb. unfold slice_to, slice_index.
  destruct (Z.ltb_spec b 0); [lia|]. rewrite nth_error_firstn. unfold len.
  destruct (Z.ltb_spec (Z.of_nat i) b);
    destruct (Nat.ltb_spec i (Z.to_nat (Z.min b (Z.of_nat (List.length l)))));
    try reflexivity.
  - symmetry. apply nth_error_None. lia.
  - lia.
Qed.

(** Two slices that meet make one slice. *)
Lemma slice_app (l : list A) (a b c : Z) :
  (0 <= a <= b)%Z -> (b <= c)%Z -> slice l a b ++ slice l b c = slice l a c.
Proof.
  intros Hab Hbc. apply nth_error_ext. intros i.
  assert (Hlen : List.length (slice l a b)
                 = Z.to_nat (Z.min b (len l) - Z.min a (len l))).
  { pose proof (length_slice l Hab) as H. unfold len in *. lia. }
  destruct (Nat.ltb_spec i (List.length (slice l a b))) as [Hi|Hi].
  - rewrite nth_error_app1 by exact Hi.
    rewrite !nth_error_slice_nonneg by lia.
    destruct (Z.ltb_spec (a + Z.of_nat i) b);
      destruct (Z.ltb_spec (a + Z.of_nat i) c); try reflexivity; lia.
  - rewrite nth_error_app2 by exact Hi.
    rewrite !nth_error_slice_nonneg by lia. rewrite Hlen.
    unfold len in *.
    destruct (Z.le_gt_cases (Z.of_nat (List.length l)) b) as [Hb|Hb].
    + (* the first slice already reaches the end *)
      assert (Hn : forall j, (List.length l <= j)%nat -> nth_error l j = None)
        by (intros j Hj; now apply nth_error_None).
      destruct (_ <? c)%Z; destruct (_ <? c)%Z; try reflexivity;
        rewrite ?Hn; try reflexivity; lia.
    + replace (Z.to_nat b + (i - Z.to_nat (Z.min b (Z.of_nat (List.length l))
                                          - Z.min a (Z.of_nat (List.length l)))))%nat
        with (Z.to_nat a + i)%nat by lia.
      destruct (Z.ltb_spec (b + Z.of_nat (i - Z.to_nat
                 (Z.min b (Z.of_nat (List.length l))
                  - Z.min a (Z.of_nat (List.length l))))) c);
        destruct (Z.ltb_spec (a + Z.of_nat i) c); try reflexivity; lia.
Qed.

(** A slice of a slice, from the left. *)
Lemma slice_from_slice (l : list A) (a b o : Z) :
  (0 <= a)%Z -> (0 <= o)%Z -> (a + o <= b)%Z ->
  slice_from (slice l a b) o = slice l (a + o) b.
Proof.
  intros Ha Ho Hb. apply nth_error_ext. intros i.
  rewrite nth_error_slice_from by lia.
  rewrite !nth_error_slice_nonneg by lia.
  replace (a + Z.of_nat (Z.to_nat o + i))%Z with (a + o + Z.of_nat i)%Z by lia.
  destruct (_ <? b)%Z; [|reflexivity]. f_equal. lia.
Qed.

Lemma slice_to_slice (l : list A) (a b o : Z) :
  (0 <= a)%Z -> (0 <= o)%Z -> (a + o <= b)%Z ->
  slice_to (slice l a b) o = slice l a (a + o).
Proof.
  intros Ha Ho Hb. apply nth_error_ext. intros i.
  rewrite nth_error_slice_to by lia.
  rewrite !nth_error_slice_nonneg by lia.
  destruct (Z.ltb_spec (Z.of_nat i) o);
    destruct (Z.ltb_spec (a + Z.of_nat i) b);
    destruct (Z.ltb_spec (a + Z.of_nat i) (a + o)); try reflexivity; lia.
Qed.

Lemma slice_all (l : list A) (b : Z) : (len l <= b)%Z -> slice l 0 b = l.
Proof.
  intros Hb. apply nth_error_ext. intros i. pose proof (len_nonneg l).
  rewrite nth_error_slice_nonneg by lia. simpl.
  destruct (Z.ltb_spec (Z.of_nat i) b); [reflexivity|].
  symmetry. apply nth_error_None. unfold len in *. lia.
Qed.

End SliceCalculus.

(** ** More on the chunker *)

Lemma window_count_bounds (l chunk_size overlap : Z) :
  (0 <= overlap < chunk_size)%Z -> (chunk_size < l)%Z ->
  (2 <= window_count l chunk_size overlap)%nat /\
  ((Z.of_nat (window_count l chunk_size overlap) - 1) * (chunk_size - overlap)
     + overlap < l)%Z /\
  (l <= Z.of_nat (window_count l chunk_size overlap) * (chunk_size - overlap)
        + overlap)%Z.
Proof.
  intros Hov Hlong. unfold window_count.
  set (step := (chunk_size - overlap)%Z).
  set (m := ((l - overlap - 1) / step)%Z).
  assert (Hstep : (0 < step)%Z) by (unfold step; lia).
  assert (Hm1 : (m * step <= l - overlap - 1)%Z).
  { unfold m. rewrite Z.mul_comm. apply Z.mul_div_le; lia. }
  assert (Hm2 : (l - overlap - 1 < (m + 1) * step)%Z).
  { unfold m. rewrite Z.mul_comm.
    replace ((l - overlap - 1) / step + 1)%Z
      with (Z.succ ((l - overlap - 1) / step)) by lia.
    apply Z.mul_succ_div_gt; lia. }
  assert (Hm0 : (1 <= m)%Z).
  { unfold m. apply Z.div_le_lower_bound; unfold step in *; lia. }
  rewrite Nat2Z.inj_succ, Z2Nat.id by lia. repeat split; try lia.
Qed.

Lemma slice_empty {A} (l : list A) (a : Z) : slice l a a = [].
Proof. unfold slice. now rewrite Z.sub_diag. Qed.

Lemma concat_trimmed_windows (txt : text) (chunk_size overlap : Z) :
  (0 <= overlap < chunk_size)%Z ->
  forall n start,
    (0 <= start)%Z ->
    List.concat (map (fun c => slice_from c overlap)
                     (windows txt chunk_size (chunk_size - overlap) start n)) =
    slice txt (start + overlap)
              (start + overlap + Z.of_nat n * (chunk_size - overlap)).
Proof.
  intros Hov. induction n as [|n IH]; intros start Hs.
  - simpl. rewrite Z.add_0_r. symmetry. apply slice_empty.
  - cbn [windows map List.concat]. rewrite IH by lia.
    rewrite slice_from_slice by lia.
    replace (start + (chunk_size - overlap) + overlap)%Z
      with (start + chunk_size)%Z by lia.
    rewrite (@slice_app _ txt (start + overlap) (start + chunk_size)
               (start + chunk_size + Z.of_nat n * (chunk_size - overlap)));
      [f_equal; lia|lia|nia].
Qed.

(** The chunks [chunk_text] returns, by number and by position. *)
Lemma chunk_text_form (txt : text) (chunk_size overlap : Z) :
  (0 <= overlap < chunk_size)%Z ->
  exists chunks,
    chunk_text txt chunk_size overlap = Some chunks /\
    List.length chunks =
      (if (len txt <=? chunk_size)%Z then 1%nat
       else window_count (len txt) chunk_size overlap) /\
    ((chunk_size < len txt)%Z -> (2 <= List.length chunks)%nat) /\
    forall j c,
      nth_error chunks j = Some c ->
      c = slice txt (Z.of_nat j * (chunk_size - overlap))
                    (Z.of_nat j * (chunk_size - overlap) + chunk_size).
Proof.
  intros Hov. destruct (Z.leb_spec (len txt) chunk_size) as [Hshort|Hlong].
  - exists [txt]. split; [now apply chunk_text_short|].
    split; [reflexivity|]. split; [lia|].
    intros [|[|j]] c H; try discriminate H. injection H as <-.
    symmetry. apply slice_all. lia.
  - eexists. split; [now apply chunk_text_long|].
    rewrite length_windows. split; [reflexivity|].
    split; [intros _; now apply window_count_bounds|].
    intros j c H.
    assert (Hj : (j < window_count (len txt) chunk_size overlap)%nat).
    { rewrite <- (length_windows txt chunk_size (chunk_size - overlap) 0).
      apply nth_error_Some. congruence. }
    rewrite nth_error_windows in H by exact Hj. now injection H as <-.
Qed.

(** X1.  The chunks of [chunk_text] follow a closed form: a text of at most
    [chunk_size] characters gives one chunk, a longer one gives
    [1 + (len - overlap - 1) div (chunk_size - overlap)] chunks, at least
    two, and chunk [j] is [text[j*step : j*step + chunk_size]] with
    [step = chunk_size - overlap]. *)
Theorem chunk_text_closed_form (txt : text) (chunk_size overlap : Z) :
  (0 <= overlap < chunk_size)%Z ->
  exists chunks,
    chunk_text txt chunk_size overlap = Some chunks /\
    List.length chunks =
      (if (len txt <=? chunk_size)%Z then 1%nat
       else window_count (len txt) chunk_size overlap) /\
    ((chunk_size < len txt)%Z -> (2 <= List.length chunks)%nat) /\
    forall j c,
      nth_error chunks j = Some c ->
      c = slice txt (Z.of_nat j * (chunk_size - overlap))
                    (Z.of_nat j * (chunk_size - overlap) + chunk_size).
Proof.
  apply chunk_text_form.
Qed.

Lemma chunk_text_closed_form_witness :
  (0 <= 200 < 1000)%Z /\
  exists chunks,
    chunk_text text_2500 1000 200 = Some chunks /\ List.length chunks = 3%nat.
Proof.
  split; [lia|].
  destruct (@chunk_text_closed_form text_2500 1000 200 ltac:(lia))
    as (chunks & Hc & Hl & _).
  exists chunks. split; [exact Hc|]. rewrite Hl. reflexivity.
Defined.

(** X2.  No chunk is longer than [chunk_size]; in a text longer than one
    chunk every chunk but the last has exactly [chunk_size] characters, and
    the last has more than [overlap] characters, so it always brings
    characters the chunk before it does not have. *)
Theorem chunk_text_lengths (txt : text) (chunk_size overlap : Z) :
  (0 <= overlap < chunk_size)%Z ->
  exists chunks,
    chunk_text txt chunk_size overlap = Some chunks /\
    (forall c, In c chunks -> (len c <= chunk_size)%Z) /\
    ((chunk_size < len txt)%Z ->
     forall j c, nth_error chunks j = Some c ->
       ((S j < List.length chunks)%nat -> len c = chunk_size) /\
       (S j = List.length chunks -> (overlap < len c <= chunk_size)%Z)).
Proof.
  intros Hov.
  destruct (chunk_text_form txt Hov) as (chunks & Hc & Hn & _ & Hform).
  exists chunks. split; [exact Hc|]. pose proof (len_nonneg txt) as Hl0. split.
  - intros c Hin. apply In_nth_error in Hin. destruct Hin as (j & Hj).
    rewrite (Hform j c Hj), length_slice by nia. lia.
  - intros Hlong j c Hj.
    destruct (Z.leb_spec (len txt) chunk_size); [lia|].
    destruct (window_count_bounds Hov Hlong) as (_ & Hlo & Hhi).
    rewrite Hn. rewrite (Hform j c Hj), length_slice by nia.
    split; intros Hlast; nia.
Qed.

Lemma chunk_text_lengths_witness :
  (0 <= 200 < 1000)%Z /\
  exists chunks,
    chunk_text text_2500 1000 200 = Some chunks /\
    forall c, In c chunks -> (len c <= 1000)%Z.
Proof.
  split; [lia|].
  destruct (@chunk_text_lengths text_2500 1000 200 ltac:(lia))
    as (chunks & Hc & Hl & _).
  now exists chunks.
Defined.

(** X3.  Consecutive chunks overlap by exactly [overlap] characters: what
    follows the first [chunk_size - overlap] characters of a chunk is the
    first [overlap] characters of the next chunk. *)
Theorem chunk_text_overlap (txt : text) (chunk_size overlap : Z) :
  (0 <= overlap < chunk_size)%Z ->
  exists chunks,
    chunk_text txt chunk_size overlap = Some chunks /\
    forall j c c',
      nth_error chunks j = Some c ->
      nth_error chunks (S j) = Some c' ->
      slice_from c (chunk_size - overlap) = slice_to c' overlap /\
      len (slice_to c' overlap) = overlap.
Proof.
  intros Hov.
  destruct (chunk_text_form txt Hov) as (chunks & Hc & Hn & _ & Hform).
  exists chunks. split; [exact Hc|]. intros j c c' Hj Hj'.
  assert (Hlt : (S j < List.length chunks)%nat)
    by (apply nth_error_Some; congruence).
  destruct (Z.leb_spec (len txt) chunk_size) as [Hshort|Hlong];
    [rewrite Hn in Hlt; lia|].
  destruct (window_count_bounds Hov Hlong) as (_ & Hlo & Hhi).
  rewrite Hn in Hlt.
  rewrite (Hform j c Hj), (Hform (S j) c' Hj').
  rewrite slice_from_slice, slice_to_slice by nia.
  split.
  - f_equal; lia.
  - rewrite length_slice by nia. nia.
Qed.

Lemma chunk_text_overlap_witness :
  (0 <= 200 < 1000)%Z /\
  exists chunks,
    chunk_text text_2500 1000 200 = Some chunks /\
    forall j c c',
      nth_error chunks j = Some c -> nth_error chunks (S j) = Some c' ->
      slice_from c 800 = slice_to c' 200.
Proof.
  split; [lia|].
  destruct (@chunk_text_overlap text_2500 1000 200 ltac:(lia))
    as (chunks & Hc & Ho).
  exists chunks. split; [exact Hc|].
  intros j c c' H1 H2. exact (proj1 (Ho j c c' H1 H2)).
Defined.

(** X4.  Chunking can be undone: the first chunk followed by every later
    chunk without its first [overlap] characters is the text. *)
Theorem chunk_text_reassemble (txt : text) (chunk_size overlap : Z) :
  (0 <= overlap < chunk_size)%Z ->
  exists chunks,
    chunk_text txt chunk_size overlap = Some chunks /\
    reassemble overlap chunks = txt.
Proof.
  intros Hov. destruct (Z.leb_spec (len txt) chunk_size) as [Hshort|Hlong].
  - exists [txt]. split; [now apply chunk_text_short|].
    simpl. apply app_nil_r.
  - eexists. split; [now apply chunk_text_long|].
    destruct (window_count_bounds Hov Hlong) as (_ & Hlo & Hhi).
    unfold window_count in *.
    set (m := Z.to_nat ((len txt - overlap - 1) / (chunk_size - overlap))) in *.
    cbn [windows reassemble].
    rewrite concat_trimmed_windows by lia.
    replace (0 + (chunk_size - overlap) + overlap)%Z
      with (0 + chunk_size)%Z by lia.
    rewrite slice_app by nia. apply slice_all. lia.
Qed.

Lemma chunk_text_reassemble_witness :
  (0 <= 200 < 1000)%Z /\
  exists chunks,
    chunk_text text_2500 1000 200 = Some chunks /\
    reassemble 200 chunks = text_2500.
Proof.
  split; [lia|]. apply chunk_text_reassemble. lia.
Defined.

(** X5.  [chunk_text] stops exactly when its window advances: it returns for
    every text when [overlap < chunk_size], and on a non-empty text longer
    than one chunk with [chunk_size <= overlap] its loop never stops,
    whatever the number of iterations allowed. *)
Theorem chunk_text_stops_iff_window_advances (txt : text)
    (chunk_size overlap : Z) :
  (chunk_text txt chunk_size overlap = None <->
   (chunk_size <= overlap)%Z /\ (chunk_size < len txt)%Z /\ (0 < len txt)%Z) /\
  ((chunk_size <= overlap)%Z /\ (chunk_size < len txt)%Z /\ (0 < len txt)%Z ->
   forall fuel, chunk_loop fuel txt chunk_size overlap 0 [] = None).
Proof.
  split; [split|].
  - intros Hnone.
    destruct (Z.le_gt_cases chunk_size overlap) as [Hle|Hgt].
    + unfold chunk_text in Hnone.
      destruct (Z.leb_spec (len txt) chunk_size); [discriminate Hnone|].
      rewrite chunk_loop_step in Hnone.
      destruct (Z.ltb_spec 0 (len txt)); [lia|discriminate Hnone].
    + exfalso. revert Hnone. apply chunk_text_terminates. lia.
  - intros (H1 & H2 & H3). now apply chunk_text_diverges.
  - intros (H1 & H2 & H3) fuel. apply chunk_loop_diverges; try assumption. lia.
Qed.

Lemma chunk_text_stops_iff_window_advances_witness :
  ((10 <= 10)%Z /\ (10 < len hello + 6)%Z) /\
  chunk_text (hello ++ hello ++ hello) 10 10 = None /\
  forall fuel, chunk_loop fuel (hello ++ hello ++ hello) 10 10 0 [] = None.
Proof.
  split; [split; [lia|reflexivity]|]. split.
  - apply (proj1 (chunk_text_stops_iff_window_advances
                    (hello ++ hello ++ hello) 10 10)).
    repeat split; try lia; reflexivity.
  - apply (proj2 (chunk_text_stops_iff_window_advances
                    (hello ++ hello ++ hello) 10 10)).
    repeat split; try lia; reflexivity.
Defined.

(** ** More on the similarity voter *)

(** X6.  [classify_knn] returns [min(k, n)] neighbours for a positive [k]
    and [n] examples; with [k = 0] the slice [[-0:]] is the whole array, so
    all [n] examples are returned; a negative [k] drops the [-k] least
    similar examples. *)
Theorem neighbor_count (cosine : Emb -> Emb -> Q) (query_embedding : Emb)
    (example_embeddings : list Emb) (example_labels : list Label) (k : Z) :
  example_embeddings <> [] ->
  List.length example_embeddings = List.length example_labels ->
  exists v,
    classify_knn cosine query_embedding example_embeddings example_labels k
      = Some v /\
    len (neighbors v) =
      (if (0 <? k)%Z then Z.min k (len example_embeddings)
       else Z.max 0 (len example_embeddings + k)) /\
    (k = 0%Z -> len (neighbors v) = len example_embeddings).
Proof.
  intros Hsome Hlen. rewrite classify_knn_result by assumption. cbv zeta.
  eexists. split; [reflexivity|]. cbn [neighbors].
  assert (H : len (map (neighbor_of (map (cosine query_embedding)
                                          example_embeddings) example_labels)
                       (top_k (map (cosine query_embedding)
                                   example_embeddings) k)) =
              (if (0 <? k)%Z then Z.min k (len example_embeddings)
               else Z.max 0 (len example_embeddings + k))).
  { unfold len at 1. rewrite length_map.
    change (Z.of_nat (List.length (top_k (map (cosine query_embedding)
                                              example_embeddings) k)))
      with (len (top_k (map (cosine query_embedding) example_embeddings) k)).
    rewrite length_top_k. unfold len. now rewrite length_map. }
  split; [exact H|]. intros ->. rewrite H. simpl. unfold len. lia.
Qed.

Lemma neighbor_count_witness :
  embeddings_abc <> [] /\
  List.length embeddings_abc = List.length labels_abc /\
  exists v,
    classify_knn dot east embeddings_abc labels_abc 0 = Some v /\
    len (neighbors v) = 3%Z.
Proof.
  split; [discriminate|]. split; [reflexivity|].
  destruct (@neighbor_count dot east embeddings_abc labels_abc 0%Z
              ltac:(discriminate) eq_refl)
    as (v & Hv & _ & H0).
  exists v. split; [exact Hv|]. exact (H0 eq_refl).
Defined.

(** X7.  The neighbours [classify_knn] returns are those of pairwise distinct
    examples, and they are the most similar ones: an example that is not
    selected is never more similar to the query than a selected one. *)
Theorem neighbors_are_most_similar (cosine : Emb -> Emb -> Q)
    (query_embedding : Emb) (example_embeddings : list Emb)
    (example_labels : list Label) (k : Z) :
  example_embeddings <> [] ->
  List.length example_embeddings = List.length example_labels ->
  let similarities := map (cosine query_embedding) example_embeddings in
  exists v selected,
    classify_knn cosine query_embedding example_embeddings example_labels k
      = Some v /\
    neighbors v = map (neighbor_of similarities example_labels) selected /\
    NoDup selected /\
    (forall i, In i selected -> (i < List.length example_embeddings)%nat) /\
    (forall i j,
       (i < List.length example_embeddings)%nat ->
       ~ In i selected -> In j selected ->
       nth i similarities 0 <= nth j similarities 0).
Proof.
  intros Hsome Hlen similarities.
  rewrite classify_knn_result by assumption. cbv zeta.
  fold similarities.
  destruct (top_k_selects_most_similar similarities k) as (Hnd & Hin & Hopt).
  assert (Hls : List.length similarities = List.length example_embeddings)
    by (unfold similarities; apply length_map).
  rewrite Hls in Hin, Hopt.
  eexists _, (top_k similarities k). split; [reflexivity|].
  cbn [neighbors]. repeat split; assumption.
Qed.

Lemma neighbors_are_most_similar_witness :
  embeddings_enw <> [] /\
  List.length embeddings_enw = List.length labels_abc /\
  exists v,
    classify_knn dot east embeddings_enw labels_abc 2 = Some v /\
    map nb_file (neighbors v) = ["a.md"; "b.md"].
Proof.
  split; [discriminate|]. split; [reflexivity|].
  destruct (@neighbors_are_most_similar dot east embeddings_enw labels_abc
              2%Z ltac:(discriminate) eq_refl) as (v & sel & Hv & _).
  exists v. split; [exact Hv|].
  vm_compute in Hv. injection Hv as <-. reflexivity.
Defined.

(** X8.  With a single candidate of positive similarity and a non-negative
    [k], [classify_knn] returns that candidate as the only neighbour, its
    label as the verdict, and a confidence of 1. *)
Theorem single_candidate (cosine : Emb -> Emb -> Q) (query_embedding e : Emb)
    (lab : Label) (k : Z) :
  (0 <= k)%Z ->
  0 < cosine query_embedding e ->
  exists v,
    classify_knn cosine query_embedding [e] [lab] k = Some v /\
    is_phishing v = lbl_is_phishing lab /\
    confidence v == 1 /\
    neighbors v = [mkNeighbor (lbl_file lab) (lbl_label lab)
                              (cosine query_embedding e)
                              (lbl_is_phishing lab)].
Proof.
  intros Hk Hpos.
  assert (Htop : top_k [cosine query_embedding e] k = [0%nat]).
  { unfold top_k, slice_from, slice_index, argsort, len. simpl.
    destruct (Z.ltb_spec (- k) 0).
    - replace (Z.to_nat (Z.max 0 (- k + 1))) with 0%nat by lia. reflexivity.
    - replace (Z.to_nat (Z.min (- k) 1)) with 0%nat by lia. reflexivity. }
  unfold classify_knn, cosine_similarity_row. cbn [map]. rewrite Htop.
  cbn [vote_loop getitem nth_error app].
  set (s := cosine query_embedding e) in *.
  assert (Hs : 0 < 0 + s) by (rewrite Qplus_0_l; exact Hpos).
  destruct (lbl_is_phishing lab); cbn [vote_loop];
    eexists; (split; [reflexivity|]);
    cbn [is_phishing confidence neighbors]; repeat split.
  - apply gt_true_iff. exact Hs.
  - rewrite confidence_of_positive by lra.
    destruct (max2_cases (0 + s) 0) as [[-> _]|[_ H]]; [|lra].
    field. lra.
  - apply gt_false_iff. lra.
  - rewrite confidence_of_positive by lra.
    destruct (max2_cases 0 (0 + s)) as [[_ H]|[-> _]]; [lra|].
    field. lra.
Qed.

Lemma single_candidate_witness :
  (0 <= 3)%Z /\ 0 < dot east east /\
  exists v,
    classify_knn dot east [east] [label_a] 3 = Some v /\
    is_phishing v = true /\ confidence v == 1.
Proof.
  split; [lia|]. split; [reflexivity|].
  destruct (@single_candidate dot east east label_a 3%Z ltac:(lia) eq_refl)
    as (v & Hv & Hp & Hc & _).
  exists v. repeat split; assumption.
Defined.

Lemma confidence_of_zero_or_half (p l : Q) :
  confidence_of p l == 0 \/ 1 # 2 <= confidence_of p l.
Proof.
  destruct (Qlt_le_dec 0 (p + l)) as [Hpos|Hnp].
  - right. rewrite confidence_of_positive by assumption.
    apply Qle_shift_div_l; [assumption|].
    destruct (max2_cases p l) as [[-> H]|[-> H]]; lra.
  - left. rewrite confidence_of_nonpositive by assumption. reflexivity.
Qed.

(** X9.  Whatever the signs of the similarities, the confidence either voter
    returns is 0 or at least 1/2; it is 0 exactly when the sum of the two
    score accumulators is not positive. *)
Theorem confidence_zero_or_at_least_half :
  (forall cosine query_embedding example_embeddings example_labels k,
     example_embeddings <> [] ->
     List.length example_embeddings = List.length example_labels ->
     exists v,
       classify_knn cosine query_embedding example_embeddings
                    example_labels k = Some v /\
       (confidence v == 0 \/ 1 # 2 <= confidence v) /\
       (confidence v == 0 <->
        phishing_score_of (neighbors v) + legit_score_of (neighbors v) <= 0)) /\
  (forall encode fs st txt k exclude_file,
     store_wf st ->
     exists b c ns,
       snd (Classifier.classify encode fs st txt k exclude_file)
         = Some (b, c, ns) /\
       (c == 0 \/ 1 # 2 <= c) /\
       (c == 0 <-> phishing_score_of ns + legit_score_of ns <= 0)).
Proof.
  split.
  - intros cosine q embs labels k Hsome Hlen.
    rewrite classify_knn_result by assumption. cbv zeta.
    eexists. split; [reflexivity|]. cbn [neighbors confidence].
    split; [apply confidence_of_zero_or_half|apply confidence_of_zero_iff].
  - intros encode fs st txt k excl Hwf.
    destruct (classify_result encode fs st txt k excl Hwf)
      as (embs & labels & fe & fl & ns & _ & _ & Hc & _).
    rewrite Hc. eexists _, _, ns. split; [reflexivity|].
    split; [apply confidence_of_zero_or_half|apply confidence_of_zero_iff].
Qed.

Lemma confidence_zero_or_at_least_half_witness :
  (embeddings_abc <> [] /\
   List.length embeddings_abc = List.length labels_abc /\
   exists v,
     classify_knn dot east embeddings_abc labels_abc 3 = Some v /\
     (confidence v == 0 \/ 1 # 2 <= confidence v)) /\
  (store_wf Classifier.new_instance /\
   exists b c ns,
     snd (Classifier.classify encode_sign fs_eml Classifier.new_instance
                              hello 3 None) = Some (b, c, ns) /\
     (c == 0 \/ 1 # 2 <= c)).
Proof.
  split.
  - split; [discriminate|]. split; [reflexivity|].
    destruct (proj1 confidence_zero_or_at_least_half dot east embeddings_abc
                labels_abc 3%Z ltac:(discriminate) eq_refl)
      as (v & Hv & H & _).
    now exists v.
  - split; [exact I|].
    destruct (proj2 confidence_zero_or_at_least_half encode_sign fs_eml
                Classifier.new_instance hello 3%Z None I)
      as (b & c & ns & Hv & H & _).
    now exists b, c, ns.
Defined.

(** ** More on the chunk aggregator *)

Section AggregatorMore.
Variable encode : text -> Emb.
Variable cosine : Emb -> Emb -> Q.

Lemma classify_with_chunking_indexed (content : text)
    (example_embeddings : list Emb) (example_labels : list Label) (k : Z)
    (exclude_file : option string) :
  example_embeddings <> [] ->
  List.length example_embeddings = List.length example_labels ->
  exists ue ul chunks results,
    use_examples example_embeddings example_labels exclude_file
      = Some (ue, ul) /\
    List.length ue = List.length ul /\
    chunk_text content CHUNK_SIZE CHUNK_OVERLAP = Some chunks /\
    Forall2 (verdict_of_chunk encode cosine ue ul k) chunks results /\
    (forall j cr, nth_error results j = Some cr ->
                  chunk_index cr = Z.of_nat j) /\
    results <> [] /\
    classify_with_chunking encode cosine content example_embeddings
                           example_labels k exclude_file
      = aggregate chunks results.
Proof.
  intros Hsome Hlen.
  destruct (use_examples_result example_embeddings example_labels
              exclude_file Hlen) as (ue & ul & HU & HUL & _).
  pose proof (use_examples_nonempty _ _ Hsome HU) as Hue.
  destruct (@chunk_text_covers content CHUNK_SIZE CHUNK_OVERLAP)
    as (chunks & HC & _); [unfold CHUNK_SIZE, CHUNK_OVERLAP; lia|].
  destruct (@chunk_results_loop_spec encode cosine ue ul k Hue HUL chunks
              0%Z [])
    as (results & HR & HF & HI).
  exists ue, ul, chunks, results.
  unfold classify_with_chunking. rewrite HU, HC, HR. cbn [app].
  split; [reflexivity|]. split; [exact HUL|]. split; [reflexivity|].
  split; [exact HF|]. split; [|split; [|reflexivity]].
  - intros j cr H. rewrite (HI j cr H). lia.
  - intros ->. inversion HF; subst.
    revert HC. apply chunk_text_nonempty. unfold CHUNK_SIZE. lia.
Qed.

Lemma existsb_filter_length {A} (p : A -> bool) (l : list A) :
  existsb p l = true <-> (1 <= len (filter p l))%Z.
Proof.
  unfold len. induction l as [|x l IH]; simpl.
  - split; [discriminate|lia].
  - destruct (p x); simpl; [split; [lia|reflexivity]|exact IH].
Qed.

(** X10.  The counters of the verdict [classify_with_chunking] returns are
    consistent: there is one chunk verdict per chunk of [chunk_text] and at
    least one, verdict [j] carries [chunk_index = j],
    [phishing_chunks] counts the phishing verdicts and never exceeds
    [num_chunks], and the email is phishing exactly when [phishing_chunks]
    is at least one. *)
Theorem aggregate_counters (content : text) (example_embeddings : list Emb)
    (example_labels : list Label) (k : Z) (exclude_file : option string) :
  example_embeddings <> [] ->
  List.length example_embeddings = List.length example_labels ->
  exists r chunks,
    classify_with_chunking encode cosine content example_embeddings
                           example_labels k exclude_file = Some r /\
    chunk_text content CHUNK_SIZE CHUNK_OVERLAP = Some chunks /\
    num_chunks r = len chunks /\
    len (chunk_results r) = num_chunks r /\
    (1 <= num_chunks r)%Z /\
    phishing_chunks r = len (filter cr_is_phishing (chunk_results r)) /\
    (0 <= phishing_chunks r <= num_chunks r)%Z /\
    (ev_is_phishing r = true <-> (1 <= phishing_chunks r)%Z) /\
    (forall j c, nth_error (chunk_results r) j = Some c ->
                 chunk_index c = Z.of_nat j).
Proof.
  intros Hsome Hlen.
  destruct (@classify_with_chunking_indexed content example_embeddings
              example_labels k exclude_file Hsome Hlen)
    as (ue & ul & chunks & results & _ & _ & HC & HF & HI & Hne & Hagg).
  destruct (aggregate_spec chunks Hne) as (best & Hbest & _).
  rewrite Hbest in Hagg. eexists _, chunks. split; [exact Hagg|].
  cbn [num_chunks chunk_results phishing_chunks ev_is_phishing].
  pose proof (Forall2_length HF) as HL.
  pose proof (filter_length_le cr_is_phishing results) as Hfl.
  split; [exact HC|]. split; [reflexivity|].
  split; [unfold len; lia|].
  split; [destruct results; [congruence|]; unfold len in *; simpl in *; lia|].
  split; [reflexivity|]. split; [unfold len; lia|].
  split; [apply existsb_filter_length|exact HI].
Qed.

(** X11.  On a text of at most [CHUNK_SIZE] characters
    [classify_with_chunking] is a single vote: verdict, confidence and
    neighbours are those [classify_knn] returns for the whole text. *)
Theorem short_text_single_vote (content : text)
    (example_embeddings : list Emb) (example_labels : list Label) (k : Z)
    (exclude_file : option string) :
  (len content <= CHUNK_SIZE)%Z ->
  example_embeddings <> [] ->
  List.length example_embeddings = List.length example_labels ->
  exists r ue ul v,
    classify_with_chunking encode cosine content example_embeddings
                           example_labels k exclude_file = Some r /\
    use_examples example_embeddings example_labels exclude_file
      = Some (ue, ul) /\
    classify_knn cosine (encode (format_query content)) ue ul k = Some v /\
    ev_is_phishing r = is_phishing v /\
    ev_confidence r = confidence v /\
    ev_neighbors r = neighbors v /\
    num_chunks r = 1%Z /\
    phishing_chunks r = (if is_phishing v then 1 else 0)%Z.
Proof.
  intros Hshort Hsome Hlen.
  destruct (@classify_with_chunking_indexed content example_embeddings
              example_labels k exclude_file Hsome Hlen)
    as (ue & ul & chunks & results & HU & _ & HC & HF & _ & _ & Hagg).
  rewrite (chunk_text_short content CHUNK_OVERLAP Hshort) in HC.
  injection HC as <-.
  inversion HF as [|chunk cr ? rest Hv Hrest]; subst.
  inversion Hrest; subst.
  destruct Hv as (v & Hv & Hp & Hc & Hn & _).
  exists (mkEmailVerdict (cr_is_phishing cr) (cr_confidence cr)
            (cr_neighbors cr) 1 (if cr_is_phishing cr then 1 else 0) [cr]),
         ue, ul, v.
  split.
  - rewrite Hagg. unfold aggregate. cbn [existsb filter].
    rewrite orb_false_r. destruct (cr_is_phishing cr); reflexivity.
  - cbn [ev_is_phishing ev_confidence ev_neighbors num_chunks phishing_chunks].
    rewrite <- Hp. repeat split; assumption.
Qed.

Lemma filter_keep_all (f : string) (labels : list Label) :
  (forall lab, In lab labels -> lbl_file lab <> f) ->
  filter (keep f) labels = labels.
Proof.
  intros H. induction labels as [|lab labels IH]; [reflexivity|].
  simpl. destruct (keep f lab) eqn:E.
  - f_equal. apply IH. intros l Hl. apply H. now right.
  - exfalso. apply (H lab (or_introl eq_refl)).
    unfold keep in E. apply negb_false_iff in E. now apply String.eqb_eq.
Qed.

Lemma use_examples_absent (example_embeddings : list Emb)
    (example_labels : list Label) (f : string) :
  List.length example_embeddings = List.length example_labels ->
  (forall lab, In lab example_labels -> lbl_file lab <> f) ->
  use_examples example_embeddings example_labels (Some f)
    = Some (example_embeddings, example_labels).
Proof.
  intros Hlen Habs. unfold use_examples.
  destruct (truthy (Some f)); [|reflexivity].
  destruct (@filter_loop_spec f example_embeddings example_labels 0 [] [])
    as (FE & HF & HL & Hall); [simpl; lia|].
  rewrite HF. cbn [app].
  rewrite (@filter_keep_all f example_labels Habs) in *.
  rewrite (Hall eq_refl). cbn [skipn].
  destruct example_embeddings, example_labels; try discriminate Hlen;
    reflexivity.
Qed.

End AggregatorMore.

Lemma mask_select_all {A} (f : string) :
  forall (a : list A) (labels : list Label),
    List.length a = List.length labels ->
    (forall lab, In lab labels -> lbl_file lab <> f) ->
    mask_select a (map (keep f) labels) = Some a.
Proof.
  induction a as [|x a IH]; intros [|lab labels] Hlen Habs;
    simpl in Hlen; try discriminate; [reflexivity|].
  simpl. rewrite IH; [|lia|intros l Hl; apply Habs; now right].
  replace (keep f lab) with true; [reflexivity|].
  symmetry. apply keep_true_iff, Habs. now left.
Qed.

(** X12.  Excluding an identifier that no example carries changes nothing:
    [classify_with_chunking] and [PhishingClassifier.classify] return what
    they return without [exclude_file]. *)
Theorem exclusion_of_absent_identifier :
  (forall encode cosine content example_embeddings example_labels k f,
     List.length example_embeddings = List.length example_labels ->
     (forall lab, In lab example_labels -> lbl_file lab <> f) ->
     classify_with_chunking encode cosine content example_embeddings
                            example_labels k (Some f) =
     classify_with_chunking encode cosine content example_embeddings
                            example_labels k None) /\
  (forall encode fs st txt k f,
     store_wf st ->
     (forall labels,
        Classifier._example_labels (Classifier._load_examples encode fs st)
          = Some labels ->
        forall lab, In lab labels -> lbl_file lab <> f) ->
     Classifier.classify encode fs st txt k (Some f) =
     Classifier.classify encode fs st txt k None).
Proof.
  split.
  - intros encode cosine content embs labels k f Hlen Habs.
    unfold classify_with_chunking.
    rewrite (@use_examples_absent embs labels f Hlen Habs). reflexivity.
  - intros encode fs st txt k f Hwf Habs.
    destruct (load_examples_loaded encode fs st Hwf)
      as (embs & labels & Hload & Hlen).
    unfold Classifier.classify. rewrite Hload.
    cbn [Classifier._example_labels Classifier._example_embeddings].
    rewrite Hload in Habs. specialize (Habs labels eq_refl).
    f_equal. destruct (len labels =? 0)%Z; [reflexivity|].
    assert (HF : Classifier.filter_examples embs labels (Some f)
                 = Classifier.filter_examples embs labels None).
    { unfold Classifier.filter_examples.
      destruct (truthy (Some f)); [|reflexivity].
      change (fun l : Label => negb (String.eqb (lbl_file l) f)) with (keep f).
      rewrite (@mask_select_all _ f embs labels Hlen Habs).
      rewrite filter_by_mask, (@filter_keep_all f labels Habs). reflexivity. }
    rewrite HF. reflexivity.
Qed.

Lemma exclusion_of_absent_identifier_witness :
  (List.length embeddings_abc = List.length labels_abc /\
   (forall lab, In lab labels_abc -> lbl_file lab <> "z.md") /\
   classify_with_chunking encode_sign dot hello embeddings_abc labels_abc 3
                          (Some "z.md") =
   classify_with_chunking encode_sign dot hello embeddings_abc labels_abc 3
                          None) /\
  (store_wf Classifier.new_instance /\
   Classifier.classify encode_sign fs_eml Classifier.new_instance hello 3
                       (Some "z.eml") =
   Classifier.classify encode_sign fs_eml Classifier.new_instance hello 3
                       None).
Proof.
  assert (Ha : forall lab, In lab labels_abc -> lbl_file lab <> "z.md")
    by (intros lab [<-|[<-|[<-|[]]]]; discriminate).
  split.
  - split; [reflexivity|]. split; [exact Ha|].
    exact (proj1 exclusion_of_absent_identifier encode_sign dot hello
             embeddings_abc labels_abc 3%Z "z.md" eq_refl Ha).
  - split; [exact I|].
    apply (proj2 exclusion_of_absent_identifier encode_sign fs_eml
             Classifier.new_instance hello 3%Z "z.eml" I).
    intros labels Hl. vm_compute in Hl. injection Hl as <-.
    intros lab [<-|[<-|[<-|[]]]]; discriminate.
Defined.

Lemma aggregate_counters_witness :
  embeddings_ca <> [] /\
  List.length embeddings_ca = List.length labels_ca /\
  exists r,
    classify_with_chunking encode_turn dot text_1500 embeddings_ca labels_ca 3
                           None = Some r /\
    num_chunks r = 2%Z /\ phishing_chunks r = 1%Z.
Proof.
  split; [discriminate|]. split; [reflexivity|].
  destruct (@aggregate_counters encode_turn dot text_1500 embeddings_ca
              labels_ca 3%Z None ltac:(discriminate) eq_refl)
    as (r & chunks & Hr & _).
  exists r. split; [exact Hr|].
  vm_compute in Hr. injection Hr as <-. split; reflexivity.
Defined.

Lemma short_text_single_vote_witness :
  (len hello <= CHUNK_SIZE)%Z /\
  embeddings_abc <> [] /\
  List.length embeddings_abc = List.length labels_abc /\
  exists r,
    classify_with_chunking encode_sign dot hello embeddings_abc labels_abc 3
                           None = Some r /\
    num_chunks r = 1%Z.
Proof.
  split; [discriminate|]. split; [discriminate|]. split; [reflexivity|].
  destruct (@short_text_single_vote encode_sign dot hello embeddings_abc
              labels_abc 3%Z None ltac:(discriminate) ltac:(discriminate)
              eq_refl)
    as (r & ue & ul & v & Hr & _ & _ & _ & _ & _ & Hn & _).
  now exists r.
Defined.

(** ** More on the example stores *)

(** Keeping some entries of a table keeps its identifiers distinct. *)
Lemma kept_identifiers_distinct (keeps : string * Info -> bool)
    (table : list (string * Info)) :
  NoDup (map fst table) -> NoDup (map fst (filter keeps table)).
Proof.
  induction table as [|entry table IH]; simpl; intros Hnd; [constructor|].
  inversion Hnd as [|? ? Hfresh Hrest]; subst.
  destruct (keeps entry); simpl; [|now apply IH].
  constructor; [|now apply IH].
  intros Hin. apply Hfresh. apply in_map_iff in Hin.
  destruct Hin as (other & Hsame & Hin). apply filter_In in Hin.
  apply in_map_iff. exists other. now split.
Qed.

Lemma map_file_label_of_entry (l : list (string * Info)) :
  map lbl_file (map label_of_entry l) = map fst l.
Proof. rewrite map_map. reflexivity. Qed.

Lemma knn_identifiers_distinct : NoDup (map fst ClassifyKnn.LABELED_EXAMPLES).
Proof.
  simpl. repeat (constructor; [simpl; intuition discriminate|]). constructor.
Qed.

Lemma classifier_identifiers_distinct :
  NoDup (map fst Classifier.LABELED_EXAMPLES).
Proof.
  simpl. repeat (constructor; [simpl; intuition discriminate|]). constructor.
Qed.

Section Loaders.
Variable encode : text -> Emb.
Variable fs : string -> option text.

Lemma knn_load_loop_exact :
  forall table texts labels,
    ClassifyKnn.load_loop fs table texts labels =
    (texts ++ map (text_of fs) (filter (exists_file fs) table),
     labels ++ map label_of_entry (filter (exists_file fs) table)).
Proof.
  induction table as [|[filepath info] rest IH]; intros texts labels.
  - simpl. now rewrite !app_nil_r.
  - cbn [ClassifyKnn.load_loop filter].
    destruct (fs filepath) as [content|] eqn:E.
    + assert (Hex : exists_file fs (filepath, info) = true)
        by (unfold exists_file; simpl; now rewrite E).
      assert (Ht : text_of fs (filepath, info) = content)
        by (unfold text_of; simpl; now rewrite E).
      rewrite Hex, IH. cbn [map]. rewrite Ht, <- !app_assoc. reflexivity.
    + assert (Hex : exists_file fs (filepath, info) = false)
        by (unfold exists_file; simpl; now rewrite E).
      rewrite Hex. apply IH.
Qed.

(** The arrays [main] of [classify_knn.py] builds. *)
Lemma main_examples_spec :
  exists texts labels embeddings,
    ClassifyKnn.main_examples encode fs = (texts, labels, embeddings) /\
    labels = map label_of_entry
                 (filter (exists_file fs) ClassifyKnn.LABELED_EXAMPLES) /\
    map Some texts = map (fun lab => fs (lbl_file lab)) labels /\
    embeddings = map (fun t => encode (format_passage t)) texts /\
    List.length embeddings = List.length labels /\
    NoDup (map lbl_file labels).
Proof.
  unfold ClassifyKnn.main_examples. rewrite knn_load_loop_exact. cbn [app].
  eexists _, _, _. split; [reflexivity|]. split; [reflexivity|].
  split; [|split; [reflexivity|split]].
  - rewrite !map_map. apply map_ext_in. intros e He.
    apply filter_In in He. destruct He as [_ He].
    unfold exists_file, text_of in *. simpl.
    destruct (fs (fst e)); [reflexivity|discriminate].
  - unfold ClassifyKnn.embed_texts. now rewrite !length_map.
  - rewrite map_file_label_of_entry.
    apply kept_identifiers_distinct, knn_identifiers_distinct.
Qed.

(** X13.  The arrays [main] of [classify_knn.py] builds hold exactly the
    configured entries whose file exists, in the order of the table and each
    once, the text of an entry being the whole content of its file; there is
    one embedding per label, so every classification call of the run gets
    arrays of the same length. *)
Theorem main_examples_exact :
  exists texts labels embeddings,
    ClassifyKnn.main_examples encode fs = (texts, labels, embeddings) /\
    labels = map label_of_entry
                 (filter (exists_file fs) ClassifyKnn.LABELED_EXAMPLES) /\
    map Some texts = map (fun lab => fs (lbl_file lab)) labels /\
    embeddings = map (fun t => encode (format_passage t)) texts /\
    List.length embeddings = List.length labels /\
    NoDup (map lbl_file labels).
Proof.
  exact main_examples_spec.
Qed.

Lemma classifier_load_loop_exact :
  forall table texts labels,
    Classifier.load_loop fs table texts labels =
    (texts ++ map (fun e => slice_to (text_of fs e) 4000)
                  (filter (has_text fs) table),
     labels ++ map label_of_entry (filter (has_text fs) table)).
Proof.
  induction table as [|[filepath info] rest IH]; intros texts labels.
  - simpl. now rewrite !app_nil_r.
  - cbn [Classifier.load_loop filter].
    destruct (fs filepath) as [[|c content]|] eqn:E.
    + assert (Hex : has_text fs (filepath, info) = false)
        by (unfold has_text; simpl; now rewrite E).
      rewrite Hex. apply IH.
    + assert (Hex : has_text fs (filepath, info) = true)
        by (unfold has_text; simpl; now rewrite E).
      assert (Ht : text_of fs (filepath, info) = c :: content)
        by (unfold text_of; simpl; now rewrite E).
      rewrite Hex, IH. cbn [map]. rewrite Ht, <- !app_assoc. reflexivity.
    + assert (Hex : has_text fs (filepath, info) = false)
        by (unfold has_text; simpl; now rewrite E).
      rewrite Hex. apply IH.
Qed.

(** X14.  The store [PhishingClassifier._load_examples] builds on the first
    call holds exactly the configured entries whose file exists and has
    non-empty text, in the order of the table and each once (so at most
    eight), each with the embedding of the passage made of the first 4000
    characters of its text. *)
Theorem store_exact :
  let present := filter (has_text fs) Classifier.LABELED_EXAMPLES in
  Classifier._load_examples encode fs Classifier.new_instance =
    Classifier.mkState
      (Some (map (fun e => encode (format_passage (slice_to (text_of fs e) 4000)))
                 present))
      (Some (map label_of_entry present)) /\
  NoDup (map fst present) /\
  (List.length present <= 8)%nat.
Proof.
  cbv zeta. split; [|split].
  - unfold Classifier._load_examples.
    cbn [Classifier.new_instance Classifier._example_embeddings].
    rewrite classifier_load_loop_exact. cbn [app].
    destruct (filter (has_text fs) Classifier.LABELED_EXAMPLES) as [|e l];
      [reflexivity|].
    cbn [map]. unfold Classifier._embed. cbn [map]. rewrite map_map.
    reflexivity.
  - apply kept_identifiers_distinct, classifier_identifiers_distinct.
  - apply (filter_length_le (has_text fs) Classifier.LABELED_EXAMPLES).
Qed.

End Loaders.

(** X15.  The store is loaded once: after a first call of [classify] the
    instance holds the loaded store, as many embeddings as labels, and no
    later call changes it or reads the files again, whatever has become of
    them and whatever the call excludes. *)
Theorem store_loaded_once (encode : text -> Emb) (fs fs' : string -> option text)
    (st : Classifier.State) (txt txt' : text) (k k' : Z)
    (exclude_file exclude_file' : option string) :
  store_wf st ->
  let st1 := fst (Classifier.classify encode fs st txt k exclude_file) in
  st1 = Classifier._load_examples encode fs st /\
  store_wf st1 /\
  Classifier._example_embeddings st1 <> None /\
  Classifier._load_examples encode fs' st1 = st1 /\
  Classifier.classify encode fs' st1 txt' k' exclude_file' =
    (st1, snd (Classifier.classify encode fs st1 txt' k' exclude_file')).
Proof.
  intros Hwf st1.
  destruct (load_examples_loaded encode fs st Hwf)
    as (embs & labels & Hload & Hlen).
  assert (H1 : st1 = Classifier.mkState (Some embs) (Some labels))
    by (unfold st1, Classifier.classify; rewrite Hload; reflexivity).
  rewrite H1, Hload.
  split; [reflexivity|]. split; [exact Hlen|]. split; [discriminate|].
  split; reflexivity.
Qed.

Lemma store_loaded_once_witness :
  store_wf Classifier.new_instance /\
  Classifier.classify encode_sign fs_none
    (fst (Classifier.classify encode_sign fs_eml Classifier.new_instance
                              hello 3 None))
    hello 3 None =
  Classifier.classify encode_sign fs_eml
    (fst (Classifier.classify encode_sign fs_eml Classifier.new_instance
                              hello 3 None))
    hello 3 None.
Proof.
  split; [exact I|].
  destruct (@store_loaded_once encode_sign fs_eml fs_none
              Classifier.new_instance hello hello 3%Z 3%Z None None I)
    as (_ & _ & _ & _ & H).
  rewrite H. reflexivity.
Defined.

Lemma slice_to_idempotent {A} (l : list A) (n : Z) :
  (0 <= n)%Z -> slice_to (slice_to l n) n = slice_to l n.
Proof.
  intros Hn. apply nth_error_ext. intros i.
  rewrite !nth_error_slice_to by exact Hn.
  destruct (Z.of_nat i <? n)%Z; reflexivity.
Qed.

(** X16.  [PhishingClassifier.classify] reads only the first 4000 characters
    of its text: two texts that agree on them get the same answer, and so do
    a text and its first 4000 characters. *)
Theorem classify_reads_first_4000 (encode : text -> Emb)
    (fs : string -> option text) (st : Classifier.State) (txt : text) (k : Z)
    (exclude_file : option string) :
  Classifier.classify encode fs st txt k exclude_file =
    Classifier.classify encode fs st (slice_to txt 4000) k exclude_file /\
  forall txt',
    slice_to txt 4000 = slice_to txt' 4000 ->
    Classifier.classify encode fs st txt k exclude_file =
    Classifier.classify encode fs st txt' k exclude_file.
Proof.
  assert (H : forall txt', slice_to txt 4000 = slice_to txt' 4000 ->
    Classifier.classify encode fs st txt k exclude_file =
    Classifier.classify encode fs st txt' k exclude_file).
  { intros txt' Heq. unfold Classifier.classify. rewrite Heq. reflexivity. }
  split; [|exact H].
  apply H. symmetry. apply slice_to_idempotent. lia.
Qed.

Lemma classify_reads_first_4000_witness :
  slice_to text_4001_dash 4000 = slice_to text_4001_b 4000 /\
  Classifier.classify encode_sign fs_eml Classifier.new_instance
                      text_4001_dash 3 None =
  Classifier.classify encode_sign fs_eml Classifier.new_instance
                      text_4001_b 3 None.
Proof.
  assert (H : slice_to text_4001_dash 4000 = slice_to text_4001_b 4000)
    by (vm_compute; reflexivity).
  split; [exact H|].
  exact (proj2 (classify_reads_first_4000 encode_sign fs_eml
                  Classifier.new_instance text_4001_dash 3%Z None)
               text_4001_b H).
Defined.

(** ** The run of [classify_knn.py] *)

Lemma find_exclude_some (md_path md_file : string) (labels : list Label)
    (f : string) :
  In f (map lbl_file labels) -> (md_file = f \/ md_path = f) ->
  exists f',
    find_exclude md_path md_file labels = Some f' /\
    In f' (map lbl_file labels) /\ (f' = md_file \/ f' = md_path).
Proof.
  induction labels as [|lab rest IH]; intros Hin Heq; [contradiction|].
  simpl find_exclude.
  destruct (String.eqb md_path (lbl_file lab)) eqn:E1.
  - apply String.eqb_eq in E1. exists (lbl_file lab).
    split; [reflexivity|]. split; [now left|now right].
  - destruct (String.eqb md_file (lbl_file lab)) eqn:E2; simpl.
    + apply String.eqb_eq in E2. exists (lbl_file lab).
      split; [reflexivity|]. split; [now left|now left].
    + destruct Hin as [Hin|Hin].
      * exfalso. destruct Heq as [<-|<-].
        -- rewrite Hin, String.eqb_refl in E2. discriminate.
        -- rewrite Hin, String.eqb_refl in E1. discriminate.
      * destruct (IH Hin Heq) as (f' & Hf & Hin' & Hor).
        exists f'. split; [exact Hf|]. split; [now right|exact Hor].
Qed.

Lemma find_exclude_none (md_path md_file : string) (labels : list Label) :
  find_exclude md_path md_file labels = None <->
  forall lab, In lab labels ->
              lbl_file lab <> md_path /\ lbl_file lab <> md_file.
Proof.
  induction labels as [|lab rest IH]; simpl find_exclude.
  - split; [intros _ lab []|reflexivity].
  - destruct (String.eqb md_path (lbl_file lab)) eqn:E1; simpl.
    + apply String.eqb_eq in E1. split; [discriminate|].
      intros H. destruct (H lab (or_introl eq_refl)) as [H1 _]. congruence.
    + destruct (String.eqb md_file (lbl_file lab)) eqn:E2.
      * apply String.eqb_eq in E2. split; [discriminate|].
        intros H. destruct (H lab (or_introl eq_refl)) as [_ H2]. congruence.
      * apply String.eqb_neq in E1, E2. rewrite IH. split.
        -- intros H l [<-|Hl]; [split; congruence|now apply H].
        -- intros H l Hl. apply H. now right.
Qed.

Lemma knn_identifiers_nonempty (f : string) :
  In f (map fst ClassifyKnn.LABELED_EXAMPLES) -> truthy (Some f) = true.
Proof.
  simpl. intros H.
  repeat (destruct H as [<-|H]; [reflexivity|]). contradiction.
Qed.

Lemma other_identifier (labels : list Label) (f : string) :
  NoDup (map lbl_file labels) -> (2 <= List.length labels)%nat ->
  exists lab, In lab labels /\ lbl_file lab <> f.
Proof.
  destruct labels as [|a [|b rest]]; simpl; try lia. intros Hnd _.
  inversion Hnd as [|? ? Hnin _]; subst.
  destruct (String.eqb_spec (lbl_file a) f) as [Ha|Ha].
  - exists b. split; [right; now left|]. intros Hb. apply Hnin.
    left. congruence.
  - exists a. split; [now left|exact Ha].
Qed.

Section Run.
Variable encode : text -> Emb.
Variable cosine : Emb -> Emb -> Q.
Variable fs : string -> option text.
Variable path_str : string -> string.

(** With an exclusion that leaves an example, no neighbour of any chunk
    carries the excluded identifier. *)
Lemma chunking_excludes (content : text) (example_embeddings : list Emb)
    (example_labels : list Label) (k : Z) (f : string) :
  List.length example_embeddings = List.length example_labels ->
  truthy (Some f) = true ->
  (exists lab, In lab example_labels /\ lbl_file lab <> f) ->
  exists r,
    classify_with_chunking encode cosine content example_embeddings
                           example_labels k (Some f) = Some r /\
    (forall n, In n (ev_neighbors r) -> nb_file n <> f) /\
    (forall c n, In c (chunk_results r) -> In n (cr_neighbors c) ->
                 nb_file n <> f).
Proof.
  intros Hlen Ht (lab0 & Hin0 & Hne0).
  assert (Hsome : example_embeddings <> []).
  { intros ->. destruct example_labels; [exact Hin0|discriminate Hlen]. }
  destruct (@classify_with_chunking_result encode cosine content
              example_embeddings example_labels k (Some f) Hsome Hlen)
    as (ue & ul & chunks & results & HU & HUL & HC & HF & Hne & Hagg).
  assert (Hul : ul = filter (keep f) example_labels).
  { destruct (use_examples_result example_embeddings example_labels
                (Some f) Hlen) as (ue' & ul' & HU' & _ & Hshape).
    rewrite HU in HU'. injection HU' as <- <-.
    rewrite Ht in Hshape.
    destruct (filter (keep f) example_labels) as [|x kept] eqn:E;
      [|exact Hshape].
    exfalso. assert (Hk : In lab0 (filter (keep f) example_labels))
      by (apply filter_In; split; [exact Hin0|now apply keep_true_iff]).
    rewrite E in Hk. exact Hk. }
  assert (Hchunks : forall c n, In c results -> In n (cr_neighbors c) ->
                                nb_file n <> f).
  { intros c n Hc Hn.
    destruct (@Forall2_In_r _ _ _ _ _ c HF Hc) as (chunk & _ & Hv).
    destruct (verdict_of_chunk_files HUL Hv n Hn) as (lab & Hlab & ->).
    rewrite Hul in Hlab. apply filter_In in Hlab.
    now apply keep_true_iff. }
  destruct (aggregate_spec chunks Hne) as (best & Hbest & Hin & _).
  rewrite Hbest in Hagg. eexists. split; [exact Hagg|].
  cbn [ev_neighbors chunk_results]. split; [|exact Hchunks].
  intros n Hn. exact (Hchunks best n Hin Hn).
Qed.

Lemma classify_with_chunking_total (content : text)
    (example_embeddings : list Emb) (example_labels : list Label) (k : Z)
    (exclude_file : option string) :
  example_embeddings <> [] ->
  List.length example_embeddings = List.length example_labels ->
  exists r,
    classify_with_chunking encode cosine content example_embeddings
                           example_labels k exclude_file = Some r.
Proof.
  intros Hsome Hlen.
  destruct (@classify_with_chunking_result encode cosine content
              example_embeddings example_labels k exclude_file Hsome Hlen)
    as (ue & ul & chunks & results & _ & _ & _ & _ & Hne & Hagg).
  destruct (aggregate_spec chunks Hne) as (best & Hbest & _).
  rewrite Hbest in Hagg. eexists. exact Hagg.
Qed.

(** X17.  Leave-one-out, end to end: when the input file of
    [classify_knn.py], as given or as [Path] normalises it, is the
    identifier of a loaded example and at least two examples are loaded, its
    result has [was_excluded] set and none of its neighbours, reported or of
    any chunk, is the excluded example, which is the first loaded example
    with one of these two paths. *)
Theorem main_leaves_the_input_out (md_file : string) (content : text)
    (texts : list text) (labels : list Label) (embeddings : list Emb)
    (f : string) :
  ClassifyKnn.main_examples encode fs = (texts, labels, embeddings) ->
  In f (map lbl_file labels) ->
  md_file = f \/ path_str md_file = f ->
  (2 <= List.length labels)%nat ->
  exists r f',
    classify_file encode cosine path_str embeddings labels md_file content
      = Some r /\
    was_excluded r = true /\
    file r = path_str md_file /\
    find_exclude (path_str md_file) md_file labels = Some f' /\
    (f' = md_file \/ f' = path_str md_file) /\
    (forall n, In n (ev_neighbors (verdict r)) -> nb_file n <> f') /\
    (forall c n, In c (chunk_results (verdict r)) ->
                 In n (cr_neighbors c) -> nb_file n <> f').
Proof.
  intros Hmain Hin Heq Htwo.
  destruct (main_examples_spec encode fs)
    as (texts' & labels' & embs' & Hmain' & Hlabels & _ & _ & Hlen & Hnd).
  rewrite Hmain in Hmain'. injection Hmain' as <- <- <-.
  destruct (@find_exclude_some (path_str md_file) md_file labels f Hin Heq)
    as (f' & Hf & Hin' & Hor).
  assert (Ht : truthy (Some f') = true).
  { apply knn_identifiers_nonempty. rewrite Hlabels in Hin'.
    rewrite map_file_label_of_entry in Hin'.
    apply in_map_iff in Hin'. destruct Hin' as (e & <- & He).
    apply in_map, (proj1 (filter_In _ _ _) He). }
  destruct (@chunking_excludes content embeddings labels 3%Z f' Hlen Ht
              (@other_identifier labels f' Hnd Htwo))
    as (r & Hr & Hn & Hc).
  unfold classify_file. cbv zeta. rewrite Hf, Hr.
  eexists _, f'. split; [reflexivity|].
  cbn [was_excluded file verdict]. repeat split; assumption.
Qed.

Lemma classify_files_spec (example_embeddings : list Emb)
    (example_labels : list Label) :
  example_embeddings <> [] ->
  List.length example_embeddings = List.length example_labels ->
  forall md_files results,
    exists new,
      classify_files encode cosine fs path_str example_embeddings
                     example_labels md_files results
        = Some (results ++ new) /\
      map file new =
        map path_str
            (filter (fun a => match fs a with Some _ => true | None => false end)
                    md_files).
Proof.
  intros Hsome Hlen.
  induction md_files as [|md_file rest IH]; intros results.
  - exists []. simpl. now rewrite app_nil_r.
  - cbn [classify_files filter]. destruct (fs md_file) as [content|].
    + unfold classify_file. cbv zeta.
      destruct (@classify_with_chunking_total content example_embeddings
                  example_labels 3%Z
                  (find_exclude (path_str md_file) md_file example_labels)
                  Hsome Hlen) as (r & ->).
      match goal with
      | |- context [classify_files _ _ _ _ _ _ rest (results ++ [?x])] =>
          set (res := x)
      end.
      destruct (IH (results ++ [res])) as (new & Hnew & Hfiles).
      exists (res :: new). rewrite Hnew, <- app_assoc.
      split; [reflexivity|]. cbn [map]. now rewrite Hfiles.
    + apply IH.
Qed.

Lemma slice_from_1 {A} (l : list A) : slice_from l 1 = tl l.
Proof.
  unfold slice_from, slice_index, len. simpl.
  destruct l as [|x l]; [reflexivity|].
  replace (Z.to_nat (Z.min 1 (Z.of_nat (List.length (x :: l))))) with 1%nat
    by (simpl List.length; lia).
  reflexivity.
Qed.

(** X18.  A run of [classify_knn.py]: without an input file it exits with
    status 1; otherwise, when a labelled example is there to load, it ends
    normally, a missing input file being skipped:
    the saved list has one entry per input file that exists, in the order of
    the command line, and the counts of the summary add up. *)
Theorem main_skips_missing_files (argv : list string) :
  ((len argv < 2)%Z ->
   ClassifyKnn.main encode cosine fs path_str argv = SysExit 1) /\
  ((2 <= len argv)%Z ->
   (exists entry, In entry ClassifyKnn.LABELED_EXAMPLES /\
                  fs (fst entry) <> None) ->
   exists total phishing_count legitimate json_results,
     ClassifyKnn.main encode cosine fs path_str argv =
       Completed total phishing_count legitimate json_results /\
     map json_file json_results =
       map path_str
           (filter (fun a => match fs a with Some _ => true | None => false end)
                   (tl argv)) /\
     total = len json_results /\
     phishing_count = len (filter json_is_phishing json_results) /\
     (total = phishing_count + legitimate)%Z /\
     (0 <= phishing_count <= total)%Z).
Proof.
  unfold ClassifyKnn.main.
  split; [intros Hargv|intros Hargv (entry & Hentry & Hfile)].
  - destruct (Z.ltb_spec (len argv) 2); [reflexivity|lia].
  - destruct (Z.ltb_spec (len argv) 2); [lia|].
    destruct (main_examples_spec encode fs)
      as (texts & labels & embs & -> & Hlabels & _ & _ & Hlen & _).
    assert (Hsome : embs <> []).
    { assert (Hin : In (label_of_entry entry) labels).
      { rewrite Hlabels. apply in_map, filter_In. split; [exact Hentry|].
        unfold exists_file. now destruct (fs (fst entry)). }
      intros ->. destruct labels; [exact Hin|discriminate Hlen]. }
    destruct (@classify_files_spec embs labels Hsome Hlen (slice_from argv 1)
                [])
      as (results & -> & Hfiles).
    cbn [app]. rewrite slice_from_1 in Hfiles.
    eexists _, _, _, _. split; [reflexivity|].
    assert (Hf : filter json_is_phishing (map json_of results) =
                 map json_of
                     (filter (fun r => ev_is_phishing (verdict r)) results)).
    { clear. induction results as [|r l IH]; [reflexivity|].
      simpl. destruct (ev_is_phishing (verdict r)); simpl; now rewrite IH. }
    pose proof (filter_length_le (fun r => ev_is_phishing (verdict r)) results).
    rewrite Hf. unfold len. rewrite !length_map.
    split; [rewrite map_map; exact Hfiles|].
    repeat split; lia.
Qed.

End Run.

Lemma main_leaves_the_input_out_witness :
  let labels :=
    [mkLabel "email/sample-1.md" true "Banking points scam (Bradesco)";
     mkLabel "email/sample-4.md" false "Newsletter unsubscribe (legitimate)"] in
  ClassifyKnn.main_examples encode_sign fs_two_md
    = ([list_ascii_of_string "points"; list_ascii_of_string "news-"],
       labels, [east; west]) /\
  In "email/sample-1.md" (map lbl_file labels) /\
  (2 <= List.length labels)%nat /\
  exists r,
    classify_file encode_sign dot same_path [east; west] labels
                  "email/sample-1.md" hello = Some r /\
    was_excluded r = true /\
    forall n, In n (ev_neighbors (verdict r)) ->
              nb_file n <> "email/sample-1.md".
Proof.
  intros labels.
  assert (Hm : ClassifyKnn.main_examples encode_sign fs_two_md
    = ([list_ascii_of_string "points"; list_ascii_of_string "news-"],
       labels, [east; west])) by reflexivity.
  assert (Hin : In "email/sample-1.md" (map lbl_file labels))
    by (left; reflexivity).
  assert (Htwo : (2 <= List.length labels)%nat) by (simpl; lia).
  split; [exact Hm|]. split; [exact Hin|]. split; [exact Htwo|].
  destruct (@main_leaves_the_input_out encode_sign dot fs_two_md same_path
              "email/sample-1.md" hello _ _ _ "email/sample-1.md" Hm Hin
              (or_introl eq_refl) Htwo)
    as (r & f' & Hr & Hw & _ & Hf & _ & Hn & _).
  exists r. split; [exact Hr|]. split; [exact Hw|].
  vm_compute in Hf. injection Hf as <-. exact Hn.
Defined.

Lemma main_skips_missing_files_witness :
  (2 <= len ["classify_knn.py"; "missing.md"; "email/sample-4.md"])%Z /\
  (exists entry, In entry ClassifyKnn.LABELED_EXAMPLES /\
                 fs_two_md (fst entry) <> None) /\
  exists total phishing_count legitimate json_results,
    ClassifyKnn.main encode_sign dot fs_two_md same_path
      ["classify_knn.py"; "missing.md"; "email/sample-4.md"] =
      Completed total phishing_count legitimate json_results /\
    map json_file json_results = ["email/sample-4.md"].
Proof.
  assert (He : exists entry, In entry ClassifyKnn.LABELED_EXAMPLES /\
                             fs_two_md (fst entry) <> None).
  { eexists. split; [left; reflexivity|]. discriminate. }
  split; [discriminate|]. split; [exact He|].
  destruct (proj2 (@main_skips_missing_files encode_sign dot fs_two_md
                     same_path
                     ["classify_knn.py"; "missing.md"; "email/sample-4.md"])
              ltac:(discriminate) He)
    as (t & p & l & j & Hm & Hf & _).
  exists t, p, l, j. split; [exact Hm|]. rewrite Hf. reflexivity.
Defined.

(** ** [parse_email.py] *)

Lemma last_error_cons {A} (x : A) (l : list A) :
  last_error (x :: l) =
  match last_error l with Some y => Some y | None => Some x end.
Proof.
  unfold last_error. simpl. destruct (rev l) as [|y r]; reflexivity.
Qed.

Section ParseEmailFacts.
Variable b64decode : ParseEmail.bytes -> option ParseEmail.bytes.
Variable quopri_decodestring : ParseEmail.bytes -> option ParseEmail.bytes.
Variable utf8_decode : ParseEmail.bytes -> text.
Variable utf8_encode : text -> ParseEmail.bytes.
Variable lower : string -> string.
Variable html2text : text -> text.
Variable read_message : string -> ParseEmail.Message.
Variable path_exists : string -> bool.
Variable with_suffix_md : string -> string.

Local Abbreviation decode_part :=
  (ParseEmail.decode_part b64decode quopri_decodestring utf8_decode
                          utf8_encode lower).
Local Abbreviation extract_content :=
  (ParseEmail.extract_content b64decode quopri_decodestring utf8_decode
                              utf8_encode lower).
Local Abbreviation markdown_of :=
  (ParseEmail.markdown_of b64decode quopri_decodestring utf8_decode
                          utf8_encode lower html2text).
Local Abbreviation parse_email_to_markdown :=
  (ParseEmail.parse_email_to_markdown b64decode quopri_decodestring
     utf8_decode utf8_encode lower html2text read_message).
Local Abbreviation main :=
  (ParseEmail.main b64decode quopri_decodestring utf8_decode utf8_encode
                   lower html2text read_message path_exists with_suffix_md).

Lemma walk_loop_spec :
  forall parts html_content text_content,
    ParseEmail.walk_loop b64decode quopri_decodestring utf8_decode
                         utf8_encode lower parts html_content text_content =
    (match last_error (filter is_html parts) with
     | Some part => Some (decode_part part)
     | None => html_content
     end,
     match text_content with
     | Some t => Some t
     | None => option_map decode_part (hd_error (filter is_plain parts))
     end).
Proof.
  induction parts as [|part rest IH]; intros html_content text_content.
  - simpl. destruct text_content; reflexivity.
  - cbn [ParseEmail.walk_loop filter]. unfold is_html at 1, is_plain at 1.
    destruct (String.eqb (ParseEmail.content_type part) "text/html") eqn:Eh.
    + assert (Ep : String.eqb (ParseEmail.content_type part) "text/plain"
                   = false).
      { apply String.eqb_eq in Eh. rewrite Eh. reflexivity. }
      rewrite Ep, IH, last_error_cons.
      destruct (last_error (filter is_html rest)); reflexivity.
    + destruct (String.eqb (ParseEmail.content_type part) "text/plain") eqn:Ep;
        cbn [andb].
      * destruct text_content as [t|]; rewrite IH; reflexivity.
      * rewrite IH. reflexivity.
Qed.

(** X19.  In a multipart message [extract_content] takes the last
    [text/html] part for the HTML and the first [text/plain] part for the
    text, each decoded, and gives [None] for a kind without part; a message
    that is not multipart gives its payload as HTML when its type is
    [text/html] and as text for every other type. *)
Theorem extract_content_picks (msg : ParseEmail.Message) :
  (ParseEmail.is_multipart msg = true ->
   extract_content msg =
     (option_map decode_part
                 (last_error (filter is_html (ParseEmail.walk msg))),
      option_map decode_part
                 (hd_error (filter is_plain (ParseEmail.walk msg))))) /\
  (ParseEmail.is_multipart msg = false ->
   extract_content msg =
     if is_html (ParseEmail.top msg)
     then (Some (decode_part (ParseEmail.top msg)), None)
     else (None, Some (decode_part (ParseEmail.top msg)))).
Proof.
  unfold ParseEmail.extract_content. split; intros ->.
  - rewrite walk_loop_spec.
    destruct (last_error (filter is_html (ParseEmail.walk msg))); reflexivity.
  - reflexivity.
Qed.

Lemma headers_loop_spec (msg : ParseEmail.Message) :
  forall names headers,
    ParseEmail.headers_loop names msg headers =
    headers ++
    map (header_line msg)
        (filter (fun h => match ParseEmail.get msg h with
                          | [] => false | _ => true end) names).
Proof.
  induction names as [|h rest IH]; intros headers.
  - simpl. now rewrite app_nil_r.
  - cbn [ParseEmail.headers_loop filter].
    destruct (ParseEmail.get msg h) as [|c v] eqn:E.
    + apply IH.
    + rewrite IH. cbn [map]. unfold header_line at 2. rewrite E.
      rewrite <- app_assoc. reflexivity.
Qed.

Lemma markdown_of_nonempty (msg : ParseEmail.Message) (md : text) :
  markdown_of msg = Some md -> md <> [].
Proof.
  unfold ParseEmail.markdown_of.
  destruct (extract_content msg) as [[[|c html]|] [[|d txt]|]];
    intros H; try discriminate H; injection H as <-; discriminate.
Qed.

(** X20.  [parse_email_to_markdown] gives [None] exactly when the message
    has neither non-empty HTML nor non-empty text.  Otherwise the markdown
    is never empty: it is the title, the headers that have a value among
    From, To, Subject and Date, in that order, the rule, and the body, which
    is the converted HTML whenever there is non-empty HTML and the text only
    otherwise. *)
Theorem markdown_of_message (msg : ParseEmail.Message) :
  (markdown_of msg = None <->
   nonempty (fst (extract_content msg)) = false /\
   nonempty (snd (extract_content msg)) = false) /\
  (forall md,
     markdown_of msg = Some md ->
     md <> [] /\
     md = ParseEmail.title
          ++ ParseEmail.join_lines
               (map (header_line msg)
                    (filter (fun h => match ParseEmail.get msg h with
                                      | [] => false | _ => true end)
                            ["From"; "To"; "Subject"; "Date"]))
          ++ ParseEmail.rule
          ++ (if nonempty (fst (extract_content msg))
              then html2text (match fst (extract_content msg) with
                              | Some html => html | None => [] end)
              else match snd (extract_content msg) with
                   | Some t => t | None => [] end)).
Proof.
  unfold ParseEmail.markdown_of.
  rewrite headers_loop_spec. cbn [app].
  destruct (extract_content msg) as [html txt]. cbn [fst snd].
  destruct html as [[|c html]|]; destruct txt as [[|d txt]|]; cbn [nonempty];
    (split; [split|]).
  all: try (intros H; first [discriminate H | split; reflexivity]).
  all: try (intros [H1 H2];
            first [discriminate H1 | discriminate H2 | reflexivity]).
  all: intros md H; first [discriminate H | injection H as <-];
       (split; [discriminate|reflexivity]).
Qed.

Lemma main_loop_spec :
  forall files failed written,
    ParseEmail.main_loop b64decode quopri_decodestring utf8_decode
      utf8_encode lower html2text read_message path_exists with_suffix_md
      files failed written =
    (failed
     || negb (forallb (converts path_exists parse_email_to_markdown) files),
     written ++
     map (fun f => (with_suffix_md f,
                    match parse_email_to_markdown f with
                    | Some md => md | None => [] end))
         (filter (converts path_exists parse_email_to_markdown) files)).
Proof.
  induction files as [|f rest IH]; intros failed written.
  - simpl. now rewrite orb_false_r, app_nil_r.
  - cbn [ParseEmail.main_loop forallb filter]. unfold converts at 1 3.
    destruct (path_exists f); cbn [negb andb].
    + destruct (parse_email_to_markdown f) as [md|] eqn:E.
      * rewrite IH. cbn [map]. rewrite E, <- app_assoc. reflexivity.
      * rewrite IH. cbn [negb]. now rewrite orb_true_r.
    + rewrite IH. cbn [negb]. now rewrite orb_true_r.
Qed.

(** X21.  A run of [parse_email.py]: without an input file it writes nothing
    and exits with status 1.  Otherwise it goes through every input file,
    also after a failure: it writes one markdown file, never empty, for each
    input file that exists and has content, in the order of the command
    line, and the status is 0 exactly when every input file was converted. *)
Theorem parse_email_run (argv : list string) :
  ((len argv < 2)%Z -> main argv = ParseEmail.mkRun [] 1) /\
  ((2 <= len argv)%Z ->
   ParseEmail.status (main argv) =
     (if forallb (converts path_exists parse_email_to_markdown) (tl argv)
      then 0 else 1)%Z /\
   map fst (ParseEmail.written (main argv)) =
     map with_suffix_md
         (filter (converts path_exists parse_email_to_markdown) (tl argv)) /\
   (forall p md,
      In (p, md) (ParseEmail.written (main argv)) ->
      md <> [] /\
      exists f, In f (tl argv) /\ path_exists f = true /\
                p = with_suffix_md f /\
                parse_email_to_markdown f = Some md)).
Proof.
  unfold ParseEmail.main. split; intros Hargv.
  - destruct (Z.ltb_spec (len argv) 2); [reflexivity|lia].
  - destruct (Z.ltb_spec (len argv) 2); [lia|].
    rewrite main_loop_spec, slice_from_1.
    cbn [app orb ParseEmail.status ParseEmail.written].
    split; [|split].
    + destruct (forallb _ (tl argv)); reflexivity.
    + rewrite map_map. reflexivity.
    + intros p md Hin. apply in_map_iff in Hin.
      destruct Hin as (f & Heq & Hf). apply filter_In in Hf.
      destruct Hf as [Hf Hc]. unfold converts in Hc.
      apply andb_true_iff in Hc. destruct Hc as [Hex Hp].
      destruct (parse_email_to_markdown f) as [md'|] eqn:E; [|discriminate].
      injection Heq as <- <-. split.
      * exact (@markdown_of_nonempty (read_message f) md' E).
      * exists f. repeat split; assumption.
Qed.

End ParseEmailFacts.

Lemma extract_content_picks_witness :
  ParseEmail.is_multipart message_4 = true /\
  ParseEmail.extract_content no_base64 plain_quopri latin1_decode
                             latin1_encode same_path message_4 =
    (Some (list_ascii_of_string "<i>2</i>"),
     Some (list_ascii_of_string "one")).
Proof.
  split; [reflexivity|].
  rewrite (proj1 (@extract_content_picks no_base64 plain_quopri latin1_decode
                    latin1_encode same_path message_4) eq_refl).
  reflexivity.
Defined.

Lemma markdown_of_message_witness :
  ParseEmail.markdown_of no_base64 plain_quopri latin1_decode latin1_encode
                         same_path same_text message_0 = None /\
  exists md,
    ParseEmail.markdown_of no_base64 plain_quopri latin1_decode
                           latin1_encode same_path same_text message_4
      = Some md /\ md <> [].
Proof.
  split.
  - apply (proj1 (@markdown_of_message no_base64 plain_quopri latin1_decode
                    latin1_encode same_path same_text message_0)).
    split; reflexivity.
  - eexists. split; [reflexivity|].
    apply (proj2 (@markdown_of_message no_base64 plain_quopri latin1_decode
                    latin1_encode same_path same_text message_4)).
    reflexivity.
Defined.

Lemma parse_email_run_witness :
  (2 <= len ["parse_email.py"; "b.eml"; "missing.eml"; "a.eml"])%Z /\
  ParseEmail.status
    (ParseEmail.main no_base64 plain_quopri latin1_decode latin1_encode
       same_path same_text read_message_ab exists_ab md_suffix
       ["parse_email.py"; "b.eml"; "missing.eml"; "a.eml"]) = 1%Z /\
  map fst
    (ParseEmail.written
       (ParseEmail.main no_base64 plain_quopri latin1_decode latin1_encode
          same_path same_text read_message_ab exists_ab md_suffix
          ["parse_email.py"; "b.eml"; "missing.eml"; "a.eml"]))
    = ["a.eml.md"].
Proof.
  split; [discriminate|].
  destruct (proj2 (@parse_email_run no_base64 plain_quopri latin1_decode
                     latin1_encode same_path same_text read_message_ab
                     exists_ab md_suffix
                     ["parse_email.py"; "b.eml"; "missing.eml"; "a.eml"])
              ltac:(discriminate)) as (Hs & Hw & _).
  split; [rewrite Hs|rewrite Hw]; reflexivity.
Defined.

(** ** The rest of [classifier.py] *)

Section EmailFacts.
Variable encode : text -> Emb.
Variable read_eml : string -> option Classifier.Eml.
Variable soup_text_stripped : text -> text.
Variable soup_text : text -> text.
Variable find_links : text -> list (text * text).
Variable strip : text -> text.
Variable url_pattern : text -> bool.
Variable has_scheme : text -> bool.
Variable hostname : text -> option (option text).
Variable lower : text -> text.
Variable path_name : string -> string.

Local Abbreviation looks_like_url := (Classifier.looks_like_url strip url_pattern).
Local Abbreviation extract_domain := (Classifier.extract_domain has_scheme hostname lower).
Local Abbreviation links_loop :=
  (Classifier.links_loop strip url_pattern has_scheme hostname lower).
Local Abbreviation classify_url_mismatch :=
  (Classifier.classify_url_mismatch find_links strip url_pattern has_scheme
                                    hostname lower).
Local Abbreviation store_fs := (Classifier.store_fs read_eml soup_text_stripped).
Local Abbreviation classify_email :=
  (Classifier.classify_email encode read_eml soup_text_stripped soup_text
     find_links strip url_pattern has_scheme hostname lower).
Local Abbreviation emails_loop :=
  (Classifier.emails_loop encode read_eml soup_text_stripped soup_text
     find_links strip url_pattern has_scheme hostname lower path_name).
Local Abbreviation main :=
  (Classifier.main encode read_eml soup_text_stripped soup_text
     find_links strip url_pattern has_scheme hostname lower path_name).

Lemma links_loop_iff (links : list (text * text)) :
  links_loop links = true <->
  exists link, In link links /\
               deceptive strip looks_like_url extract_domain link.
Proof.
  induction links as [|[href anchor] rest IH].
  - simpl. split; [discriminate|intros (l & [] & _)].
  - cbn [Classifier.links_loop].
    assert (Hrest : forall P : Prop,
      (Classifier.links_loop strip url_pattern has_scheme hostname lower rest
         = true <-> P) ->
      ~ deceptive strip looks_like_url extract_domain (href, anchor) ->
      (P <-> exists link, In link ((href, anchor) :: rest) /\
                          deceptive strip looks_like_url extract_domain link) ->
      True) by trivial.
    clear Hrest.
    assert (Hskip :
      ~ deceptive strip looks_like_url extract_domain (href, anchor) ->
      (Classifier.links_loop strip url_pattern has_scheme hostname lower rest
         = true <->
       exists link, In link ((href, anchor) :: rest) /\
                    deceptive strip looks_like_url extract_domain link)).
    { intros Hn. rewrite IH. split.
      - intros (l & Hl & Hd). exists l. split; [now right|exact Hd].
      - intros (l & [<-|Hl] & Hd); [contradiction|]. now exists l. }
    destruct (strip anchor) as [|c display] eqn:Es.
    { apply Hskip. intros (H & _). cbn [snd] in H. now rewrite Es in H. }
    destruct (looks_like_url (c :: display)) eqn:El; cbn [negb].
    2:{ apply Hskip. intros (_ & H & _). cbn [snd] in H.
        rewrite Es, El in H. discriminate. }
    destruct (extract_domain href) as [[|a hd]|] eqn:Eh.
    1,3: (apply Hskip; intros (_ & _ & h & d & H1 & _ & H3 & _);
          cbn [fst] in H1; rewrite Eh in H1; try discriminate H1;
          injection H1 as <-; now apply H3).
    destruct (extract_domain (c :: display)) as [[|b dd]|] eqn:Ed.
    1,3: (apply Hskip; intros (_ & _ & h & d & _ & H2 & _ & H4 & _);
          cbn [snd] in H2; rewrite Es, Ed in H2; try discriminate H2;
          injection H2 as <-; now apply H4).
    destruct (list_eq_dec Ascii.ascii_dec (a :: hd) (b :: dd)) as [Heq|Hne].
    + apply Hskip. intros (_ & _ & h & d & H1 & H2 & _ & _ & H5).
      cbn [fst snd] in H1, H2. rewrite Eh in H1. rewrite Es, Ed in H2.
      injection H1 as <-. injection H2 as <-. now apply H5.
    + split; [intros _|reflexivity].
      exists (href, anchor). split; [now left|].
      unfold deceptive. cbn [fst snd]. rewrite Es.
      split; [discriminate|]. split; [exact El|].
      exists (a :: hd), (b :: dd).
      repeat split; try assumption; discriminate.
Qed.

(** X22.  [classify_url_mismatch] returns 1 exactly when the HTML body is
    not empty and one of its links is deceptive: its stripped text is not
    empty and looks like a URL, a non-empty domain is found in the text and
    in the target, and the two domains differ.  Otherwise it returns 0, so a
    link whose text does not look like a URL, or whose target has the domain
    of its text, is never flagged. *)
Theorem url_mismatch_iff (html_body : text) :
  (classify_url_mismatch html_body = 1%Z <->
   html_body <> [] /\
   exists link, In link (find_links html_body) /\
                deceptive strip looks_like_url extract_domain link) /\
  (classify_url_mismatch html_body = 0%Z \/
   classify_url_mismatch html_body = 1%Z).
Proof.
  unfold Classifier.classify_url_mismatch.
  destruct html_body as [|c html].
  - split; [|now left]. split; [discriminate|intros [H _]; congruence].
  - pose proof (links_loop_iff (find_links (c :: html))) as H.
    destruct (links_loop (find_links (c :: html))).
    + split; [|now right]. split; [intros _|reflexivity].
      split; [discriminate|now apply H].
    + split; [|now left]. split; [discriminate|].
      intros [_ Hd]. apply H in Hd. discriminate.
Qed.

Lemma parts_loop_spec :
  forall parts text_body html_body,
    Classifier.parts_loop parts text_body html_body =
    (text_body
     ++ List.concat (map Classifier.part_content (filter eml_plain parts)),
     html_body
     ++ List.concat (map Classifier.part_content (filter eml_html parts))).
Proof.
  induction parts as [|part rest IH]; intros text_body html_body.
  - simpl. now rewrite !app_nil_r.
  - cbn [Classifier.parts_loop filter]. unfold eml_plain at 1, eml_html at 1.
    destruct (String.eqb (Classifier.part_type part) "text/plain") eqn:Ep.
    + assert (Eh : String.eqb (Classifier.part_type part) "text/html" = false)
        by (apply String.eqb_eq in Ep; rewrite Ep; reflexivity).
      rewrite Eh, IH. cbn [map List.concat]. now rewrite <- app_assoc.
    + destruct (String.eqb (Classifier.part_type part) "text/html");
        rewrite IH; cbn [map List.concat]; now rewrite <- ?app_assoc.
Qed.

(** X23.  For a multipart message [parse_eml] returns the contents of all
    the [text/plain] parts put end to end, and of all the [text/html] parts
    put end to end, each in the order of the parts; a message that is not
    multipart gives its content as the text or as the HTML according to its
    type, and two empty bodies for any other type. *)
Theorem parse_eml_concatenates (eml_path : string) (msg : Classifier.Eml) :
  read_eml eml_path = Some msg ->
  (Classifier.eml_is_multipart msg = true ->
   Classifier.parse_eml read_eml eml_path =
     Some (List.concat (map Classifier.part_content
                            (filter eml_plain (Classifier.eml_walk msg))),
           List.concat (map Classifier.part_content
                            (filter eml_html (Classifier.eml_walk msg))))) /\
  (Classifier.eml_is_multipart msg = false ->
   Classifier.parse_eml read_eml eml_path =
     Some (if eml_plain (Classifier.eml_top msg)
           then (Classifier.part_content (Classifier.eml_top msg), [])
           else if eml_html (Classifier.eml_top msg)
           then ([], Classifier.part_content (Classifier.eml_top msg))
           else ([], []))).
Proof.
  intros Hread. unfold Classifier.parse_eml, Classifier.bodies.
  rewrite Hread. split; intros ->.
  - rewrite parts_loop_spec. reflexivity.
  - unfold eml_plain, eml_html.
    destruct (String.eqb _ "text/plain"); [reflexivity|].
    destruct (String.eqb _ "text/html"); reflexivity.
Qed.

Lemma classify_email_readable (st : Classifier.State) (eml_path : string) :
  store_wf st -> read_eml eml_path <> None ->
  exists st' r,
    classify_email st eml_path = (st', Some r) /\
    store_wf st' /\ Classifier.file r = eml_path.
Proof.
  intros Hwf Hread. unfold Classifier.classify_email, Classifier.parse_eml.
  destruct (read_eml eml_path) as [msg|]; [|congruence].
  destruct (Classifier.bodies msg) as [text_body html_body].
  match goal with
  | |- context [Classifier.classify encode ?fs st ?t 3 None] =>
      destruct (classify_result encode fs st t 3 None Hwf)
        as (embs & labels & fe & fl & ns & Hload & _ & Hc & _);
      destruct (load_examples_loaded encode fs st Hwf)
        as (e & l & Hload' & Hlen);
      rewrite Hc
  end.
  rewrite Hload in Hload'. injection Hload' as <- <-.
  eexists _, _. split; [reflexivity|]. split; [exact Hlen|reflexivity].
Qed.

Lemma classify_email_missing (st : Classifier.State) (eml_path : string) :
  read_eml eml_path = None -> classify_email st eml_path = (st, None).
Proof.
  intros Hread. unfold Classifier.classify_email, Classifier.parse_eml.
  now rewrite Hread.
Qed.

Lemma emails_loop_readable (json_mode : bool) :
  forall files st results count printed,
    store_wf st ->
    (forall f, In f files -> read_eml f <> None) ->
    exists st' new,
      emails_loop files json_mode st results count printed =
        (st', Some (results ++ new),
         (count + len (filter (fun r => negb (Classifier.is_phishing r =? 0)%Z)
                              new))%Z,
         if json_mode then printed
         else printed ++ map (line_of path_name) new) /\
      map Classifier.file new = files.
Proof.
  induction files as [|f rest IH]; intros st results count printed Hwf Hall.
  - exists st, []. cbn [Classifier.emails_loop filter map len List.length].
    rewrite !app_nil_r, Z.add_0_r. destruct json_mode; now split.
  - cbn [Classifier.emails_loop].
    destruct (@classify_email_readable st f Hwf (Hall f (or_introl eq_refl)))
      as (st1 & r & -> & Hwf1 & Hfile).
    match goal with
    | |- context [Classifier.emails_loop _ _ _ _ _ _ _ _ _ _ _ rest json_mode
                    st1 (results ++ [r]) ?c ?p] =>
        destruct (IH st1 (results ++ [r]) c p Hwf1
                    (fun g Hg => Hall g (or_intror Hg)))
          as (st' & new & Hloop & Hfiles)
    end.
    exists st', (r :: new). rewrite Hloop. split.
    + rewrite <- app_assoc. cbn [app filter map].
      unfold line_of at 2. rewrite Hfile.
      destruct (Classifier.is_phishing r =? 0)%Z; cbn [negb];
        destruct json_mode; rewrite <- ?app_assoc; cbn [app];
        try reflexivity;
        (replace (len (r :: filter
                    (fun r0 => negb (Classifier.is_phishing r0 =? 0)%Z) new))
           with (1 + len (filter
                    (fun r0 => negb (Classifier.is_phishing r0 =? 0)%Z) new))%Z
           by (unfold len; cbn [List.length]; lia));
        rewrite Z.add_assoc; reflexivity.
    + cbn [map]. now rewrite Hfile, Hfiles.
Qed.

Lemma emails_loop_missing (json_mode : bool) :
  forall files st results count printed,
    store_wf st ->
    (exists f, In f files /\ read_eml f = None) ->
    exists st' count' printed',
      emails_loop files json_mode st results count printed =
        (st', None, count', printed').
Proof.
  induction files as [|f rest IH]; intros st results count printed Hwf Hex.
  - destruct Hex as (g & [] & _).
  - cbn [Classifier.emails_loop].
    destruct (read_eml f) as [msg|] eqn:Ef.
    + assert (Hr : read_eml f <> None) by congruence.
      destruct (@classify_email_readable st f Hwf Hr)
        as (st1 & r & -> & Hwf1 & _).
      apply IH; [exact Hwf1|].
      destruct Hex as (g & [<-|Hg] & Hnone); [congruence|now exists g].
    + rewrite (@classify_email_missing st f Ef). now eexists _, _, _.
Qed.

Lemma json_mode_iff (argv : list string) :
  existsb (String.eqb "--json") argv = true <-> In "--json" argv.
Proof.
  rewrite existsb_exists. split.
  - intros (x & Hx & He). apply String.eqb_eq in He. now subst.
  - intros H. exists "--json". split; [exact H|apply String.eqb_refl].
Qed.

(** X24.  [classifier.py] with [--json] among its arguments and every input
    file readable: it prints no line per email, and at the end the JSON dump
    of the list of results when there are several input files and of the
    single result when there is one; when there is none (every argument
    starts with ["--"]) it raises instead of printing. *)
Theorem main_json_mode (argv : list string) :
  (2 <= len argv)%Z ->
  In "--json" argv ->
  (forall f, In f (eml_files argv) -> read_eml f <> None) ->
  match eml_files argv with
  | [] => main argv = ([], Classifier.Raises)
  | [f] =>
      exists r, main argv = ([Classifier.JsonOne r], Classifier.Returns) /\
                Classifier.file r = f
  | files =>
      exists rs, main argv = ([Classifier.JsonList rs], Classifier.Returns) /\
                 map Classifier.file rs = files
  end.
Proof.
  intros Hargv Hjson Hall. unfold Classifier.main.
  destruct (Z.ltb_spec (len argv) 2); [lia|].
  rewrite (proj2 (json_mode_iff argv) Hjson), slice_from_1.
  fold (eml_files argv).
  destruct (emails_loop_readable true (eml_files argv) Classifier.new_instance
              [] 0%Z [] I Hall) as (st' & new & -> & Hfiles).
  cbn [app]. destruct (eml_files argv) as [|f [|g rest]].
  - destruct new; [reflexivity|discriminate Hfiles].
  - destruct new as [|r [|? ?]]; try discriminate Hfiles.
    cbn. injection Hfiles as Hf. now exists r.
  - destruct new as [|r [|r' new]]; try discriminate Hfiles.
    exists (r :: r' :: new). split; [|exact Hfiles].
    replace (len (r :: r' :: new) >? 1)%Z with true; [reflexivity|].
    symmetry. apply Z.gtb_lt. unfold len. cbn [List.length]. lia.
Qed.

(** X25.  [classifier.py] without [--json]: when every input file is
    readable it prints one line per input file, in the order of the command
    line, then, only when there are several input files, the number of
    phishing emails over the number of input files, and returns; when an
    input file is missing it raises. *)
Theorem main_plain_mode (argv : list string) :
  (2 <= len argv)%Z ->
  ~ In "--json" argv ->
  ((forall f, In f (eml_files argv) -> read_eml f <> None) ->
   exists rs,
     map Classifier.file rs = eml_files argv /\
     main argv =
       (map (line_of path_name) rs
        ++ (if (len (eml_files argv) >? 1)%Z
            then [Classifier.Count
                    (len (filter (fun r => negb (Classifier.is_phishing r =? 0)%Z)
                                 rs))
                    (len (eml_files argv))]
            else []),
        Classifier.Returns)) /\
  ((exists f, In f (eml_files argv) /\ read_eml f = None) ->
   snd (main argv) = Classifier.Raises).
Proof.
  intros Hargv Hjson. unfold Classifier.main.
  destruct (Z.ltb_spec (len argv) 2); [lia|].
  assert (Hj : existsb (String.eqb "--json") argv = false).
  { destruct (existsb (String.eqb "--json") argv) eqn:E; [|reflexivity].
    apply json_mode_iff in E. contradiction. }
  rewrite Hj, slice_from_1. fold (eml_files argv).
  split.
  - intros Hall.
    destruct (emails_loop_readable false (eml_files argv)
                Classifier.new_instance [] 0%Z [] I Hall)
      as (st' & new & -> & Hfiles).
    exists new. split; [exact Hfiles|]. cbn [app]. rewrite Z.add_0_l.
    destruct (len (eml_files argv) >? 1)%Z; [reflexivity|].
    now rewrite app_nil_r.
  - intros Hex.
    destruct (emails_loop_missing false (eml_files argv)
                Classifier.new_instance [] 0%Z [] I Hex)
      as (st' & c & p & ->).
    reflexivity.
Qed.

End EmailFacts.

Lemma parse_eml_concatenates_witness :
  (fun p : string => Some eml_3) "z.eml" = Some eml_3 /\
  Classifier.eml_is_multipart eml_3 = true /\
  Classifier.parse_eml (fun p : string => Some eml_3) "z.eml" =
    Some (list_ascii_of_string "one three", list_ascii_of_string "<p>two</p>").
Proof.
  split; [reflexivity|]. split; [reflexivity|].
  rewrite (proj1 (@parse_eml_concatenates (fun p : string => Some eml_3)
                    "z.eml" eml_3 eq_refl) eq_refl).
  reflexivity.
Defined.

Lemma main_json_mode_witness :
  (2 <= len ["classifier.py"; "--json"])%Z /\
  In "--json" ["classifier.py"; "--json"] /\
  Classifier.main encode_sign read_eml_xy same_text same_text no_links
    same_text never never no_hostname same_text same_path
    ["classifier.py"; "--json"] = ([], Classifier.Raises).
Proof.
  split; [discriminate|]. split; [right; left; reflexivity|].
  apply (@main_json_mode encode_sign read_eml_xy same_text same_text no_links
           same_text never never no_hostname same_text same_path
           ["classifier.py"; "--json"]).
  - discriminate.
  - right; left; reflexivity.
  - intros f [].
Defined.

Lemma main_plain_mode_witness :
  (2 <= len ["classifier.py"; "x.eml"; "y.eml"])%Z /\
  ~ In "--json" ["classifier.py"; "x.eml"; "y.eml"] /\
  (forall f, In f (eml_files ["classifier.py"; "x.eml"; "y.eml"]) ->
             read_eml_xy f <> None) /\
  exists rs,
    map Classifier.file rs = ["x.eml"; "y.eml"] /\
    Classifier.main encode_sign read_eml_xy same_text same_text no_links
      same_text never never no_hostname same_text same_path
      ["classifier.py"; "x.eml"; "y.eml"] =
      (map (line_of same_path) rs
       ++ [Classifier.Count
             (len (filter (fun r => negb (Classifier.is_phishing r =? 0)%Z)
                          rs)) 2],
       Classifier.Returns).
Proof.
  assert (Hn : ~ In "--json" ["classifier.py"; "x.eml"; "y.eml"])
    by (intros [H|[H|[H|[]]]]; discriminate H).
  assert (Hall : forall f,
            In f (eml_files ["classifier.py"; "x.eml"; "y.eml"]) ->
            read_eml_xy f <> None)
    by (intros f [<-|[<-|[]]]; discriminate).
  split; [discriminate|]. split; [exact Hn|]. split; [exact Hall|].
  exact (proj1 (@main_plain_mode encode_sign read_eml_xy same_text
                  same_text no_links same_text never never no_hostname
                  same_text same_path
                  ["classifier.py"; "x.eml"; "y.eml"]
                  ltac:(discriminate) Hn) Hall).
Defined.

Lemma url_mismatch_iff_witness :
  Classifier.classify_url_mismatch one_link same_text always always
                                   whole_hostname same_text hello = 1%Z.
Proof.
  apply (proj1 (@url_mismatch_iff one_link same_text always always
                  whole_hostname same_text hello)).
  split; [discriminate|].
  eexists. split; [left; reflexivity|].
  unfold deceptive. cbn [fst snd]. split; [discriminate|].
  split; [reflexivity|].
  eexists _, _. split; [reflexivity|]. split; [reflexivity|].
  split; [discriminate|]. split; [discriminate|]. discriminate.
Defined.

(** ** Formatting, and two more facts on the runs *)

(** X26.  The two formats keep the text apart: different texts give
    different queries and different passages, and a query is never a
    passage. *)
Theorem formats_keep_texts_apart :
  (forall t t', format_query t = format_query t' -> t = t') /\
  (forall t t', format_passage t = format_passage t' -> t = t') /\
  (forall t t', format_query t <> format_passage t').
Proof.
  split; [|split].
  - intros t t' H. unfold format_query in H. now apply app_inv_head in H.
  - intros t t' H. unfold format_passage in H. now apply app_inv_head in H.
  - intros t t' H. unfold format_query, format_passage in H.
    cbn in H. discriminate H.
Qed.

Lemma formats_keep_texts_apart_witness :
  format_query hello = format_query hello /\
  format_query hello <> format_passage hello.
Proof.
  split; [reflexivity|].
  exact (proj2 (proj2 formats_keep_texts_apart) hello hello).
Defined.

Lemma find_exclude_sound (md_path md_file : string) (labels : list Label)
    (f : string) :
  find_exclude md_path md_file labels = Some f ->
  exists lab, In lab labels /\ lbl_file lab = f /\
              (f = md_file \/ f = md_path).
Proof.
  induction labels as [|lab rest IH]; simpl find_exclude; [discriminate|].
  destruct (String.eqb md_path (lbl_file lab)) eqn:E1; cbn [orb].
  - intros H. injection H as <-. apply String.eqb_eq in E1.
    exists lab. split; [now left|]. split; [reflexivity|now right].
  - destruct (String.eqb md_file (lbl_file lab)) eqn:E2.
    + intros H. injection H as <-. apply String.eqb_eq in E2.
      exists lab. split; [now left|]. split; [reflexivity|now left].
    + intros H. destruct (IH H) as (l & Hl & Hf & Hor).
      exists l. split; [now right|]. now split.
Qed.

Section RunMore.
Variable encode : text -> Emb.
Variable cosine : Emb -> Emb -> Q.
Variable path_str : string -> string.

(** X27.  The [was_excluded] flag of [classify_knn.py]: an input file that
    exists gets a result, under its normalised path, and the flag is set
    exactly when that path, or the path as given, is the identifier of a
    loaded example; when it is not set the file is classified against all
    the examples. *)
Theorem was_excluded_iff (example_embeddings : list Emb)
    (example_labels : list Label) (md_file : string) (content : text) :
  example_embeddings <> [] ->
  List.length example_embeddings = List.length example_labels ->
  exists r,
    classify_file encode cosine path_str example_embeddings example_labels
                  md_file content = Some r /\
    file r = path_str md_file /\
    (was_excluded r = true <->
     exists lab, In lab example_labels /\
                 (lbl_file lab = md_file \/ lbl_file lab = path_str md_file)) /\
    (was_excluded r = false ->
     classify_with_chunking encode cosine content example_embeddings
                            example_labels 3 None = Some (verdict r)).
Proof.
  intros Hsome Hlen. unfold classify_file. cbv zeta.
  destruct (find_exclude (path_str md_file) md_file example_labels)
    as [f|] eqn:Ef.
  - destruct (@classify_with_chunking_total encode cosine content
                example_embeddings example_labels 3%Z (Some f) Hsome Hlen)
      as (r & ->).
    eexists. split; [reflexivity|]. cbn [file was_excluded verdict].
    split; [reflexivity|]. split; [|discriminate].
    split; [intros _|reflexivity].
    destruct (find_exclude_sound _ _ _ Ef) as (lab & Hin & Hf & Hor).
    exists lab. split; [exact Hin|]. rewrite Hf. exact Hor.
  - destruct (@classify_with_chunking_total encode cosine content
                example_embeddings example_labels 3%Z None Hsome Hlen)
      as (r & Hr).
    rewrite Hr. eexists. split; [reflexivity|].
    cbn [file was_excluded verdict]. split; [reflexivity|].
    split; [|intros _; reflexivity].
    split; [discriminate|]. intros (lab & Hin & Hor). exfalso.
    destruct (proj1 (find_exclude_none _ _ _) Ef lab Hin) as [H1 H2].
    destruct Hor; contradiction.
Qed.

End RunMore.

Lemma was_excluded_iff_witness :
  embeddings_abc <> [] /\
  List.length embeddings_abc = List.length labels_abc /\
  exists r,
    classify_file encode_sign dot same_path embeddings_abc labels_abc
                  "other.md" hello = Some r /\
    was_excluded r = false.
Proof.
  split; [discriminate|]. split; [reflexivity|].
  destruct (@was_excluded_iff encode_sign dot same_path embeddings_abc
              labels_abc "other.md" hello ltac:(discriminate) eq_refl)
    as (r & Hr & _).
  exists r. split; [exact Hr|].
  vm_compute in Hr. injection Hr as <-. reflexivity.
Defined.

Section EmailMore.
Variable encode : text -> Emb.
Variable read_eml : string -> option Classifier.Eml.
Variable soup_text_stripped : text -> text.
Variable soup_text : text -> text.
Variable find_links : text -> list (text * text).
Variable strip : text -> text.
Variable url_pattern : text -> bool.
Variable has_scheme : text -> bool.
Variable hostname : text -> option (option text).
Variable lower : text -> text.

(** X28.  [classify_email] classifies, with [k = 3] and without exclusion,
    the text of the email: when the email has plain text, or has no HTML
    either, that text is the one [get_email_text] returns, which is what the
    store embeds for a labelled example, and the two signals come from
    [classify] on it and from [classify_url_mismatch] on the HTML body. *)
Theorem classify_email_on_email_text (st : Classifier.State)
    (eml_path : string) (text_body html_body : text) :
  store_wf st ->
  Classifier.parse_eml read_eml eml_path = Some (text_body, html_body) ->
  text_body <> [] \/ html_body = [] ->
  exists txt b c ns,
    Classifier.get_email_text read_eml soup_text_stripped eml_path
      = Some txt /\
    Classifier.classify encode
      (Classifier.store_fs read_eml soup_text_stripped) st txt 3 None =
      (Classifier._load_examples encode
         (Classifier.store_fs read_eml soup_text_stripped) st,
       Some (b, c, ns)) /\
    Classifier.classify_email encode read_eml soup_text_stripped soup_text
      find_links strip url_pattern has_scheme hostname lower st eml_path =
      (Classifier._load_examples encode
         (Classifier.store_fs read_eml soup_text_stripped) st,
       Some (Classifier.mkSignals
               (Classifier.classify_url_mismatch find_links strip url_pattern
                  has_scheme hostname lower html_body)
               (if b then 1 else 0) c ns eml_path)).
Proof.
  intros Hwf Hparse Hplain.
  set (fs := Classifier.store_fs read_eml soup_text_stripped).
  set (txt := match text_body with
              | _ :: _ => text_body
              | [] => match html_body with
                      | _ :: _ => soup_text_stripped html_body
                      | [] => []
                      end
              end).
  assert (Hq : txt = match text_body with
                     | _ :: _ => text_body
                     | [] => match html_body with
                             | _ :: _ => soup_text html_body
                             | [] => []
                             end
                     end).
  { unfold txt. destruct text_body; [|reflexivity].
    destruct Hplain as [H| ->]; [congruence|reflexivity]. }
  destruct (classify_result encode fs st txt 3 None Hwf)
    as (embs & labels & fe & fl & ns & Hload & _ & Hc & _).
  eexists txt, _, _, ns.
  split; [|split].
  - unfold Classifier.get_email_text. rewrite Hparse. reflexivity.
  - rewrite Hc, Hload. reflexivity.
  - unfold Classifier.classify_email. rewrite Hparse, <- Hq.
    fold fs. rewrite Hc, Hload. reflexivity.
Qed.

End EmailMore.

Lemma classify_email_on_email_text_witness :
  store_wf Classifier.new_instance /\
  Classifier.parse_eml read_eml_xy "x.eml" = Some (hello, []) /\
  exists r,
    snd (Classifier.classify_email encode_sign read_eml_xy same_text same_text
           no_links same_text never never no_hostname same_text
           Classifier.new_instance "x.eml") = Some r /\
    Classifier.file r = "x.eml".
Proof.
  split; [exact I|]. split; [reflexivity|].
  destruct (@classify_email_on_email_text encode_sign read_eml_xy same_text
              same_text no_links same_text never never no_hostname same_text
              Classifier.new_instance "x.eml" hello [] I eq_refl
              (or_intror eq_refl))
    as (txt & b & c & ns & _ & _ & ->).
  eexists. split; reflexivity.
Defined.

(** ** A run of [classify_knn.py] without labelled examples *)

Section NoExample.
Variable encode : text -> Emb.
Variable cosine : Emb -> Emb -> Q.
Variable fs : string -> option text.
Variable path_str : string -> string.

Lemma classify_with_chunking_no_example (content : text) (k : Z)
    (exclude_file : option string) :
  classify_with_chunking encode cosine content [] [] k exclude_file = None.
Proof.
  unfold classify_with_chunking.
  assert (HU : use_examples [] [] exclude_file = Some ([], []))
    by (destruct exclude_file as [[|c f]|]; reflexivity).
  rewrite HU.
  destruct (@chunk_text_covers content CHUNK_SIZE CHUNK_OVERLAP)
    as (chunks & HC & _); [unfold CHUNK_SIZE, CHUNK_OVERLAP; lia|].
  rewrite HC. destruct chunks as [|chunk rest]; [|reflexivity].
  exfalso. revert HC. apply chunk_text_nonempty. unfold CHUNK_SIZE. lia.
Qed.

Lemma classify_files_no_example (md_files : list string) :
  forall results,
    (exists md_file, In md_file md_files /\ fs md_file <> None) ->
    classify_files encode cosine fs path_str [] [] md_files results = None.
Proof.
  induction md_files as [|md_file rest IH]; intros results (f & Hin & Hf);
    [contradiction|].
  cbn [classify_files]. destruct (fs md_file) as [content|] eqn:E.
  - unfold classify_file. cbv zeta.
    now rewrite classify_with_chunking_no_example.
  - apply IH. exists f. split; [|exact Hf].
    destruct Hin as [<-|Hin]; [congruence|exact Hin].
Qed.

(** C8.  [classify_knn.py] has no safe default.  On an empty example set
    [classify_with_chunking] raises for every text, [k] and exclusion (the
    library rejects the empty array at line 90).  So when no labelled
    example file exists, [main] loads nothing, and a run with an input file
    that exists ends in that exception instead of a result. *)
Theorem no_example_raises :
  (forall content k exclude_file,
     classify_with_chunking encode cosine content [] [] k exclude_file
       = None) /\
  ((forall entry, In entry ClassifyKnn.LABELED_EXAMPLES ->
                  fs (fst entry) = None) ->
   ClassifyKnn.main_examples encode fs = ([], [], []) /\
   forall argv,
     (2 <= len argv)%Z ->
     (exists md_file, In md_file (tl argv) /\ fs md_file <> None) ->
     ClassifyKnn.main encode cosine fs path_str argv = Raised).
Proof.
  split; [exact classify_with_chunking_no_example|].
  intros Hnone.
  assert (Hmain : ClassifyKnn.main_examples encode fs = ([], [], [])).
  { destruct (main_examples_spec encode fs)
      as (texts & labels & embs & -> & Hlabels & Htexts & Hembs & _).
    assert (Hl : labels = []).
    { rewrite Hlabels.
      assert (Hf : forall table,
                (forall entry, In entry table -> fs (fst entry) = None) ->
                filter (exists_file fs) table = []).
      { induction table as [|entry table IH]; intros Hall; [reflexivity|].
        cbn [filter]. unfold exists_file at 1.
        rewrite (Hall entry (or_introl eq_refl)).
        apply IH. intros x Hx. apply Hall. now right. }
      now rewrite (Hf _ Hnone). }
    clear Hlabels. rewrite Hl in Htexts |- *. cbn [map] in Htexts.
    destruct texts; [|discriminate Htexts].
    now rewrite Hembs. }
  split; [exact Hmain|].
  intros argv Hargv Hfile. unfold ClassifyKnn.main.
  destruct (Z.ltb_spec (len argv) 2); [lia|].
  rewrite Hmain, slice_from_1.
  now rewrite classify_files_no_example.
Qed.

End NoExample.

Lemma no_example_raises_witness :
  (forall entry, In entry ClassifyKnn.LABELED_EXAMPLES ->
                 fs_mail (fst entry) = None) /\
  (2 <= len ["classify_knn.py"; "mail.md"])%Z /\
  (exists md_file,
     In md_file (tl ["classify_knn.py"; "mail.md"]) /\
     fs_mail md_file <> None) /\
  ClassifyKnn.main encode_sign dot fs_mail same_path
                   ["classify_knn.py"; "mail.md"] = Raised.
Proof.
  assert (Hnone : forall entry, In entry ClassifyKnn.LABELED_EXAMPLES ->
                                fs_mail (fst entry) = None).
  { intros entry Hin. simpl in Hin.
    repeat (destruct Hin as [<-|Hin]; [reflexivity|]). contradiction. }
  assert (Hfile : exists md_file,
            In md_file (tl ["classify_knn.py"; "mail.md"]) /\
            fs_mail md_file <> None)
    by (exists "mail.md"; split; [now left|discriminate]).
  split; [exact Hnone|]. split; [reflexivity|]. split; [exact Hfile|].
  exact (proj2 (proj2 (no_example_raises encode_sign dot fs_mail same_path)
                      Hnone)
               ["classify_knn.py"; "mail.md"] ltac:(reflexivity) Hfile).
Defined.
